(** * uvrl discovery engine: a shallow embedding and its properties

    The development follows the Python sources of the repository:
    - [app/utils/os.py]                      -> [Module OsUtil]
    - [app/steam_discovery.py]               -> [Module SteamDiscovery]
    - [app/discovery.py]                     -> [Module Discovery]
    - [app/discovery/applist_manager.py]     -> [Module ApplistManager]
    - [hi.py]                                -> [Module Hi]

    Python values are modelled as follows: [str] as [string] (ASCII text),
    [int] as [Z], [dict[str, str]] as [gmap string string], [set] as [gset],
    [pathlib.Path] as an anchored list of components, the live file system
    as a finite tree, and a raised exception as the [Raise] case of the
    [result] type. *)

From Stdlib Require Import ZArith Ascii String List Bool Lia.
From stdpp Require Import base option list gmap strings pretty sorting.

Local Open Scope string_scope.
Local Open Scope Z_scope.

(** ** Python exceptions and the error monad *)

Module Py.

Inductive exn : Type :=
| OSError            (* also FileNotFoundError, PermissionError, ... *)
| ValueError         (* also json.JSONDecodeError *)
| IndexError
| KeyError
| TypeError
| AttributeError
| UnboundLocalError.

Inductive result (A : Type) : Type :=
| Ok (a : A)
| Raise (e : exn).
Arguments Ok {A} a.
Arguments Raise {A} e.

Definition bind {A B} (r : result A) (k : A -> result B) : result B :=
  match r with
  | Ok a => k a
  | Raise e => Raise e
  end.

(** [l[i]] on a Python list *)
Definition getitem {A} (l : list A) (i : nat) : result A :=
  match nth_error l i with
  | Some a => Ok a
  | None => Raise IndexError
  end.

(** A [for] loop whose body updates an accumulator and may raise. *)
Fixpoint for_each {A S} (body : S -> A -> result S) (xs : list A) (s : S)
  : result S :=
  match xs with
  | [] => Ok s
  | x :: xs' => bind (body s x) (for_each body xs')
  end.

End Py.
Import Py.

(** [x ← r; k] runs [r] and, unless it raised, continues with [k]. *)
Global Instance result_bind : MBind result := fun _ _ k r => Py.bind r k.
Global Instance result_ret : MRet result := fun _ a => Ok a.

(** ** Python string operations (ASCII) *)

Module PyStr.

Definition dquote : ascii := "034"%char.
Definition slash : ascii := "/"%char.
Definition backslash : ascii := "092"%char.
Definition dot : ascii := "."%char.
Definition underscore : ascii := "_"%char.

Definition is_empty (s : string) : bool :=
  match s with EmptyString => true | String _ _ => false end.

(** [str.isspace] on one ASCII character: TAB, LF, VT, FF, CR,
    FS, GS, RS, US and the blank. *)
Definition is_space (c : ascii) : bool :=
  let n := nat_of_ascii c in
  ((9 <=? n) && (n <=? 13) || (28 <=? n) && (n <=? 32))%nat.

Fixpoint lstrip (s : string) : string :=
  match s with
  | EmptyString => EmptyString
  | String a s' => if is_space a then lstrip s' else s
  end.

Fixpoint rstrip (s : string) : string :=
  match s with
  | EmptyString => EmptyString
  | String a s' =>
      let r := rstrip s' in
      if is_space a && is_empty r then EmptyString else String a r
  end.

(** [s.strip()] *)
Definition strip (s : string) : string := rstrip (lstrip s).

Definition lower_char (c : ascii) : ascii :=
  let n := nat_of_ascii c in
  if ((65 <=? n) && (n <=? 90))%nat then ascii_of_nat (n + 32) else c.

(** [s.lower()] *)
Fixpoint lower (s : string) : string :=
  match s with
  | EmptyString => EmptyString
  | String a s' => String (lower_char a) (lower s')
  end.

(** Number of characters of [s] satisfying [p];
    [s.count(c)] for a one-character [c] is [count c s]. *)
Fixpoint count_by (p : ascii -> bool) (s : string) : nat :=
  match s with
  | EmptyString => 0%nat
  | String a s' => ((if p a then 1 else 0) + count_by p s')%nat
  end.

Definition count (c : ascii) (s : string) : nat :=
  count_by (fun a => Ascii.eqb a c) s.

(** Splitting at every character satisfying [sep];
    [s.split(c)] is [split_by (Ascii.eqb c) s]. *)
Fixpoint split_by (sep : ascii -> bool) (s : string) : list string :=
  match s with
  | EmptyString => [EmptyString]
  | String a s' =>
      if sep a then EmptyString :: split_by sep s'
      else match split_by sep s' with
           | [] => [String a EmptyString]
           | h :: t => String a h :: t
           end
  end.

Definition split (c : ascii) (s : string) : list string :=
  split_by (fun a => Ascii.eqb a c) s.

(** [s.startswith(p)] *)
Fixpoint startswith (p s : string) : bool :=
  match p, s with
  | EmptyString, _ => true
  | String a p', String b s' => Ascii.eqb a b && startswith p' s'
  | String _ _, EmptyString => false
  end.

(** [s.removeprefix(p)] *)
Fixpoint drop_prefix (p s : string) : string :=
  match p, s with
  | String _ p', String _ s' => drop_prefix p' s'
  | _, _ => s
  end.
Definition removeprefix (p s : string) : string :=
  if startswith p s then drop_prefix p s else s.

(** [s.endswith(p)] *)
Definition endswith (p s : string) : bool :=
  startswith (String.rev p) (String.rev s).

(** [t in s] for strings: [t] occurs as a substring of [s]. *)
Fixpoint contains (t s : string) : bool :=
  startswith t s ||
  match s with
  | EmptyString => false
  | String _ s' => contains t s'
  end.

(** The lines a text-mode file iterates over.  Universal newlines make
    LF, CR and CR LF line ends; cutting at every CR and every LF gives the
    same lines up to empty ones, and every consumer below strips each
    line and ignores empty lines. *)
Definition is_newline (c : ascii) : bool :=
  let n := nat_of_ascii c in ((n =? 10) || (n =? 13))%nat.
Definition lines (text : string) : list string := split_by is_newline text.

(** [sep.join(parts)] *)
Fixpoint join (sep : string) (parts : list string) : string :=
  match parts with
  | [] => EmptyString
  | [p] => p
  | p :: ps => p +:+ sep +:+ join sep ps
  end.

(** Index of the last [c] in [s] ([s.rfind(c)]), if any. *)
Fixpoint rfind (c : ascii) (s : string) : option nat :=
  match s with
  | EmptyString => None
  | String a s' =>
      match rfind c s' with
      | Some i => Some (S i)
      | None => if Ascii.eqb a c then Some 0%nat else None
      end
  end.

Fixpoint take (n : nat) (s : string) : string :=
  match n, s with
  | S n', String a s' => String a (take n' s')
  | _, _ => EmptyString
  end.

Fixpoint drop (n : nat) (s : string) : string :=
  match n, s with
  | S n', String _ s' => drop n' s'
  | _, _ => s
  end.

(** [int(s)]: surrounding white space, an optional sign, then decimal
    digits.  (Python also accepts single underscores between digits; no
    caller below passes a string containing an underscore.) *)
Definition digit_of (c : ascii) : option Z :=
  let n := nat_of_ascii c in
  if ((48 <=? n) && (n <=? 57))%nat then Some (Z.of_nat (n - 48)) else None.

Fixpoint digits_go (acc : Z) (s : string) : option Z :=
  match s with
  | EmptyString => Some acc
  | String a s' =>
      match digit_of a with
      | Some d => digits_go (10 * acc + d) s'
      | None => None
      end
  end.

Definition digits (s : string) : option Z :=
  if is_empty s then None else digits_go 0 s.

Definition int_of_str (s : string) : result Z :=
  let r :=
    match strip s with
    | String "-" s' => Z.opp <$> digits s'
    | String "+" s' => digits s'
    | s' => digits s'
    end in
  match r with
  | Some z => Ok z
  | None => Raise ValueError
  end.

(** [str(z)] / the [{z}] of an f-string *)
Definition str_of_int (z : Z) : string := pretty z.

End PyStr.

(** ** Paths and the file system *)

Module Fs.

(** A [pathlib.Path]: whether it has a root, and its components, the
    first of which is the drive when a path of the Windows flavour has
    one.  Empty and [.] components never occur: [Path_of] drops them as
    pathlib does. *)
Definition Path : Type := bool * list string.

Definition anchored (p : Path) : bool := fst p.
Definition parts (p : Path) : list string := snd p.

(** [p / name] for a single component *)
Definition div (p : Path) (name : string) : Path :=
  (anchored p, (parts p ++ [name])%list).

(** The path [rel] components below [root] *)
Definition below (root : Path) (rel : list string) : Path :=
  (anchored root, (parts root ++ rel)%list).

(** [p.name], for a path that ends in a proper component (every path
    whose name the code asks for does); the name of a bare drive, which
    pathlib gives as empty, is not modelled. *)
Definition name (p : Path) : string := List.last (parts p) EmptyString.

(** [p.suffix] and [p.stem] look at the last dot of the name; a dot in
    first or in last position does not start a suffix. *)
Definition suffix_of (nm : string) : string :=
  match PyStr.rfind PyStr.dot nm with
  | Some i =>
      if ((0 <? i) && (i <? String.length nm - 1))%nat
      then PyStr.drop i nm else EmptyString
  | None => EmptyString
  end.

Definition stem_of (nm : string) : string :=
  match PyStr.rfind PyStr.dot nm with
  | Some i =>
      if ((0 <? i) && (i <? String.length nm - 1))%nat
      then PyStr.take i nm else nm
  | None => nm
  end.

Definition suffix (p : Path) : string := suffix_of (name p).
Definition stem (p : Path) : string := stem_of (name p).

(** [Path(s)]: the text is cut at the separators ([/], and the
    backslash too on Windows), empty and [.] pieces are dropped (so
    doubled separators collapse), and the path is anchored when a root
    follows its drive, if any.  (A root of exactly two slashes, which
    the POSIX flavour keeps apart, is not told apart from [/].) *)
Definition is_sep (win : bool) (c : ascii) : bool :=
  Ascii.eqb c PyStr.slash || (win && Ascii.eqb c PyStr.backslash).

Definition keep_part (s : string) : bool :=
  negb (PyStr.is_empty s) && negb (String.eqb s ".").

(** Does the text whose pieces these are start with a separator? *)
Definition starts_sep (pieces : list string) : bool :=
  match pieces with
  | a :: _ :: _ => PyStr.is_empty a
  | _ => false
  end.

(** The pieces after two leading separators, if the text starts so. *)
Definition after_two_seps (pieces : list string) : option (list string) :=
  match pieces with
  | a :: rest =>
      if PyStr.is_empty a then
        match rest with
        | b :: rest' => if PyStr.is_empty b then Some rest' else None
        | [] => None
        end
      else None
  | [] => None
  end.

Definition bs : string := String PyStr.backslash EmptyString.

Definition is_nil {A} (l : list A) : bool :=
  match l with [] => true | _ :: _ => false end.

Definition drive_letter (c : ascii) : bool :=
  let n := nat_of_ascii c in
  ((65 <=? n) && (n <=? 90) || (97 <=? n) && (n <=? 122))%nat.

(** [_split_extended_path]: the prefix [\\?\] of an extended path, or
    [\\?\UNC] with the rest read as a UNC path, and the pieces after
    it. *)
Definition split_extended (pieces : list string) : string * list string :=
  match after_two_seps pieces with
  | Some (q :: u :: t) =>
      if String.eqb q "?" then
        if String.eqb u "UNC" && negb (is_nil t)
        then (bs +:+ bs +:+ "?" +:+ bs +:+ "UNC",
              EmptyString :: EmptyString :: t)
        else (bs +:+ bs +:+ "?" +:+ bs, u :: t)
      else (EmptyString, pieces)
  | _ => (EmptyString, pieces)
  end.

(** The UNC case of [splitroot]: two separators, a server, and a share
    that is not cut short by a doubled separator. *)
Definition unc (prefix : string) (pieces : list string)
  : option (string * list string) :=
  match after_two_seps pieces with
  | Some (server :: share :: rest) =>
      if negb (PyStr.is_empty server)
         && negb (PyStr.is_empty share && negb (is_nil rest))
      then Some ((if PyStr.is_empty prefix then bs else prefix)
                 +:+ bs +:+ server +:+ bs +:+ share, rest)
      else None
  | _ => None
  end.

(** A drive letter and its colon at the start of the text. *)
Definition drive_letter_split (pieces : list string)
  : option (string * list string) :=
  match pieces with
  | String c (String k first) :: rest =>
      if drive_letter c && Ascii.eqb k ":"
      then Some (String c (String k EmptyString), first :: rest)
      else None
  | _ => None
  end.

(** [splitroot] of the Windows flavour, on the pieces between the
    separators of the text: the drive, whether a root follows it, and
    the pieces of the rest. *)
Definition splitroot_win (pieces : list string)
  : string * bool * list string :=
  let '(prefix, pieces) := split_extended pieces in
  match unc prefix pieces with
  | Some (drv, rest) => (drv, true, rest)
  | None =>
      match drive_letter_split pieces with
      | Some (drv, rest) => (prefix +:+ drv, starts_sep rest, rest)
      | None => (prefix, starts_sep pieces, pieces)
      end
  end.

(** On Windows the drive of a path is kept as its first component,
    with a backslash after it that tells it from a proper component (no
    proper component holds a backslash there): [C:\] in [C:x] and in
    [C:\x] alike, the flag telling whether a root follows the drive. *)
Definition Path_of (win : bool) (s : string) : Path :=
  let raw := PyStr.split_by (is_sep win) s in
  if win then
    let '(drv, rooted, rest) := splitroot_win raw in
    let parsed := List.filter keep_part rest in
    (rooted, if PyStr.is_empty drv then parsed else (drv +:+ bs) :: parsed)
  else (starts_sep raw, List.filter keep_part raw).

Fixpoint is_drive (s : string) : bool :=
  match s with
  | EmptyString => false
  | String c EmptyString => Ascii.eqb c PyStr.backslash
  | String _ s' => is_drive s'
  end.

(** The text of a drive component, without its mark. *)
Fixpoint drive_text (d : string) : string :=
  match d with
  | EmptyString => EmptyString
  | String _ EmptyString => EmptyString
  | String c d' => String c (drive_text d')
  end.

Definition drive_of (win : bool) (p : Path) : option string :=
  match parts p with
  | d :: _ => if win && is_drive d then Some d else None
  | [] => None
  end.

(** The components after the drive. *)
Definition rel_parts (win : bool) (p : Path) : list string :=
  match drive_of win p with
  | Some _ => tl (parts p)
  | None => parts p
  end.

(** [p / s] for a string [s] that is parsed as a path
    ([join_parsed_parts]): a rooted right operand replaces the left one
    but for its drive, a right operand on another drive replaces it
    altogether, and one on the same drive (compared in lower case) or
    without drive and root is appended. *)
Definition joinpath (win : bool) (p : Path) (s : string) : Path :=
  let q := Path_of win s in
  match drive_of win q, anchored q with
  | None, true =>
      match drive_of win p with
      | Some d => (true, d :: parts q)
      | None => q
      end
  | Some _, true => q
  | Some d2, false =>
      match drive_of win p with
      | Some d =>
          if String.eqb (PyStr.lower d2) (PyStr.lower d)
          then (anchored p, (parts p ++ rel_parts win q)%list)
          else q
      | None => q
      end
  | None, false => (anchored p, (parts p ++ parts q)%list)
  end.

(** [str(p)] *)
Definition str (win : bool) (p : Path) : string :=
  let sep := String (if win then PyStr.backslash else PyStr.slash)
                    EmptyString in
  let root := if anchored p then sep else EmptyString in
  match drive_of win p with
  | Some d => drive_text d +:+ root +:+ PyStr.join sep (tl (parts p))
  | None =>
      match parts p with
      | [] => if anchored p then sep else "."
      | ps => root +:+ PyStr.join sep ps
      end
  end.

(** What reading a file gives: its whole text, or an [OSError] after
    the lines [delivered] (no line at all when the file cannot even be
    opened). *)
Inductive content : Type :=
| Text (text : string)
| Fails (delivered : list string).

(** The file system: a finite tree of named entries.  A file carries
    what a read of it gives and its executable permission bit; the name
    of the root entry is immaterial. *)
Local Unset Elimination Schemes.
Inductive node : Type :=
| File (name : string) (data : content) (xbit : bool)
| Dir (name : string) (children : list node).
Local Set Elimination Schemes.

Definition node_name (n : node) : string :=
  match n with File nm _ _ => nm | Dir nm _ => nm end.

Definition is_dir (n : node) : bool :=
  match n with Dir _ _ => true | File _ _ _ => false end.

(** Induction on the tree, with the hypothesis for all children. *)
Fixpoint node_ind (P : node -> Prop)
  (HFile : forall nm data xbit, P (File nm data xbit))
  (HDir : forall nm cs, Forall P cs -> P (Dir nm cs))
  (n : node) {struct n} : P n :=
  match n with
  | File nm data xbit => HFile nm data xbit
  | Dir nm cs =>
      HDir nm cs
        ((fix children (cs : list node) : Forall P cs :=
            match cs with
            | [] => @List.Forall_nil node P
            | c :: cs' =>
                @List.Forall_cons node P c cs'
                  (node_ind P HFile HDir c) (children cs')
            end) cs)
  end.

(** No file of the tree has an empty name. *)
Fixpoint names_ok (n : node) : bool :=
  match n with
  | File nm _ _ => negb (PyStr.is_empty nm)
  | Dir _ cs => forallb names_ok cs
  end.

Fixpoint lookup_child (nm : string) (cs : list node) : option node :=
  match cs with
  | [] => None
  | c :: cs' =>
      if String.eqb (node_name c) nm then Some c else lookup_child nm cs'
  end.

Fixpoint lookup (n : node) (p : list string) : option node :=
  match p with
  | [] => Some n
  | nm :: p' =>
      match n with
      | Dir _ cs =>
          match lookup_child nm cs with
          | Some c => lookup c p'
          | None => None
          end
      | File _ _ _ => None
      end
  end.

End Fs.

(** ** The environment a discovery call observes *)

Record World : Type := mkWorld {
  platform_system : string;          (* platform.system() *)
  environ : gmap string string;      (* os.environ *)
  home : Fs.Path;                    (* Path.home() *)
  cwd : list string;                 (* components of the working directory *)
  root : Fs.node;                    (* the live directory tree *)
  resolve : Fs.Path -> Fs.Path       (* Path.resolve() *)
}.

Section WorldOps.
Variable w : World.

(** Components from the root of the tree.  A drive is an entry of the
    root of the tree like any other; the current directories that
    Windows keeps per drive are not part of the world, and a path with a
    drive but no root is looked up below the working directory. *)
Definition locate (p : Fs.Path) : list string :=
  if Fs.anchored p then Fs.parts p else (cwd w ++ Fs.parts p)%list.

Definition stat (p : Fs.Path) : option Fs.node :=
  Fs.lookup (root w) (locate p).

(** [p.exists()] *)
Definition path_exists (p : Fs.Path) : bool :=
  match stat p with Some _ => true | None => false end.

(** Opening [p] for reading and consuming its whole text; a missing
    path, a directory and a file whose read fails all raise an
    [OSError]. *)
Definition open_read (p : Fs.Path) : result string :=
  match stat p with
  | Some (Fs.File _ (Fs.Text text) _) => Ok text
  | _ => Raise OSError
  end.

(** [with p.open() as f: for line in f: ...]: the lines the loop
    receives before the iteration ends, and whether it ends in an
    [OSError] rather than at the end of the file.  A path that cannot
    be opened delivers no line and fails. *)
Definition delivered (p : Fs.Path) : list string :=
  match stat p with
  | Some (Fs.File _ (Fs.Text text) _) => PyStr.lines text
  | Some (Fs.File _ (Fs.Fails ls) _) => ls
  | _ => []
  end.

Definition read_fails (p : Fs.Path) : bool :=
  match stat p with
  | Some (Fs.File _ (Fs.Text _) _) => false
  | _ => true
  end.

(** [os.environ.get(k)] *)
Definition environ_get (k : string) : option string := environ w !! k.

End WorldOps.

(** ** [app/utils/os.py] *)

Module OsUtil.

Inductive OSType : Type := WINDOWS | LINUX | UNKNOWN.

Definition get_os (w : World) : OSType :=
  let system := PyStr.lower (platform_system w) in
  if String.eqb system "windows" then WINDOWS
  else if String.eqb system "linux" then LINUX
  else UNKNOWN.

Definition is_windows (w : World) : bool :=
  match get_os w with WINDOWS => true | _ => false end.

Definition is_linux (w : World) : bool :=
  match get_os w with LINUX => true | _ => false end.

Definition executable_extensions (w : World) : list string :=
  if is_windows w then [".exe"; ".bat"; ".cmd"; ".ps1"; ".py"]
  else if is_linux w then [".sh"; ".py"]
  else [].

Definition get_env (w : World) (env : string) : option string :=
  environ_get w env.

End OsUtil.

(** pathlib parses with the Windows flavour exactly on Windows. *)
Definition mkpath (w : World) (s : string) : Fs.Path :=
  Fs.Path_of (OsUtil.is_windows w) s.

Definition path_str (w : World) (p : Fs.Path) : string :=
  Fs.str (OsUtil.is_windows w) p.

(** [dir.glob("appmanifest_*.acf")]: the entries of [dir] whose name
    starts with [appmanifest_] and ends with [.acf] (case-insensitively
    on Windows), as paths below [dir]; nothing when [dir] is not a
    directory. *)
Definition matches_manifest (w : World) (nm : string) : bool :=
  let nm' := if OsUtil.is_windows w then PyStr.lower nm else nm in
  PyStr.startswith "appmanifest_" nm' && PyStr.endswith ".acf" nm'
  && (16 <=? String.length nm')%nat.

Definition glob_manifests (w : World) (dir : Fs.Path) : list Fs.Path :=
  match stat w dir with
  | Some (Fs.Dir _ cs) =>
      Fs.div dir <$>
        List.filter (matches_manifest w) (Fs.node_name <$> cs)
  | _ => []
  end.

(** ** The record of [app/discovery.py] (four fields) *)

Module DiscoveryModel.

Inductive Source : Type := steam | filesystem | manual.

Record DiscoveredApp : Type := mkDiscoveredApp {
  name : string;
  path : Fs.Path;
  source : Source;
  confidence : Z
}.

End DiscoveryModel.

(** ** [app/steam_discovery.py] *)

Module SteamDiscovery.

Import OsUtil.

Record SteamApp : Type := mkSteamApp {
  appid : Z;
  name : string;
  install_dir : Fs.Path
}.

Definition find_steam_root (w : World) : option Fs.Path :=
  match get_os w with
  | WINDOWS =>
      let path := mkpath w "C:/Program Files (x86)/Steam" in
      if path_exists w path then Some path else None
  | LINUX =>
      let path := Fs.div (Fs.div (home w) ".steam") "steam" in
      if path_exists w path then Some path else None
  | UNKNOWN => None
  end.

(** One iteration of the loop over the lines of [libraryfolders.vdf]. *)
Definition vdf_line (w : World) (libraries : list Fs.Path) (line : string)
  : result (list Fs.Path) :=
  let line := PyStr.strip line in
  if (4 <=? PyStr.count PyStr.dquote line)%nat then
    let parts := PyStr.split PyStr.dquote line in
    value ← getitem parts 3;
    let lib_path := mkpath w value in
    let steamapps := Fs.div lib_path "steamapps" in
    if path_exists w steamapps
    then Ok (libraries ++ [steamapps])%list
    else Ok libraries
  else Ok libraries.

(** [libraries] is filled in place inside the [try] and the handler
    of [OSError] passes: whether the iteration over the file ends at
    its end or in an [OSError], the list is returned as the lines
    delivered until then left it.  (In this model the loop body itself
    raises no [OSError].) *)
Definition parse_libraryfolders_vdf (w : World) (path : Fs.Path)
  : result (list Fs.Path) :=
  for_each (vdf_line w) (delivered w path) [].

Definition find_steam_libraries (w : World) : result (list Fs.Path) :=
  match find_steam_root w with
  | None => Ok []
  | Some steam_root =>
      let default := Fs.div steam_root "steamapps" in
      let libraries := if path_exists w default then [default] else [] in
      let vdf := Fs.div (Fs.div steam_root "steamapps")
                        "libraryfolders.vdf" in
      libraries ←
        (if path_exists w vdf
         then extra ← parse_libraryfolders_vdf w vdf;
              Ok (libraries ++ extra)%list
         else Ok libraries);
      Ok (elements (list_to_set (resolve w <$> libraries) : gset Fs.Path))
  end.

(** One iteration of the loop over the lines of a manifest. *)
Definition acf_line (data : gmap string string) (line : string)
  : result (gmap string string) :=
  let line := PyStr.strip line in
  if PyStr.is_empty line || PyStr.startswith "//" line then Ok data
  else if (4 <=? PyStr.count PyStr.dquote line)%nat then
    let parts := PyStr.split PyStr.dquote line in
    key ← getitem parts 1;
    value ← getitem parts 3;
    Ok (<[key := value]> data)
  else Ok data.

(** The loop of [parse_acf] over a text that was read. *)
Definition parse_acf_text (text : string) : result (gmap string string) :=
  for_each acf_line (PyStr.lines text) ∅.

(** [data] is filled in place inside the [try] and the handler of
    [OSError] passes: whether the iteration over the file ends at its
    end or in an [OSError], the mapping is returned as the lines
    delivered until then left it.  (The loop body itself raises no
    [OSError]: its only step that can fail is an index.) *)
Definition parse_acf (w : World) (path : Fs.Path)
  : result (gmap string string) :=
  for_each acf_line (delivered w path) ∅.

(** [int(manifest.stem.split("_")[1])] *)
Definition manifest_appid (manifest : Fs.Path) : result Z :=
  tok ← getitem (PyStr.split PyStr.underscore (Fs.stem manifest)) 1;
  PyStr.int_of_str tok.

(** The body of the loop over the manifests of one library: [None] is
    the [continue] of the [except (IndexError, ValueError)] clause. *)
Definition manifest_app (w : World) (steamapps manifest : Fs.Path)
  : result (option SteamApp) :=
  match manifest_appid manifest with
  | Raise IndexError | Raise ValueError => Ok None
  | Raise e => Raise e
  | Ok appid =>
      acf ← parse_acf w manifest;
      let name := default ("Steam App " +:+ PyStr.str_of_int appid)
                          (acf !! "name") in
      let installdir := acf !! "installdir" in
      let install_path :=
        match installdir with
        | Some d =>
            if PyStr.is_empty d then steamapps
            else Fs.joinpath (is_windows w) (Fs.div steamapps "common") d
        | None => steamapps
        end in
      Ok (Some (mkSteamApp appid name install_path))
  end.

Definition library_apps (w : World) (apps : list SteamApp)
  (steamapps : Fs.Path) : result (list SteamApp) :=
  for_each
    (fun apps manifest =>
       r ← manifest_app w steamapps manifest;
       Ok (match r with
           | Some app => apps ++ [app]
           | None => apps
           end)%list)
    (glob_manifests w steamapps) apps.

Definition find_installed_steam_apps (w : World) : result (list SteamApp) :=
  libraries ← find_steam_libraries w;
  match libraries with
  | [] => Ok []
  | _ => for_each (library_apps w) libraries []
  end.

Definition steam_apps_to_discovered (w : World) (apps : list SteamApp)
  : list DiscoveryModel.DiscoveredApp :=
  (fun app =>
     DiscoveryModel.mkDiscoveredApp
       (name app)
       (mkpath w ("steam://run/" +:+ PyStr.str_of_int (appid app)))
       DiscoveryModel.steam
       60) <$> apps.

End SteamDiscovery.

(** ** Directory traversal *)

Module Walk.

Definition dirnames (cs : list Fs.node) : list string :=
  Fs.node_name <$> List.filter Fs.is_dir cs.

Definition filenames (cs : list Fs.node) : list string :=
  Fs.node_name <$> List.filter (fun c => negb (Fs.is_dir c)) cs.

Definition mem (x : string) (l : list string) : bool :=
  existsb (String.eqb x) l.

(** [os.walk(top)], top-down.  Each directory yields
    [(dirpath, dirnames, filenames)]; the consumer may then update the
    yielded [dirnames] list in place, and the walk only descends into
    the names that are left.  [upd dirpath dirnames] is that in-place
    update; the triple carries the list as the consumer left it.
    Errors of the directory scan are ignored by [os.walk], and a [top]
    that is no directory yields nothing. *)
Fixpoint os_walk (upd : Fs.Path -> list string -> list string)
  (dirpath : Fs.Path) (n : Fs.node)
  : list (Fs.Path * list string * list string) :=
  match n with
  | Fs.File _ _ _ => []
  | Fs.Dir _ cs =>
      let kept := upd dirpath (dirnames cs) in
      (dirpath, kept, filenames cs)
      :: flat_map
           (fun c =>
              if Fs.is_dir c && mem (Fs.node_name c) kept
              then os_walk upd (Fs.div dirpath (Fs.node_name c)) c
              else [])
           cs
  end.

(** [root.rglob("*")]: every entry below [root], with its node. *)
Fixpoint rglob (dirpath : Fs.Path) (n : Fs.node)
  : list (Fs.Path * Fs.node) :=
  match n with
  | Fs.File _ _ _ => []
  | Fs.Dir _ cs =>
      flat_map
        (fun c =>
           let p := Fs.div dirpath (Fs.node_name c) in
           (p, c) :: rglob p c)
        cs
  end.

(** [p.relative_to(root).parts]; [ValueError] when [p] is not below
    [root]. *)
Fixpoint strip_prefix (pre l : list string) : option (list string) :=
  match pre, l with
  | [], _ => Some l
  | a :: pre', b :: l' =>
      if String.eqb a b then strip_prefix pre' l' else None
  | _ :: _, [] => None
  end.

Definition relative_to (p root : Fs.Path) : result (list string) :=
  if Bool.eqb (Fs.anchored p) (Fs.anchored root) then
    match strip_prefix (Fs.parts root) (Fs.parts p) with
    | Some rel => Ok rel
    | None => Raise ValueError
    end
  else Raise ValueError.

End Walk.

(** The entries [root.rglob("*")] and [os.walk(root)] see in world [w]. *)
Definition rglob_at (w : World) (root : Fs.Path) : list (Fs.Path * Fs.node) :=
  match stat w root with
  | Some n => Walk.rglob root n
  | None => []
  end.

Definition os_walk_at (w : World)
  (upd : Fs.Path -> list string -> list string) (root : Fs.Path)
  : list (Fs.Path * list string * list string) :=
  match stat w root with
  | Some n => Walk.os_walk upd root n
  | None => []
  end.

(** ** [app/discovery.py] *)

Module Discovery.

Import OsUtil DiscoveryModel.

Definition LAUNCHABLE_EXTENSIONS : list string :=
  [".exe"; ".bat"; ".cmd"; ".ps1"; ".py"].

Definition EXCLUDED_DIR_NAMES : list string :=
  ["windows"; ".venv"; "node_modules"; "__pycache__"; ".git"; ".idea";
   "temp"; "tmp"; "videos"; "pictures"; "music"; "gallery"].

Definition filesystem_search_roots (w : World) : list Fs.Path :=
  let env k := mkpath w (default EmptyString (environ_get w k)) in
  let roots :=
    [home w; env "ProgramFiles"; env "ProgramFiles(x86)";
     env "LOCALAPPDATA"; env "PROGRAMDATA"] in
  List.filter (path_exists w) roots.

Definition should_skip_dir (path : Fs.Path) (include_documents : bool)
  : bool :=
  let name := PyStr.lower (Fs.name path) in
  if Walk.mem name EXCLUDED_DIR_NAMES then true
  else if negb include_documents && String.eqb name "documents" then true
  else existsb
         (fun part => Walk.mem (PyStr.lower part) [".venv"; "node_modules"])
         (Fs.parts path).

(** The body of the loop over [root.rglob("*")]: the app to append, or
    [None] for [continue]. *)
Definition fs_candidate (root : Fs.Path) (include_documents : bool)
  (max_depth : Z) (entry : Fs.Path * Fs.node) : option DiscoveredApp :=
  let '(path, n) := entry in
  match Walk.relative_to path root with
  | Raise _ => None
  | Ok rel =>
      let relative_depth := Z.of_nat (length rel) in
      if max_depth <? relative_depth then None
      else if Fs.is_dir n then
        (if should_skip_dir path include_documents then None else None)
      else if negb (Walk.mem (PyStr.lower (Fs.suffix path))
                             LAUNCHABLE_EXTENSIONS) then None
      else Some (mkDiscoveredApp (Fs.stem path) path filesystem 40)
  end.

Definition discover_filesystem_apps (w : World) (include_documents : bool)
  (max_depth : Z) : list DiscoveredApp :=
  flat_map
    (fun root =>
       omap (fs_candidate root include_documents max_depth)
            (rglob_at w root))
    (filesystem_search_roots w).

Section Allowlist.
(** The allow-list the membership test [appid in ...] of
    [filter_related_apps] consults; the source names it [STEAMAPPS]
    in its docstrings but does not define it. *)
Variable STEAMAPPS : gset Z.

Definition is_related (w : World) (app : DiscoveredApp) : bool :=
  match source app with
  | steam =>
      let path_str := path_str w (path app) in
      if negb (PyStr.startswith "steam://run/" path_str) then false
      else
        match PyStr.int_of_str
                (PyStr.removeprefix "steam://run/" path_str) with
        | Raise _ => false
        | Ok appid => bool_decide (appid ∈ STEAMAPPS)
        end
  | _ => false
  end.

Definition filter_related_apps (w : World) (apps : list DiscoveredApp)
  : list DiscoveredApp :=
  List.filter (is_related w) apps.

Definition discover_steam_apps (w : World) (authoritative : bool)
  : result (list DiscoveredApp) :=
  steam_apps ← SteamDiscovery.find_installed_steam_apps w;
  let discovered := SteamDiscovery.steam_apps_to_discovered w steam_apps in
  if authoritative then Ok (filter_related_apps w discovered)
  else Ok discovered.

Definition discover_apps (w : World) (include_documents : bool)
  (authoritative_steam : bool) : result (list DiscoveredApp) :=
  steam ← discover_steam_apps w authoritative_steam;
  Ok (steam ++ discover_filesystem_apps w include_documents 6)%list.

End Allowlist.

End Discovery.

(** ** The record of [app/types/uvrlapp.py] (two fields) *)

Module Types.

Record DiscoveredApp : Type := mkDiscoveredApp {
  name : string;
  path : Fs.Path
}.

End Types.

(** ** JSON values, as [json.loads] returns them *)

Module Json.

Local Unset Elimination Schemes.
Inductive json : Type :=
| JNull
| JBool (b : bool)
| JNum (z : Z)
| JStr (s : string)
| JArr (items : list json)
| JObj (fields : list (string * json)).
Local Set Elimination Schemes.

Fixpoint assoc (k : string) (fields : list (string * json)) : option json :=
  match fields with
  | [] => None
  | (k', v) :: fields' =>
      if String.eqb k' k then Some v else assoc k fields'
  end.

(** [data.get(k, {})]; only a [dict] has a [get]. *)
Definition get_or_empty (data : json) (k : string) : result json :=
  match data with
  | JObj fields => Ok (default (JObj []) (assoc k fields))
  | _ => Raise AttributeError
  end.

Definition is_str (s : string) (v : json) : bool :=
  match v with JStr t => String.eqb t s | _ => false end.

(** [s in container] for a string [s] *)
Definition contains (s : string) (container : json) : result bool :=
  match container with
  | JObj fields => Ok (existsb (fun kv => String.eqb (fst kv) s) fields)
  | JArr items => Ok (existsb (is_str s) items)
  | JStr t => Ok (PyStr.contains s t)
  | _ => Raise TypeError
  end.

End Json.

(** ** [app/discovery/applist_manager.py] *)

Module ApplistManager.

Import OsUtil Types.

Definition LAUNCHABLE_EXTENSIONS : list string :=
  [".exe"; ".bat"; ".cmd"; ".ps1"; ".py"; ".sh"].

(** [platform_env_var] is assigned in the Linux and in the Windows
    branch only; reading it on any other system raises. *)
Definition filesystem_search_roots (w : World) : result (list Fs.Path) :=
  platform_env_var ←
    match get_os w with
    | LINUX => Ok ["UVRL_APPS"]
    | WINDOWS =>
        Ok ["HOME"; "UVRL_APPS"; "ProgramFiles"; "ProgamFiles(x86)";
            "LOCALAPPDATA"; "PROGAMDATA"]
    | UNKNOWN => Raise UnboundLocalError
    end;
  let roots := mkpath w <$> omap (get_env w) platform_env_var in
  Ok (List.filter (path_exists w) roots).

Definition fs_candidate (root : Fs.Path) (max_depth : Z)
  (entry : Fs.Path * Fs.node) : option DiscoveredApp :=
  let '(path, n) := entry in
  match Walk.relative_to path root with
  | Raise _ => None
  | Ok rel =>
      let relative_depth := Z.of_nat (length rel) in
      if max_depth <? relative_depth then None
      else if Fs.is_dir n then None
      else if negb (Walk.mem (PyStr.lower (Fs.suffix path))
                             LAUNCHABLE_EXTENSIONS) then None
      else Some (mkDiscoveredApp (Fs.stem path) path)
  end.

(** The roots are computed twice: once to be printed, once to be
    walked. *)
Definition discover_filesystem_apps (w : World) (max_depth : Z)
  : result (list DiscoveredApp) :=
  _ ← filesystem_search_roots w;
  roots ← filesystem_search_roots w;
  Ok (flat_map
        (fun root => omap (fs_candidate root max_depth) (rglob_at w root))
        roots).

(** [steam_apps_to_discovered] is imported from
    [app.discovery.steam_discovery]; its apps are kept here with the
    two fields this module's record has. *)
Definition discover_steam_apps (w : World) : result (list DiscoveredApp) :=
  steam_apps ← SteamDiscovery.find_installed_steam_apps w;
  Ok ((fun a => mkDiscoveredApp (DiscoveryModel.name a)
                                (DiscoveryModel.path a))
        <$> SteamDiscovery.steam_apps_to_discovered w steam_apps).

Definition discover_apps (w : World) : result (list DiscoveredApp) :=
  steam ← discover_steam_apps w;
  fs ← discover_filesystem_apps w 3;
  Ok (steam ++ fs)%list.

(** [get_default_config().app_list_config_path] *)
Definition app_list_config_path (w : World) : Fs.Path :=
  mkpath w "./assets/config/applist.json".

(** [read_file_as_text]: no handler around the read. *)
Definition read_file_as_text (w : World) (path : Fs.Path) : result string :=
  open_read w path.

Section Loads.
(** [json.loads], which raises on a text that is no JSON document. *)
Variable json_loads : string -> result Json.json.

Definition json_to_dict (data : string) : result Json.json :=
  json_loads data.

(** The body of the loop of [filter_steam_apps]. *)
Definition keep_app (w : World) (steam_apps : Json.json)
  (related : list DiscoveredApp) (app : DiscoveredApp)
  : result (list DiscoveredApp) :=
  let path_str := path_str w (path app) in
  if negb (PyStr.startswith "steam://run/" path_str) then Ok related
  else
    match PyStr.int_of_str
            (PyStr.removeprefix "steam://run/" path_str) with
    | Raise ValueError => Ok related
    | Raise e => Raise e
    | Ok appid =>
        listed ← Json.contains (PyStr.str_of_int appid) steam_apps;
        Ok (if (listed : bool) then related ++ [app] else related)%list
    end.

Definition filter_steam_apps (w : World) (apps : list DiscoveredApp)
  : result (list DiscoveredApp) :=
  let applist_path := app_list_config_path w in
  text ← read_file_as_text w applist_path;
  applist_data ← json_to_dict text;
  steam_apps ← Json.get_or_empty applist_data "steam_apps";
  for_each (keep_app w steam_apps) apps [].

End Loads.

End ApplistManager.

(** ** [hi.py] *)

Module Hi.

Import OsUtil Types.

(** One entry of the [roots] list of the configuration; a key the
    dictionary lacks is [None]. *)
Record RootSpec : Type := mkRootSpec {
  rs_path : string;
  rs_enabled : option bool;
  rs_recursive : option bool;
  rs_max_depth : option Z;
  rs_label : option string
}.

Definition DEFAULT_EXCLUDED_DIR_NAMES : list string :=
  ["windows"; ".venv"; "node_modules"; "__pycache__"; ".git"; ".idea";
   "temp"; "tmp"; "videos"; "pictures"; "music"; "gallery"].

(** [p.expanduser()] *)
Definition expanduser (w : World) (p : Fs.Path) : Fs.Path :=
  match p with
  | (false, first :: rest) =>
      if String.eqb first "~"
      then (Fs.anchored (home w), (Fs.parts (home w) ++ rest)%list)
      else p
  | _ => p
  end.

Definition _is_linux_executable (w : World) (path : Fs.Path) : bool :=
  match stat w path with
  | Some (Fs.File _ _ xbit) => xbit
  | _ => false
  end.

(** The effective bound of a root: [max_depth], or 1 when the root is
    not recursive. *)
Definition effective_depth (r : RootSpec) : Z :=
  let max_depth := default 3 (rs_max_depth r) in
  let recursive := default true (rs_recursive r) in
  if negb recursive then 1 else max_depth.

(** What the loop body does to the yielded [dirnames]. *)
Definition prune (root : Fs.Path) (max_depth : Z)
  (excluded_dir_names : gset string)
  (dp : Fs.Path) (dirnames : list string) : list string :=
  match Walk.relative_to dp root with
  | Raise _ => dirnames
  | Ok rel =>
      let depth := Z.of_nat (length rel) in
      let dirnames :=
        List.filter
          (fun d => negb (bool_decide (PyStr.lower d ∈ excluded_dir_names)))
          dirnames in
      if max_depth <=? depth then [] else dirnames
  end.

(** The test of the innermost loop: is [p] kept? *)
Definition launchable (w : World) (p : Fs.Path) : bool :=
  let exts := executable_extensions w in
  let by_ext := Walk.mem (PyStr.lower (Fs.suffix p)) exts in
  match get_os w with
  | WINDOWS => by_ext
  | LINUX => by_ext || _is_linux_executable w p
  | UNKNOWN => by_ext
  end.

(** The apps appended while visiting one yielded directory. *)
Definition visit (w : World) (root : Fs.Path)
  (y : Fs.Path * list string * list string) : list DiscoveredApp :=
  let '(dp, _, filenames) := y in
  match Walk.relative_to dp root with
  | Raise _ => []
  | Ok _ =>
      omap (fun fn =>
              let p := Fs.div dp fn in
              if launchable w p
              then Some (mkDiscoveredApp (Fs.stem p) p)
              else None)
           filenames
  end.

(** [Path(r["path"]).expanduser()] *)
Definition root_path (w : World) (r : RootSpec) : Fs.Path :=
  expanduser w (mkpath w (rs_path r)).

(** The body of the loop over the configured roots. *)
Definition walk_root (w : World) (excluded_dir_names : gset string)
  (r : RootSpec) : list DiscoveredApp :=
  if negb (default false (rs_enabled r)) then []
  else
    let root := root_path w r in
    if negb (path_exists w root) then []
    else
      let max_depth := effective_depth r in
      flat_map (visit w root)
               (os_walk_at w (prune root max_depth excluded_dir_names) root).

Definition discover_filesystem_apps_optin (w : World)
  (roots : list RootSpec) (excluded_dir_names : gset string)
  : list DiscoveredApp :=
  flat_map (walk_root w excluded_dir_names) roots.

End Hi.

(** ** The manifest format, in the words of the specification *)

Module ManifestSpec.

(** A stripped line is a candidate key/value pair when it is not
    blank, does not start with the comment marker and holds at least
    four quote characters. *)
Definition is_candidate (line : string) : bool :=
  let s := PyStr.strip line in
  negb (PyStr.is_empty s)
  && negb (PyStr.startswith "//" s)
  && (4 <=? PyStr.count PyStr.dquote s)%nat.

(** The [i]-th token of the quote-split stripped line (counted from 0) *)
Definition token (i : nat) (line : string) : string :=
  nth i (PyStr.split PyStr.dquote (PyStr.strip line)) EmptyString.

Definition key_of (line : string) : string := token 1 line.
Definition value_of (line : string) : string := token 3 line.

(** What one line contributes to the mapping. *)
Definition contribute (data : gmap string string) (line : string)
  : gmap string string :=
  if is_candidate line then <[key_of line := value_of line]> data
  else data.

(** The mapping read off a text: the candidate lines, in order, each
    giving one entry. *)
Definition parse (text : string) : gmap string string :=
  foldl (fun data line => <[key_of line := value_of line]> data) ∅
        (List.filter is_candidate (PyStr.lines text)).

(** The same for lines that are given one by one. *)
Definition of_lines (ls : list string) : gmap string string :=
  foldl (fun data line => <[key_of line := value_of line]> data) ∅
        (List.filter is_candidate ls).

End ManifestSpec.

(** ** Directories a pruned walk can reach *)

Module WalkSpec.

(** [reach excluded n rel n']: following the directory names [rel]
    from [n] leads to [n'], and no name on the way is excluded
    (compared in lower case). *)
Inductive reach (excluded : gset string)
  : Fs.node -> list string -> Fs.node -> Prop :=
| reach_here n : reach excluded n [] n
| reach_down nm cs c rel n' :
    c ∈ cs ->
    Fs.is_dir c = true ->
    PyStr.lower (Fs.node_name c) ∉ excluded ->
    reach excluded c rel n' ->
    reach excluded (Fs.Dir nm cs) (Fs.node_name c :: rel) n'.

End WalkSpec.

(** ** The manifest scanner as a list comprehension *)

Module ScanSpec.

(** What the loop body of [find_installed_steam_apps] appends for one
    manifest. *)
Definition scan_manifest (w : World) (steamapps manifest : Fs.Path)
  : option SteamDiscovery.SteamApp :=
  match SteamDiscovery.manifest_app w steamapps manifest with
  | Ok r => r
  | Raise _ => None
  end.

Definition manifest_apps (w : World) (steamapps : Fs.Path)
  : list SteamDiscovery.SteamApp :=
  flat_map (fun manifest => option_list (scan_manifest w steamapps manifest))
           (glob_manifests w steamapps).

End ScanSpec.

(** ** Concrete worlds *)

Module Examples.

Definition quoted (s : string) : string :=
  String PyStr.dquote (s +:+ String PyStr.dquote EmptyString).
Definition nl : string := String "010"%char EmptyString.
Definition tab : string := String "009"%char EmptyString.

Definition file (nm text : string) : Fs.node :=
  Fs.File nm (Fs.Text text) false.
Definition empty_file (nm : string) : Fs.node := file nm EmptyString.

(** A Linux home with one Steam library holding the given entries. *)
Definition steam_home (steamapps : list Fs.node) : Fs.node :=
  Fs.Dir "/"
    [Fs.Dir "home"
       [Fs.Dir "u"
          [Fs.Dir ".steam" [Fs.Dir "steam" [Fs.Dir "steamapps" steamapps]]]]].

Definition linux_world (tree : Fs.node) : World :=
  mkWorld "Linux" ∅ (true, ["home"; "u"]) ["home"; "u"] tree (fun p => p).

Definition steamapps_dir : Fs.Path :=
  (true, ["home"; "u"; ".steam"; "steam"; "steamapps"]).

(** A manifest without a [name] line. *)
Definition nameless_manifest : string :=
  quoted "appid" +:+ tab +:+ quoted "220" +:+ nl
  +:+ quoted "installdir" +:+ tab +:+ quoted "hl2" +:+ nl.

Definition world_nameless : World :=
  linux_world (steam_home [file "appmanifest_220.acf" nameless_manifest]).

(** A library whose manifest of app 7 cannot be read to its end: the
    read delivers the [name] line and then fails. *)
Definition interrupted_manifest : Fs.node :=
  Fs.File "appmanifest_7.acf"
    (Fs.Fails [quoted "name" +:+ tab +:+ quoted "Half-Life 2" +:+ nl]) false.

Definition world_interrupted : World :=
  linux_world (steam_home [interrupted_manifest]).

(** The same library when the manifest cannot even be opened. *)
Definition world_unopened : World :=
  linux_world (steam_home [Fs.File "appmanifest_7.acf" (Fs.Fails []) false]).

(** A manifest whose [name] line has an empty value. *)
Definition blank_name_manifest : string :=
  quoted "name" +:+ tab +:+ quoted EmptyString +:+ nl.

Definition world_blank_name : World :=
  linux_world (steam_home [file "appmanifest_220.acf" blank_name_manifest]).


(** A library list naming the default library twice more, once
    through a symbolic link. *)
Definition vdf_text : string :=
  quoted "1" +:+ tab +:+ quoted "/home/u/.steam/steam" +:+ nl
  +:+ quoted "2" +:+ tab +:+ quoted "/home/u/link" +:+ nl.

Definition resolve_link (p : Fs.Path) : Fs.Path :=
  match p with
  | (true, first :: second :: third :: rest) =>
      if String.eqb third "link"
      then (true, [first; second; ".steam"; "steam"] ++ rest)%list
      else p
  | _ => p
  end.

Definition world_linked : World :=
  mkWorld "Linux" ∅ (true, ["home"; "u"]) ["home"; "u"]
    (Fs.Dir "/"
       [Fs.Dir "home"
          [Fs.Dir "u"
             [Fs.Dir ".steam"
                [Fs.Dir "steam"
                   [Fs.Dir "steamapps" [file "libraryfolders.vdf" vdf_text]]];
              Fs.Dir "link"
                [Fs.Dir "steamapps" [file "libraryfolders.vdf" vdf_text]]]]])
    resolve_link.

(** The scan root of the depth scenario: [R/a.exe], [R/x/m.exe],
    [R/x/y/b.exe], [R/x/y/z/c.exe] and [R/.git/h.py]. *)
Definition scan_y : Fs.node :=
  Fs.Dir "y" [empty_file "b.exe"; Fs.Dir "z" [empty_file "c.exe"]].
Definition scan_x : Fs.node := Fs.Dir "x" [empty_file "m.exe"; scan_y].
Definition scan_R : Fs.node :=
  Fs.Dir "R" [empty_file "a.exe"; scan_x; Fs.Dir ".git" [empty_file "h.py"]].
Definition scan_tree : Fs.node := Fs.Dir "/" [scan_R].

Definition world_windows : World :=
  mkWorld "Windows" ∅ (true, ["Users"; "u"]) [] scan_tree (fun p => p).

(** A system that is neither Windows nor Linux, without an allow-list
    file. *)
Definition world_darwin : World :=
  mkWorld "Darwin" ∅ (true, ["Users"; "u"]) [] scan_tree (fun p => p).

Definition scan_root : Fs.Path := (true, ["R"]).

Definition root_spec (recursive : bool) (max_depth : Z) : Hi.RootSpec :=
  Hi.mkRootSpec "/R" (Some true) (Some recursive) (Some max_depth) None.

End Examples.

(** ** [app/sensor.py] *)

Module Sensor.

Inductive SensorState : Type := CLEAR | BLOCKED.

(** A [SensorStub] is its [state] attribute. *)
Definition SensorStub : Type := SensorState.

(** [SensorStub()] *)
Definition new : SensorStub := CLEAR.

Definition read (self : SensorStub) : SensorState := self.

Definition toggle (self : SensorStub) : SensorStub :=
  match self with
  | CLEAR => BLOCKED
  | BLOCKED => CLEAR
  end.

Definition state_eqb (a b : SensorState) : bool :=
  match a, b with
  | CLEAR, CLEAR | BLOCKED, BLOCKED => true
  | _, _ => false
  end.

End Sensor.

(** ** [app/utils/state.py] and [app/utils/enums/vrstates.py] *)

Module State.

Import Sensor.

Inductive VRState : Type := OUTSIDE_VR | INSIDE_VR | ENTERING_VR | EXITING_VR.

Record StateMachine : Type := mkStateMachine {
  vr_state : VRState;
  _last_sensor_state : option SensorState
}.

(** [StateMachine()] *)
Definition new : StateMachine := mkStateMachine OUTSIDE_VR None.

Definition _handle_transition (self : StateMachine) (prev curr : SensorState)
  : StateMachine :=
  match prev, curr with
  | CLEAR, BLOCKED => mkStateMachine INSIDE_VR (_last_sensor_state self)
  | BLOCKED, CLEAR => mkStateMachine OUTSIDE_VR (_last_sensor_state self)
  | _, _ => self
  end.

Definition update (self : StateMachine) (sensor_state : SensorState)
  : StateMachine :=
  match _last_sensor_state self with
  | None => mkStateMachine (vr_state self) (Some sensor_state)
  | Some last =>
      if negb (state_eqb sensor_state last) then
        let self := _handle_transition self last sensor_state in
        mkStateMachine (vr_state self) (Some sensor_state)
      else self
  end.

(** The machine after a sequence of readings, oldest first. *)
Definition run (readings : list SensorState) : StateMachine :=
  foldl update new readings.

(** One round of the loop of [cmd_sensor_test] (and of [main.py]): the
    sensor is toggled, then read, and the machine is updated. *)
Definition press (s : SensorStub * StateMachine) : SensorStub * StateMachine :=
  let sensor := toggle (fst s) in
  (sensor, update (snd s) (read sensor)).

Fixpoint presses (n : nat) (s : SensorStub * StateMachine)
  : SensorStub * StateMachine :=
  match n with
  | O => s
  | S n' => presses n' (press s)
  end.

End State.

(** ** [hi.py]: the configuration and the commands *)

Module HiCli.

Import OsUtil.

(** The configuration document: a JSON object with the three keys the
    code reads, each of which may be absent, and with values of the
    types that [default_roots] and the commands write.  A document of
    another shape, on which the commands raise [KeyError], [TypeError]
    or [AttributeError], is outside this model, and so is a directory
    that may not be searched, on which [exists()] raises
    [PermissionError]. *)
Record Config : Type := mkConfig {
  cfg_roots : option (list Hi.RootSpec);
  cfg_exclude_dir_names : option (list string);
  cfg_steam_enabled : option bool
}.

(** The file at [config_path()]: absent, not loadable (unreadable or no
    JSON), or holding a document.  It is kept apart from the tree the
    walks see. *)
Inductive ConfigFile : Type :=
| Missing
| Unparsable
| Document (cfg : Config).

Record Store : Type := mkStore {
  config_file : ConfigFile;
  writable : bool
}.

(** [v] when [v] is a non-empty string ([if v:]) *)
Definition truthy (v : option string) : option string :=
  match v with
  | Some s => if PyStr.is_empty s then None else Some s
  | None => None
  end.

Definition root_entry (path : string) (enabled : bool) (max_depth : Z)
  (label : string) : Hi.RootSpec :=
  Hi.mkRootSpec path (Some enabled) (Some true) (Some max_depth) (Some label).

Definition env_root (w : World) (var : string) (enabled : bool)
  (max_depth : Z) (label : string) : list Hi.RootSpec :=
  match truthy (environ_get w var) with
  | Some v => [root_entry v enabled max_depth label]
  | None => []
  end.

Definition default_roots (w : World) : list Hi.RootSpec :=
  let roots :=
    match get_os w with
    | WINDOWS =>
        let home := path_str w (home w) in
        let under name := path_str w (Fs.div (mkpath w home) name) in
        (env_root w "ProgramFiles" true 5 "Program Files"
         ++ env_root w "ProgramFiles(x86)" true 5 "Program Files (x86)"
         ++ env_root w "LOCALAPPDATA" false 4 "LocalAppData"
         ++ env_root w "ProgramData" false 4 "ProgramData"
         ++ [root_entry (under "Desktop") false 3 "Desktop";
             root_entry (under "Downloads") false 3 "Downloads";
             root_entry (under "Documents") false 3 "Documents"])%list
    | _ =>
        let home := home w in
        [root_entry (path_str w (Fs.div home "Games")) false 6 "Games";
         root_entry (path_str w (Fs.div (Fs.div home ".local") "bin"))
                    false 2 "~/.local/bin";
         root_entry (path_str w (Fs.div home "Downloads")) false 3 "Downloads"]
    end in
  List.filter (fun r => path_exists w (mkpath w (Hi.rs_path r))) roots.

(** [sorted(DEFAULT_EXCLUDED_DIR_NAMES)] *)
Definition sorted_default_excluded : list string :=
  merge_sort String.le Hi.DEFAULT_EXCLUDED_DIR_NAMES.

Definition default_config (w : World) : Config :=
  mkConfig (Some (default_roots w)) (Some sorted_default_excluded) (Some true).

Definition load_config (w : World) (st : Store) : Config :=
  match config_file st with
  | Missing => default_config w
  | Unparsable => default_config w
  | Document cfg => cfg
  end.

(** Writing the document; an unwritable location raises. *)
Definition save_config (st : Store) (cfg : Config) : result Store :=
  if writable st then Ok (mkStore (Document cfg) (writable st))
  else Raise OSError.

Definition _normalize_path (w : World) (s : string) : string :=
  path_str w (resolve w (Hi.expanduser w (mkpath w s))).

(** [_normalize_path(r["path"]) == target] *)
Definition same_root (w : World) (target : string) (r : Hi.RootSpec) : bool :=
  String.eqb (_normalize_path w (Hi.rs_path r)) target.

(** [cfg["roots"] = roots] *)
Definition set_roots (cfg : Config) (roots : list Hi.RootSpec) : Config :=
  mkConfig (Some roots) (cfg_exclude_dir_names cfg) (cfg_steam_enabled cfg).

(** [r["enabled"] = enabled] *)
Definition set_enabled (r : Hi.RootSpec) (enabled : bool) : Hi.RootSpec :=
  Hi.mkRootSpec (Hi.rs_path r) (Some enabled) (Hi.rs_recursive r)
                (Hi.rs_max_depth r) (Hi.rs_label r).

(** The commands return their exit status ([None] for a function that
    ends without [return]) and the store they leave; what they print is
    not modelled. *)
Definition cmd_roots_list (w : World) (st : Store)
  : result (option Z * Store) :=
  Ok (Some 0, st).

Definition cmd_roots_add (w : World) (st : Store) (path label : string)
  (max_depth : Z) (enable disable : bool) : result (option Z * Store) :=
  let cfg := load_config w st in
  let roots := default [] (cfg_roots cfg) in
  let p := _normalize_path w path in
  if existsb (same_root w p) roots then Ok (Some 0, st)
  else
    let roots :=
      (roots ++
       [Hi.mkRootSpec p
          (Some (if enable then true else if disable then false else true))
          (Some true) (Some max_depth)
          (Some (if PyStr.is_empty label then "Custom" else label))])%list in
    st' ← save_config st (set_roots cfg roots);
    Ok (Some 0, st').

Definition cmd_roots_enable_disable (w : World) (st : Store) (path : string)
  (enabled : bool) : result (option Z * Store) :=
  let cfg := load_config w st in
  let roots := default [] (cfg_roots cfg) in
  let target := _normalize_path w path in
  let hit := existsb (same_root w target) roots in
  let roots :=
    (fun r => if same_root w target r then set_enabled r enabled else r)
      <$> roots in
  if negb hit then Ok (Some 1, st)
  else
    st' ← save_config st (set_roots cfg roots);
    Ok (Some 0, st').

Definition cmd_roots_remove (w : World) (st : Store) (path : string)
  : result (option Z * Store) :=
  let cfg := load_config w st in
  let roots := default [] (cfg_roots cfg) in
  let target := _normalize_path w path in
  let new_roots := List.filter (fun r => negb (same_root w target r)) roots in
  if (length new_roots =? length roots)%nat then Ok (Some 1, st)
  else
    st' ← save_config st (set_roots cfg new_roots);
    Ok (Some 0, st').

Definition cmd_roots_reset (w : World) (st : Store)
  : result (option Z * Store) :=
  st' ← save_config st (default_config w);
  Ok (Some 0, st').

(** The list [apps] that [cmd_discover] has built when it ends, for a
    document of the modelled shape (see [Config]). *)
Definition cmd_discover_apps (w : World) (st : Store)
  (steam no_steam no_filesystem : bool) : result (list Types.DiscoveredApp) :=
  let cfg := load_config w st in
  let excluded : gset string :=
    list_to_set (default [] (cfg_exclude_dir_names cfg)) in
  let roots := default [] (cfg_roots cfg) in
  let steam_enabled := default true (cfg_steam_enabled cfg) in
  let steam_enabled := if no_steam then false else steam_enabled in
  let steam_enabled := if steam then true else steam_enabled in
  let fs_enabled := negb no_filesystem in
  apps ←
    (if steam_enabled
     then steam_apps ← SteamDiscovery.find_installed_steam_apps w;
          Ok ((fun a => Types.mkDiscoveredApp (DiscoveryModel.name a)
                                              (DiscoveryModel.path a))
                <$> SteamDiscovery.steam_apps_to_discovered w steam_apps)
     else Ok []);
  Ok (if fs_enabled
      then apps ++ Hi.discover_filesystem_apps_optin w roots excluded
      else apps)%list.

(** [cmd_discover] has no [return] statement. *)
Definition cmd_discover (w : World) (st : Store)
  (steam no_steam no_filesystem : bool) : result (option Z * Store) :=
  _ ← cmd_discover_apps w st steam no_steam no_filesystem;
  Ok (None, st).

Definition cmd_steam_libs (w : World) (st : Store)
  : result (option Z * Store) :=
  _ ← SteamDiscovery.find_steam_libraries w;
  Ok (Some 0, st).

(** The parsed command line, without the interactive sensor test. *)
Inductive Command : Type :=
| RootsList
| RootsAdd (path label : string) (max_depth : Z) (enable disable : bool)
| RootsEnable (path : string)
| RootsDisable (path : string)
| RootsRemove (path : string)
| RootsReset
| Discover (json steam no_steam no_filesystem : bool)
| SteamLibs.

Definition run_command (w : World) (st : Store) (c : Command)
  : result (option Z * Store) :=
  match c with
  | RootsList => cmd_roots_list w st
  | RootsAdd path label max_depth enable disable =>
      cmd_roots_add w st path label max_depth enable disable
  | RootsEnable path => cmd_roots_enable_disable w st path true
  | RootsDisable path => cmd_roots_enable_disable w st path false
  | RootsRemove path => cmd_roots_remove w st path
  | RootsReset => cmd_roots_reset w st
  | Discover _ steam no_steam no_filesystem =>
      cmd_discover w st steam no_steam no_filesystem
  | SteamLibs => cmd_steam_libs w st
  end.

(** [return int(args.func(args))]: [int(None)] is a [TypeError]. *)
Definition main (w : World) (st : Store) (c : Command) : result (Z * Store) :=
  r ← run_command w st c;
  match fst r with
  | Some status => Ok (status, snd r)
  | None => Raise TypeError
  end.

End HiCli.

(** ** More concrete worlds *)

Module Scenarios.

(** [w] with the environment variable [var] set to [value]. *)
Definition with_env (w : World) (var value : string) : World :=
  mkWorld (platform_system w) (<[var := value]> (environ w)) (home w) (cwd w)
          (root w) (resolve w).

(** A Linux home with a Steam library holding the manifest of app 220,
    and an allow-list file below the working directory. *)
Definition allowlisted_tree : Fs.node :=
  Fs.Dir "/"
    [Fs.Dir "home"
       [Fs.Dir "u"
          [Fs.Dir ".steam"
             [Fs.Dir "steam"
                [Fs.Dir "steamapps"
                   [Examples.file "appmanifest_220.acf"
                      Examples.nameless_manifest]]];
           Fs.Dir "assets"
             [Fs.Dir "config" [Examples.file "applist.json" "{...}"]];
           Fs.Dir "apps"
             [Examples.empty_file "run.sh";
              Fs.Dir "tools" [Examples.empty_file "t.py"]]]]].

Definition world_allowlisted : World :=
  mkWorld "Linux" {["UVRL_APPS" := "/home/u/apps"]} (true, ["home"; "u"])
          ["home"; "u"] allowlisted_tree (fun p => p).

(** A [json.loads] whose document lists app 220. *)
Definition loads_220 (text : string) : result Json.json :=
  Ok (Json.JObj [("steam_apps", Json.JObj [("220", Json.JNull)])]).

Definition store_of (roots : list Hi.RootSpec) : HiCli.Store :=
  HiCli.mkStore
    (HiCli.Document (HiCli.mkConfig (Some roots) (Some []) (Some true))) true.


(** A Linux home with a [Games] and a [Downloads] directory, each
    holding a script. *)
Definition games_tree : Fs.node :=
  Fs.Dir "/"
    [Fs.Dir "home"
       [Fs.Dir "u"
          [Fs.Dir "Games" [Examples.empty_file "doom.sh"];
           Fs.Dir "Downloads" [Examples.empty_file "setup.py"]]]].

Definition world_games : World := Examples.linux_world games_tree.

(** A Windows machine whose drive [C:] holds the Steam root, with the
    manifest of app 220 in its library. *)
Definition drive_c : string := "C:" +:+ Fs.bs.

Definition windows_steam_tree : Fs.node :=
  Fs.Dir "/"
    [Fs.Dir drive_c
       [Fs.Dir "Program Files (x86)"
          [Fs.Dir "Steam"
             [Fs.Dir "steamapps"
                [Examples.file "appmanifest_220.acf"
                   Examples.nameless_manifest]]]]].

Definition world_windows_steam : World :=
  mkWorld "Windows" ∅ (true, [drive_c; "Users"; "u"]) [drive_c; "Users"; "u"]
          windows_steam_tree (fun p => p).

Definition windows_steamapps : Fs.Path :=
  (true, [drive_c; "Program Files (x86)"; "Steam"; "steamapps"]).

End Scenarios.

(** * Properties *)

(** ** Strings and the error monad *)

Lemma split_by_length sep s :
  length (PyStr.split_by sep s) = S (PyStr.count_by sep s).
Proof.
  induction s as [|a s IH]; simpl; [done|].
  destruct (sep a); simpl; [by rewrite IH|].
  destruct (PyStr.split_by sep s); simpl in *; lia.
Qed.

Lemma getitem_lt {A} (l : list A) (i : nat) (d : A) :
  (i < length l)%nat → getitem l i = Ok (nth i l d).
Proof.
  intros Hi. unfold getitem.
  destruct (nth_error l i) as [a|] eqn:E.
  - by rewrite (nth_error_nth _ _ d E).
  - apply nth_error_None in E. lia.
Qed.

Lemma for_each_pure {A S} (body : S → A → result S) (f : S → A → S) :
  (∀ s x, body s x = Ok (f s x)) →
  ∀ xs s, for_each body xs s = Ok (foldl f s xs).
Proof.
  intros Hbody xs. induction xs as [|x xs IH]; intros s; simpl; [done|].
  rewrite Hbody. simpl. apply IH.
Qed.

Lemma foldl_filter {A S} (p : A → bool) (f : S → A → S) xs :
  ∀ s, foldl (fun s x => if p x then f s x else s) s xs
       = foldl f s (List.filter p xs).
Proof.
  induction xs as [|x xs IH]; intros s; simpl; [done|].
  destruct (p x); simpl; apply IH.
Qed.

(** ** The manifest parser *)

Lemma acf_line_contribute data line :
  SteamDiscovery.acf_line data line = Ok (ManifestSpec.contribute data line).
Proof.
  unfold SteamDiscovery.acf_line, ManifestSpec.contribute,
    ManifestSpec.is_candidate, ManifestSpec.key_of, ManifestSpec.value_of,
    ManifestSpec.token.
  set (s := PyStr.strip line).
  destruct (PyStr.is_empty s), (PyStr.startswith "//" s),
    (4 <=? PyStr.count PyStr.dquote s)%nat eqn:Hq;
    cbn [orb negb andb]; try done.
  apply Nat.leb_le in Hq.
  assert (Hlen : length (PyStr.split PyStr.dquote s)
                 = S (PyStr.count PyStr.dquote s))
    by apply split_by_length.
  rewrite (getitem_lt _ 1 EmptyString) by lia.
  rewrite (getitem_lt _ 3 EmptyString) by lia.
  done.
Qed.

Lemma parse_acf_text_spec text :
  SteamDiscovery.parse_acf_text text = Ok (ManifestSpec.parse text).
Proof.
  unfold SteamDiscovery.parse_acf_text, ManifestSpec.parse.
  rewrite (for_each_pure _ ManifestSpec.contribute)
    by apply acf_line_contribute.
  unfold ManifestSpec.contribute. by rewrite foldl_filter.
Qed.

Lemma parse_acf_eq w path :
  SteamDiscovery.parse_acf w path
  = Ok (ManifestSpec.of_lines (delivered w path)).
Proof.
  unfold SteamDiscovery.parse_acf, ManifestSpec.of_lines.
  rewrite (for_each_pure _ ManifestSpec.contribute)
    by apply acf_line_contribute.
  unfold ManifestSpec.contribute. by rewrite foldl_filter.
Qed.

(** A file that is read to its end delivers the lines of its text; a
    path that cannot be opened delivers none. *)
Lemma delivered_read w path text :
  open_read w path = Ok text → delivered w path = PyStr.lines text.
Proof.
  unfold open_read, delivered.
  destruct (stat w path) as [[? [?|?] ?|]|]; intros E; by inversion E.
Qed.

Lemma parse_acf_read w path text :
  open_read w path = Ok text →
  SteamDiscovery.parse_acf w path = Ok (ManifestSpec.parse text).
Proof.
  intros Hread. rewrite parse_acf_eq, (delivered_read _ _ _ Hread). done.
Qed.

(** C6 (as the code has it). For every line, the loop body of
    [parse_acf] leaves the mapping unchanged when the stripped line is
    blank, starts with [//] or has fewer than four quote characters, and
    otherwise adds exactly the entry made of the second and the fourth
    quote-split token; for every text, the loop returns the mapping the
    candidate lines give in order; for every world and path,
    [parse_acf] returns (never raises) that mapping for a file read to
    its end, the mapping of the lines read before the failure when the
    read fails, and the empty mapping when the path cannot be opened. *)
Theorem parse_acf_refines_spec :
  (∀ data line,
     SteamDiscovery.acf_line data line
     = Ok (if ManifestSpec.is_candidate line
           then <[ManifestSpec.key_of line := ManifestSpec.value_of line]> data
           else data))
  ∧ (∀ text,
       SteamDiscovery.parse_acf_text text = Ok (ManifestSpec.parse text))
  ∧ (∀ w path,
       SteamDiscovery.parse_acf w path
       = Ok (match stat w path with
             | Some (Fs.File _ (Fs.Text text) _) => ManifestSpec.parse text
             | Some (Fs.File _ (Fs.Fails ls) _) => ManifestSpec.of_lines ls
             | _ => ∅
             end)).
Proof.
  split; [|split].
  - intros data line. apply acf_line_contribute.
  - apply parse_acf_text_spec.
  - intros w path. rewrite parse_acf_eq. unfold delivered.
    destruct (stat w path) as [[? [?|?] ?|]|]; reflexivity.
Qed.



(** ** The library resolver *)

Lemma for_each_total {A S} (body : S → A → result S) :
  (∀ s x, ∃ s', body s x = Ok s') →
  ∀ xs s, ∃ s', for_each body xs s = Ok s'.
Proof.
  intros Hbody xs. induction xs as [|x xs IH]; intros s; simpl; [eauto|].
  destruct (Hbody s x) as [s' ->]. simpl. apply IH.
Qed.

Lemma vdf_line_total w libraries line :
  ∃ libraries', SteamDiscovery.vdf_line w libraries line = Ok libraries'.
Proof.
  unfold SteamDiscovery.vdf_line.
  set (s := PyStr.strip line).
  destruct (4 <=? PyStr.count PyStr.dquote s)%nat eqn:Hq; [|eauto].
  apply Nat.leb_le in Hq.
  assert (Hlen : length (PyStr.split PyStr.dquote s)
                 = S (PyStr.count PyStr.dquote s))
    by apply split_by_length.
  rewrite (getitem_lt _ 3 EmptyString) by lia.
  cbn [mbind result_bind Py.bind].
  destruct (path_exists w _); eauto.
Qed.

Lemma open_read_raises w path e :
  open_read w path = Raise e → e = OSError.
Proof.
  unfold open_read.
  destruct (stat w path) as [[? [?|?] ?|]|]; intros E; by inversion E.
Qed.

Lemma parse_libraryfolders_vdf_total w path :
  ∃ libraries, SteamDiscovery.parse_libraryfolders_vdf w path = Ok libraries.
Proof.
  unfold SteamDiscovery.parse_libraryfolders_vdf.
  apply for_each_total, vdf_line_total.
Qed.

Lemma find_steam_libraries_total w :
  ∃ libraries, SteamDiscovery.find_steam_libraries w = Ok libraries.
Proof.
  unfold SteamDiscovery.find_steam_libraries.
  destruct (SteamDiscovery.find_steam_root w) as [steam_root|]; [|eauto].
  destruct (path_exists w (Fs.div (Fs.div steam_root "steamapps")
                                  "libraryfolders.vdf")).
  - destruct (parse_libraryfolders_vdf_total w
                (Fs.div (Fs.div steam_root "steamapps") "libraryfolders.vdf"))
      as [extra ->].
    cbn [mbind result_bind Py.bind]. eauto.
  - cbn [mbind result_bind Py.bind]. eauto.
Qed.

Lemma resolved_set_NoDup (res : Fs.Path → Fs.Path) (l : list Fs.Path) :
  (∀ p, res (res p) = res p) →
  NoDup (res <$> elements (list_to_set (res <$> l) : gset Fs.Path)).
Proof.
  intros Hidem.
  set (S := list_to_set (res <$> l) : gset Fs.Path).
  assert (Hfix : res <$> elements S = elements S).
  { rewrite <- (list_fmap_id (elements S)) at 2.
    apply list_fmap_ext. intros i x Hx. simpl.
    apply list_elem_of_lookup_2, elem_of_elements in Hx.
    apply elem_of_list_to_set, list_elem_of_fmap in Hx as (y & -> & _).
    apply Hidem. }
  rewrite Hfix. apply NoDup_elements.
Qed.

(** C7. When [resolve] is a canonicalisation (resolving a resolved path
    changes nothing), [find_steam_libraries] returns a list, and no two
    of its entries resolve to the same path, whatever the platform root
    and the listing file hold. *)
Theorem find_steam_libraries_no_duplicates w :
  (∀ p, resolve w (resolve w p) = resolve w p) →
  ∃ libraries,
    SteamDiscovery.find_steam_libraries w = Ok libraries
    ∧ NoDup (resolve w <$> libraries).
Proof.
  intros Hidem.
  unfold SteamDiscovery.find_steam_libraries.
  destruct (SteamDiscovery.find_steam_root w) as [steam_root|].
  2:{ exists []. split; [done|]. constructor. }
  destruct (path_exists w (Fs.div (Fs.div steam_root "steamapps")
                                  "libraryfolders.vdf")).
  - destruct (parse_libraryfolders_vdf_total w
                (Fs.div (Fs.div steam_root "steamapps") "libraryfolders.vdf"))
      as [extra ->].
    cbn [mbind result_bind Py.bind].
    eexists. split; [done|]. by apply resolved_set_NoDup.
  - cbn [mbind result_bind Py.bind].
    eexists. split; [done|]. by apply resolved_set_NoDup.
Qed.

(** ** The manifest scanner *)

Lemma int_of_str_raises s e :
  PyStr.int_of_str s = Raise e → e = ValueError.
Proof.
  unfold PyStr.int_of_str.
  match goal with |- context [match ?r with Some _ => _ | None => _ end] =>
    destruct r end; intros E; by inversion E.
Qed.

Lemma getitem_raises {A} (l : list A) i e :
  getitem l i = Raise e → e = IndexError.
Proof.
  unfold getitem. destruct (nth_error l i); intros E; by inversion E.
Qed.

Lemma manifest_appid_raises manifest e :
  SteamDiscovery.manifest_appid manifest = Raise e →
  e = IndexError ∨ e = ValueError.
Proof.
  unfold SteamDiscovery.manifest_appid.
  destruct (getitem _ 1) as [tok|e'] eqn:E; cbn [mbind result_bind Py.bind].
  - intros H. right. by eapply int_of_str_raises.
  - intros H. inversion H; subst. left. by eapply getitem_raises.
Qed.

Lemma manifest_app_total w steamapps manifest :
  SteamDiscovery.manifest_app w steamapps manifest
  = Ok (ScanSpec.scan_manifest w steamapps manifest).
Proof.
  unfold ScanSpec.scan_manifest, SteamDiscovery.manifest_app.
  destruct (SteamDiscovery.manifest_appid manifest) as [appid|e] eqn:E.
  - rewrite parse_acf_eq. done.
  - by destruct (manifest_appid_raises _ _ E) as [-> | ->].
Qed.

Lemma for_each_collect {A B} (body : list B → A → result (list B))
    (g : A → list B) :
  (∀ acc x, body acc x = Ok (acc ++ g x)%list) →
  ∀ xs acc, for_each body xs acc = Ok (acc ++ flat_map g xs)%list.
Proof.
  intros Hbody xs. induction xs as [|x xs IH]; intros acc; simpl.
  - by rewrite app_nil_r.
  - rewrite Hbody. simpl. rewrite IH. by rewrite <- app_assoc.
Qed.

Lemma library_apps_eq w apps steamapps :
  SteamDiscovery.library_apps w apps steamapps
  = Ok (apps ++ ScanSpec.manifest_apps w steamapps)%list.
Proof.
  unfold SteamDiscovery.library_apps, ScanSpec.manifest_apps.
  apply (for_each_collect _
           (fun m => option_list (ScanSpec.scan_manifest w steamapps m))).
  intros acc m. rewrite manifest_app_total.
  cbn [mbind result_bind Py.bind].
  destruct (ScanSpec.scan_manifest w steamapps m); simpl; [done|].
  by rewrite app_nil_r.
Qed.

Lemma find_installed_steam_apps_eq w :
  ∃ libraries,
    SteamDiscovery.find_steam_libraries w = Ok libraries
    ∧ SteamDiscovery.find_installed_steam_apps w
      = Ok (flat_map (ScanSpec.manifest_apps w) libraries).
Proof.
  destruct (find_steam_libraries_total w) as [libs Hlibs].
  exists libs. split; [done|].
  unfold SteamDiscovery.find_installed_steam_apps. rewrite Hlibs.
  cbn [mbind result_bind Py.bind].
  destruct libs as [|lib libs]; [done|].
  by rewrite (for_each_collect _ (ScanSpec.manifest_apps w))
    by apply library_apps_eq.
Qed.

(** Every record the scanner returns was built by the loop body from a
    manifest of a resolved library, and conversely. *)
Lemma find_installed_steam_apps_elem w app :
  ∃ libraries apps,
    SteamDiscovery.find_steam_libraries w = Ok libraries
    ∧ SteamDiscovery.find_installed_steam_apps w = Ok apps
    ∧ (app ∈ apps ↔
       ∃ steamapps manifest,
         steamapps ∈ libraries
         ∧ manifest ∈ glob_manifests w steamapps
         ∧ SteamDiscovery.manifest_app w steamapps manifest = Ok (Some app)).
Proof.
  destruct (find_installed_steam_apps_eq w) as (libs & Hlibs & Happs).
  exists libs, (flat_map (ScanSpec.manifest_apps w) libs).
  split; [done|]. split; [done|].
  rewrite list_elem_of_In, in_flat_map. unfold ScanSpec.manifest_apps.
  split.
  - intros (lib & Hlib & Hin). apply in_flat_map in Hin as (m & Hm & Hin).
    exists lib, m. rewrite !list_elem_of_In. split; [done|]. split; [done|].
    rewrite manifest_app_total. f_equal.
    destruct (ScanSpec.scan_manifest w lib m); simpl in Hin; [|done].
    destruct Hin as [->|[]]. done.
  - intros (lib & m & Hlib & Hm & Happ).
    exists lib. rewrite <- list_elem_of_In. split; [done|].
    apply in_flat_map. exists m. rewrite <- list_elem_of_In. split; [done|].
    rewrite manifest_app_total in Happ. inversion Happ as [Heq].
    rewrite Heq. by left.
Qed.

(** C8 (as the code has it). For every per-app manifest whose file name
    yields the numeric id [appid] and whose parsed mapping has no [name]
    key, the loop body of the scanner builds a record with that id and
    with the name [Steam App <appid>]. *)
Theorem nameless_manifest_gets_placeholder w steamapps manifest appid acf :
  SteamDiscovery.manifest_appid manifest = Ok appid →
  SteamDiscovery.parse_acf w manifest = Ok acf →
  acf !! "name" = None →
  ∃ app,
    SteamDiscovery.manifest_app w steamapps manifest = Ok (Some app)
    ∧ SteamDiscovery.appid app = appid
    ∧ SteamDiscovery.name app = "Steam App " +:+ PyStr.str_of_int appid.
Proof.
  intros Hid Hacf Hname.
  unfold SteamDiscovery.manifest_app. rewrite Hid, Hacf.
  cbn [mbind result_bind Py.bind]. rewrite Hname.
  eexists. split; [done|]. done.
Qed.

(** ** Paths below a root *)

Lemma mem_In x l : Walk.mem x l = true ↔ In x l.
Proof.
  unfold Walk.mem. rewrite existsb_exists. split.
  - intros (y & Hy & E). apply String.eqb_eq in E. by subst.
  - intros H. exists x. split; [done|apply String.eqb_refl].
Qed.

Lemma strip_prefix_app pre l : Walk.strip_prefix pre (pre ++ l) = Some l.
Proof.
  induction pre as [|a pre IH]; simpl; [done|].
  by rewrite String.eqb_refl.
Qed.

Lemma relative_to_below root rel :
  Walk.relative_to (Fs.below root rel) root = Ok rel.
Proof.
  unfold Walk.relative_to, Fs.below. simpl.
  by rewrite Bool.eqb_reflx, strip_prefix_app.
Qed.

Lemma div_below root rel nm :
  Fs.div (Fs.below root rel) nm = Fs.below root (rel ++ [nm]).
Proof. unfold Fs.div, Fs.below. simpl. by rewrite <- app_assoc. Qed.

Lemma below_nil root : Fs.below root [] = root.
Proof. destruct root. unfold Fs.below. simpl. by rewrite app_nil_r. Qed.

Lemma name_below root rel nm : Fs.name (Fs.below root (rel ++ [nm])) = nm.
Proof.
  unfold Fs.name, Fs.below. simpl. rewrite app_assoc. apply List.last_last.
Qed.

(** ** The pruned walk of [hi.py] *)

Lemma prune_below root d excluded pre names :
  Hi.prune root d excluded (Fs.below root pre) names
  = if d <=? Z.of_nat (length pre) then []
    else List.filter
           (fun nm => negb (bool_decide (PyStr.lower nm ∈ excluded))) names.
Proof. unfold Hi.prune. by rewrite relative_to_below. Qed.

Lemma dirnames_In c cs :
  In c cs → Fs.is_dir c = true → In (Fs.node_name c) (Walk.dirnames cs).
Proof.
  intros Hc Hdir. unfold Walk.dirnames.
  apply in_map. by apply List.filter_In.
Qed.

(** Every directory the walk yields is reached through directories
    that are not excluded, and lies within the bound when the walk
    started within it. *)
Lemma os_walk_yield root d excluded n :
  ∀ pre dp kept fns,
    In (dp, kept, fns)
       (Walk.os_walk (Hi.prune root d excluded) (Fs.below root pre) n) →
    ∃ rel nm cs,
      dp = Fs.below root (pre ++ rel)
      ∧ WalkSpec.reach excluded n rel (Fs.Dir nm cs)
      ∧ fns = Walk.filenames cs
      ∧ (Z.of_nat (length pre) ≤ d → Z.of_nat (length (pre ++ rel)) ≤ d).
Proof.
  induction n as [nm c x|nm cs IH] using Fs.node_ind;
    intros pre dp kept fns Hin.
  - destruct Hin.
  - cbn [Walk.os_walk] in Hin. destruct Hin as [Heq|Hin].
    + inversion Heq; subst. exists [], nm, cs. rewrite app_nil_r.
      split; [done|]. split; [constructor|]. done.
    + apply in_flat_map in Hin as (c & Hc & Hin).
      destruct (Fs.is_dir c) eqn:Hdir; cbn [andb] in Hin; [|done].
      destruct (Walk.mem (Fs.node_name c) _) eqn:Hmem; [|done].
      rewrite div_below in Hin.
      rewrite List.Forall_forall in IH.
      destruct (IH c Hc _ _ _ _ Hin)
        as (rel & nm' & cs' & -> & Hreach & -> & Hd).
      rewrite prune_below in Hmem.
      destruct (d <=? Z.of_nat (length pre)) eqn:Hprune; [done|].
      apply Z.leb_gt in Hprune.
      apply mem_In, List.filter_In in Hmem as [_ Hnot].
      apply negb_true_iff, bool_decide_eq_false in Hnot.
      exists (Fs.node_name c :: rel), nm', cs'.
      split; [by rewrite <- app_assoc|].
      split; [by constructor; [apply list_elem_of_In| | |]|].
      split; [done|].
      intros _. rewrite <- app_assoc in Hd. apply Hd.
      rewrite length_app. simpl. lia.
Qed.

(** Conversely, every directory within the bound that is reached
    through directories that are not excluded is yielded. *)
Lemma os_walk_complete root d excluded n rel n' :
  WalkSpec.reach excluded n rel n' →
  ∀ pre nm cs,
    n' = Fs.Dir nm cs →
    Z.of_nat (length (pre ++ rel)) ≤ d →
    ∃ kept,
      In (Fs.below root (pre ++ rel), kept, Walk.filenames cs)
         (Walk.os_walk (Hi.prune root d excluded) (Fs.below root pre) n).
Proof.
  induction 1 as [n|nm0 cs0 c rel n' Hc Hdir Hnot Hreach IH];
    intros pre nm cs -> Hle.
  - eexists. rewrite app_nil_r. cbn [Walk.os_walk]. by left.
  - rewrite length_app in Hle. simpl in Hle.
    destruct (IH (pre ++ [Fs.node_name c])%list nm cs eq_refl) as [kept Hin].
    { rewrite !length_app. simpl. lia. }
    exists kept. cbn [Walk.os_walk]. right.
    apply list_elem_of_In in Hc.
    apply in_flat_map. exists c. split; [done|].
    rewrite Hdir. cbn [andb].
    assert (Hmem : Walk.mem (Fs.node_name c)
                     (Hi.prune root d excluded (Fs.below root pre)
                        (Walk.dirnames cs0)) = true).
    { rewrite prune_below.
      destruct (d <=? Z.of_nat (length pre)) eqn:Hprune;
        [apply Z.leb_le in Hprune; lia|].
      apply mem_In, List.filter_In. split; [by apply dirnames_In|].
      by apply negb_true_iff, bool_decide_eq_false. }
    rewrite Hmem, div_below. by rewrite <- app_assoc in Hin.
Qed.

Lemma visit_elem w root pre kept fns a :
  In a (Hi.visit w root (Fs.below root pre, kept, fns)) ↔
  ∃ fn,
    In fn fns
    ∧ Hi.launchable w (Fs.below root (pre ++ [fn])) = true
    ∧ a = Types.mkDiscoveredApp (Fs.stem (Fs.below root (pre ++ [fn])))
                                (Fs.below root (pre ++ [fn])).
Proof.
  unfold Hi.visit. rewrite relative_to_below.
  rewrite <- list_elem_of_In, list_elem_of_omap. split.
  - intros (fn & Hfn & E). rewrite div_below in E.
    destruct (Hi.launchable w _) eqn:Hl; inversion E; subst.
    exists fn. by rewrite <- list_elem_of_In.
  - intros (fn & Hfn & Hl & ->). exists fn.
    rewrite list_elem_of_In, div_below, Hl. done.
Qed.

Lemma reach_not_excluded excluded n rel n' :
  WalkSpec.reach excluded n rel n' →
  Forall (fun nm => PyStr.lower nm ∉ excluded) rel.
Proof. induction 1; constructor; done. Qed.

Lemma walk_root_sound w excluded r a :
  In a (Hi.walk_root w excluded r) →
  ∃ n rel nm cs fn,
    default false (Hi.rs_enabled r) = true
    ∧ stat w (Hi.root_path w r) = Some n
    ∧ WalkSpec.reach excluded n rel (Fs.Dir nm cs)
    ∧ In fn (Walk.filenames cs)
    ∧ Hi.launchable w (Fs.below (Hi.root_path w r) (rel ++ [fn])) = true
    ∧ a = Types.mkDiscoveredApp
            (Fs.stem (Fs.below (Hi.root_path w r) (rel ++ [fn])))
            (Fs.below (Hi.root_path w r) (rel ++ [fn]))
    ∧ (0 ≤ Hi.effective_depth r →
       Z.of_nat (length rel) ≤ Hi.effective_depth r).
Proof.
  unfold Hi.walk_root, os_walk_at, path_exists.
  set (root := Hi.root_path w r). set (d := Hi.effective_depth r).
  destruct (default false (Hi.rs_enabled r)); cbn [negb]; [|done].
  destruct (stat w root) as [n|]; cbn [negb]; [|done].
  intros Hin. apply in_flat_map in Hin as ([[dp kept] fns] & Hy & Ha).
  pose proof (os_walk_yield root d excluded n [] dp kept fns) as Hyield.
  rewrite below_nil in Hyield.
  destruct (Hyield Hy) as (rel & nm & cs & Hdp & Hreach & Hfns & Hd).
  subst dp fns. cbn [app length] in *.
  apply (proj1 (visit_elem w root rel kept _ a)) in Ha
    as (fn & Hfn & Hl & ->).
  exists n, rel, nm, cs, fn.
  split; [done|]. split; [done|]. split; [done|]. split; [done|].
  split; [done|]. split; [done|]. exact Hd.
Qed.

Lemma walk_root_complete w excluded r n rel nm cs fn :
  default false (Hi.rs_enabled r) = true →
  stat w (Hi.root_path w r) = Some n →
  WalkSpec.reach excluded n rel (Fs.Dir nm cs) →
  Z.of_nat (length rel) ≤ Hi.effective_depth r →
  In fn (Walk.filenames cs) →
  Hi.launchable w (Fs.below (Hi.root_path w r) (rel ++ [fn])) = true →
  In (Types.mkDiscoveredApp
        (Fs.stem (Fs.below (Hi.root_path w r) (rel ++ [fn])))
        (Fs.below (Hi.root_path w r) (rel ++ [fn])))
     (Hi.walk_root w excluded r).
Proof.
  intros Hen Hstat Hreach Hle Hfn Hl.
  unfold Hi.walk_root, os_walk_at, path_exists.
  set (root := Hi.root_path w r) in *. set (d := Hi.effective_depth r) in *.
  rewrite Hen, Hstat. cbn [negb].
  destruct (os_walk_complete root d excluded n rel _ Hreach [] nm cs eq_refl)
    as [kept Hy]; [done|].
  rewrite below_nil in Hy. simpl in Hy.
  apply in_flat_map. eexists. split; [exact Hy|].
  apply visit_elem. exists fn. done.
Qed.


(** C3 (as the code has it). For a root with [recursive = false] the
    bound is 1: every file the walk returns lies in the root directory
    or in one of its direct subdirectories. *)
Theorem non_recursive_walk_depth w excluded r a :
  Hi.rs_recursive r = Some false →
  In a (Hi.walk_root w excluded r) →
  ∃ rel fn,
    Types.path a = Fs.below (Hi.root_path w r) (rel ++ [fn])
    ∧ (length rel ≤ 1)%nat.
Proof.
  intros Hrec Ha.
  assert (Hd : Hi.effective_depth r = 1)
    by (unfold Hi.effective_depth; by rewrite Hrec).
  apply walk_root_sound in Ha
    as (n & rel & nm & cs & fn & _ & _ & _ & _ & _ & -> & Hle).
  exists rel, fn. split; [done|]. rewrite Hd in Hle. lia.
Qed.

(** C5 (as the code has it). Every file the walk returns lies below
    the root through directories whose lower-cased names are not in the
    exclusion set the walk was given. *)
Theorem walk_skips_excluded w excluded r a :
  In a (Hi.walk_root w excluded r) →
  ∃ rel fn,
    Types.path a = Fs.below (Hi.root_path w r) (rel ++ [fn])
    ∧ Forall (fun nm => PyStr.lower nm ∉ excluded) rel.
Proof.
  intros Ha.
  apply walk_root_sound in Ha
    as (n & rel & nm & cs & fn & _ & _ & Hreach & _ & _ & -> & _).
  exists rel, fn. split; [done|]. by eapply reach_not_excluded.
Qed.

(** ** Names and paths of discovered apps *)

Lemma is_empty_false s : PyStr.is_empty s = false ↔ s ≠ EmptyString.
Proof. destruct s; simpl; split; intros; congruence. Qed.

Lemma stem_of_nonempty nm : nm ≠ EmptyString → Fs.stem_of nm ≠ EmptyString.
Proof.
  intros Hnm. unfold Fs.stem_of.
  destruct (PyStr.rfind PyStr.dot nm) as [i|]; [|done].
  destruct ((0 <? i) && (i <? String.length nm - 1))%nat eqn:E; [|done].
  apply andb_true_iff in E as [Hi _]. apply Nat.ltb_lt in Hi.
  destruct i; [lia|]. destruct nm; [done|]. simpl. done.
Qed.

Lemma lookup_child_In nm cs c : Fs.lookup_child nm cs = Some c → In c cs.
Proof.
  induction cs as [|c' cs IH]; simpl; [done|].
  destruct (String.eqb (Fs.node_name c') nm).
  - intros E. inversion E. by left.
  - intros E. right. by apply IH.
Qed.

Lemma lookup_names_ok p :
  ∀ n n', Fs.names_ok n = true → Fs.lookup n p = Some n' →
          Fs.names_ok n' = true.
Proof.
  induction p as [|nm p IH]; intros n n' Hok; simpl.
  - intros E. by inversion E; subst.
  - destruct n as [|dn cs]; [done|].
    destruct (Fs.lookup_child nm cs) as [c|] eqn:Hc; [|done].
    apply lookup_child_In in Hc. simpl in Hok.
    rewrite forallb_forall in Hok. apply IH. by apply Hok.
Qed.

Lemma stat_names_ok w p n :
  Fs.names_ok (root w) = true → stat w p = Some n → Fs.names_ok n = true.
Proof. intros Hok. unfold stat. by apply lookup_names_ok. Qed.

Lemma reach_names_ok excluded n rel n' :
  WalkSpec.reach excluded n rel n' →
  Fs.names_ok n = true → Fs.names_ok n' = true.
Proof.
  induction 1 as [|nm cs c rel n' Hc _ _ _ IH]; [done|].
  simpl. rewrite forallb_forall. intros Hok. apply IH, Hok.
  by apply list_elem_of_In.
Qed.

Lemma file_name_nonempty c :
  Fs.names_ok c = true → Fs.is_dir c = false →
  Fs.node_name c ≠ EmptyString.
Proof.
  destruct c as [nm ? ?|]; simpl; [|done].
  intros Hok _. by apply is_empty_false, negb_true_iff.
Qed.

Lemma filenames_nonempty nm cs fn :
  Fs.names_ok (Fs.Dir nm cs) = true → In fn (Walk.filenames cs) →
  fn ≠ EmptyString.
Proof.
  simpl. rewrite forallb_forall. intros Hok Hfn.
  unfold Walk.filenames in Hfn.
  apply list_elem_of_In, list_elem_of_fmap in Hfn as (c & -> & Hc).
  apply list_elem_of_In, List.filter_In in Hc as [Hc Hfile].
  apply negb_true_iff in Hfile. apply file_name_nonempty; [|done].
  by apply Hok.
Qed.

Lemma parts_below_nonempty root rel fn :
  Fs.parts (Fs.below root (rel ++ [fn])) ≠ [].
Proof.
  unfold Fs.below, Fs.parts. simpl. rewrite app_assoc.
  intros E. by apply app_eq_nil in E as [_ ?].
Qed.

Lemma hi_walk_names w roots excluded a :
  Fs.names_ok (root w) = true →
  In a (Hi.discover_filesystem_apps_optin w roots excluded) →
  Types.name a ≠ EmptyString ∧ Fs.parts (Types.path a) ≠ [].
Proof.
  intros Hok Ha. unfold Hi.discover_filesystem_apps_optin in Ha.
  apply in_flat_map in Ha as (r & _ & Ha).
  apply walk_root_sound in Ha
    as (n & rel & nm & cs & fn & _ & Hstat & Hreach & Hfn & _ & -> & _).
  simpl. split; [|apply parts_below_nonempty].
  unfold Fs.stem. rewrite name_below. apply stem_of_nonempty.
  eapply filenames_nonempty; [|exact Hfn].
  eapply reach_names_ok; [exact Hreach|]. by eapply stat_names_ok.
Qed.

Lemma rglob_elem root n :
  ∀ pre p c,
    In (p, c) (Walk.rglob (Fs.below root pre) n) →
    Fs.names_ok n = true →
    ∃ rel, p = Fs.below root (rel ++ [Fs.node_name c])
           ∧ Fs.names_ok c = true.
Proof.
  induction n as [nm ct x|nm cs IH] using Fs.node_ind;
    intros pre p c Hin Hok.
  - destruct Hin.
  - cbn [Walk.rglob] in Hin. apply in_flat_map in Hin as (c' & Hc' & Hin).
    simpl in Hok. rewrite forallb_forall in Hok.
    rewrite div_below in Hin. destruct Hin as [Heq|Hin].
    + inversion Heq; subst. exists pre. split; [done|]. by apply Hok.
    + rewrite List.Forall_forall in IH.
      apply (IH c' Hc' _ _ _ Hin). by apply Hok.
Qed.

Lemma rglob_at_elem w top p c :
  Fs.names_ok (root w) = true →
  In (p, c) (rglob_at w top) →
  ∃ rel, p = Fs.below top (rel ++ [Fs.node_name c])
         ∧ Fs.names_ok c = true.
Proof.
  intros Hok. unfold rglob_at.
  destruct (stat w top) as [n|] eqn:Hstat; [|done].
  rewrite <- (below_nil top) at 1. intros Hin.
  eapply rglob_elem; [exact Hin|]. by eapply stat_names_ok.
Qed.

Lemma discovery_fs_candidate_inv top incl d p c a :
  Discovery.fs_candidate top incl d (p, c) = Some a →
  Fs.is_dir c = false
  ∧ a = DiscoveryModel.mkDiscoveredApp (Fs.stem p) p
          DiscoveryModel.filesystem 40.
Proof.
  unfold Discovery.fs_candidate.
  destruct (Walk.relative_to p top); [|done].
  destruct (d <? _); [done|].
  destruct (Fs.is_dir c).
  - by destruct (Discovery.should_skip_dir p incl).
  - destruct (negb _); [done|]. intros E. by inversion E.
Qed.

Lemma applist_fs_candidate_inv top d p c a :
  ApplistManager.fs_candidate top d (p, c) = Some a →
  Fs.is_dir c = false ∧ a = Types.mkDiscoveredApp (Fs.stem p) p.
Proof.
  unfold ApplistManager.fs_candidate.
  destruct (Walk.relative_to p top); [|done].
  destruct (d <? _); [done|].
  destruct (Fs.is_dir c); [done|].
  destruct (negb _); [done|]. intros E. by inversion E.
Qed.

Lemma rglob_file_stem w top p c :
  Fs.names_ok (root w) = true →
  In (p, c) (rglob_at w top) →
  Fs.is_dir c = false →
  Fs.stem p ≠ EmptyString ∧ Fs.parts p ≠ [].
Proof.
  intros Hok Hin Hfile.
  destruct (rglob_at_elem w top p c Hok Hin) as (rel & -> & Hc).
  split; [|apply parts_below_nonempty].
  unfold Fs.stem. rewrite name_below.
  by apply stem_of_nonempty, file_name_nonempty.
Qed.

Lemma discovery_walk_names w incl d a :
  Fs.names_ok (root w) = true →
  In a (Discovery.discover_filesystem_apps w incl d) →
  DiscoveryModel.name a ≠ EmptyString
  ∧ Fs.parts (DiscoveryModel.path a) ≠ [].
Proof.
  intros Hok Ha. unfold Discovery.discover_filesystem_apps in Ha.
  apply in_flat_map in Ha as (top & _ & Ha).
  apply list_elem_of_In, list_elem_of_omap in Ha as ([p c] & Hin & Hc).
  apply discovery_fs_candidate_inv in Hc as [Hfile ->]. simpl.
  apply list_elem_of_In in Hin. by eapply rglob_file_stem.
Qed.

Lemma applist_walk_names w d apps a :
  Fs.names_ok (root w) = true →
  ApplistManager.discover_filesystem_apps w d = Ok apps →
  In a apps →
  Types.name a ≠ EmptyString ∧ Fs.parts (Types.path a) ≠ [].
Proof.
  intros Hok Happs Ha. unfold ApplistManager.discover_filesystem_apps in Happs.
  destruct (ApplistManager.filesystem_search_roots w) as [tops|];
    cbn [mbind result_bind Py.bind] in Happs; [|done].
  inversion Happs; subst. clear Happs.
  apply in_flat_map in Ha as (top & _ & Ha).
  apply list_elem_of_In, list_elem_of_omap in Ha as ([p c] & Hin & Hc).
  apply applist_fs_candidate_inv in Hc as [Hfile ->]. simpl.
  apply list_elem_of_In in Hin. by eapply rglob_file_stem.
Qed.

Lemma steam_uri_parts w s :
  Fs.parts (mkpath w ("steam://run/" +:+ s)) ≠ [].
Proof.
  unfold mkpath. destruct (OsUtil.is_windows w); vm_compute; discriminate.
Qed.

Lemma steam_discovered_path w apps a :
  In a (SteamDiscovery.steam_apps_to_discovered w apps) →
  Fs.parts (DiscoveryModel.path a) ≠ [].
Proof.
  unfold SteamDiscovery.steam_apps_to_discovered. intros Ha.
  apply list_elem_of_In, list_elem_of_fmap in Ha as (app & -> & _).
  apply steam_uri_parts.
Qed.

Lemma steam_discovered_empty_name w apps a :
  SteamDiscovery.find_installed_steam_apps w = Ok apps →
  In a (SteamDiscovery.steam_apps_to_discovered w apps) →
  DiscoveryModel.name a = EmptyString →
  ∃ steamapps manifest acf,
    In manifest (glob_manifests w steamapps)
    ∧ SteamDiscovery.parse_acf w manifest = Ok acf
    ∧ acf !! "name" = Some EmptyString.
Proof.
  intros Happs Ha Hname.
  unfold SteamDiscovery.steam_apps_to_discovered in Ha.
  apply list_elem_of_In, list_elem_of_fmap in Ha as (app & -> & Happ).
  simpl in Hname.
  destruct (find_installed_steam_apps_elem w app)
    as (libs & apps' & _ & Happs' & Helem).
  rewrite Happs in Happs'. inversion Happs'; subst apps'.
  apply Helem in Happ as (lib & m & _ & Hm & Hbody).
  exists lib, m. rewrite parse_acf_eq. eexists.
  split; [by apply list_elem_of_In|]. split; [done|].
  unfold SteamDiscovery.manifest_app in Hbody.
  destruct (SteamDiscovery.manifest_appid m) as [appid|e] eqn:Hid.
  - rewrite parse_acf_eq in Hbody.
    cbn [mbind result_bind Py.bind] in Hbody.
    inversion Hbody as [Heq]. rewrite <- Heq in Hname. simpl in Hname.
    destruct (_ !! "name") as [v|]; simpl in Hname; [by subst|done].
  - by destruct (manifest_appid_raises _ _ Hid) as [-> | ->].
Qed.

(** C9 (as the code has it). Every app a discovery operation produces
    has a path with at least one component.  The name of an app found
    on the file system is the stem of a file name and is not empty, as
    long as no file has an empty name.  The name of a platform app is
    empty only when a manifest of a resolved library gives the [name]
    key an empty value. *)
Theorem discovered_apps_named :
  (∀ w apps a,
     In a (SteamDiscovery.steam_apps_to_discovered w apps) →
     Fs.parts (DiscoveryModel.path a) ≠ [])
  ∧ (∀ w apps a,
       SteamDiscovery.find_installed_steam_apps w = Ok apps →
       In a (SteamDiscovery.steam_apps_to_discovered w apps) →
       DiscoveryModel.name a = EmptyString →
       ∃ steamapps manifest acf,
         In manifest (glob_manifests w steamapps)
         ∧ SteamDiscovery.parse_acf w manifest = Ok acf
         ∧ acf !! "name" = Some EmptyString)
  ∧ (∀ w roots excluded a,
       Fs.names_ok (root w) = true →
       In a (Hi.discover_filesystem_apps_optin w roots excluded) →
       Types.name a ≠ EmptyString ∧ Fs.parts (Types.path a) ≠ [])
  ∧ (∀ w incl d a,
       Fs.names_ok (root w) = true →
       In a (Discovery.discover_filesystem_apps w incl d) →
       DiscoveryModel.name a ≠ EmptyString
       ∧ Fs.parts (DiscoveryModel.path a) ≠ [])
  ∧ (∀ w d apps a,
       Fs.names_ok (root w) = true →
       ApplistManager.discover_filesystem_apps w d = Ok apps →
       In a apps →
       Types.name a ≠ EmptyString ∧ Fs.parts (Types.path a) ≠ []).
Proof.
  split; [exact steam_discovered_path|].
  split; [exact steam_discovered_empty_name|].
  split; [exact hi_walk_names|].
  split; [exact discovery_walk_names|exact applist_walk_names].
Qed.

(** ** Where the code departs from the specification *)

(** A read that fails does not always give the empty mapping: the
    entries of the lines read before the failure are returned. *)
Lemma interrupted_read_gives_partial_mapping :
  ¬ (∀ w path,
       read_fails w path = true →
       SteamDiscovery.parse_acf w path = Ok ∅).
Proof.
  intros H.
  specialize (H Examples.world_interrupted
                (Fs.div Examples.steamapps_dir "appmanifest_7.acf") eq_refl).
  rewrite parse_acf_eq in H.
  assert (Hname : ManifestSpec.of_lines
                    (delivered Examples.world_interrupted
                       (Fs.div Examples.steamapps_dir "appmanifest_7.acf"))
                  !! "name" = (∅ : gmap string string) !! "name")
    by congruence.
  vm_compute in Hname. discriminate Hname.
Qed.

(** The placeholder name is not [App <appid>]. *)
Lemma nameless_manifest_is_not_named_App :
  ¬ (∀ w steamapps manifest appid acf app,
       SteamDiscovery.manifest_appid manifest = Ok appid →
       SteamDiscovery.parse_acf w manifest = Ok acf →
       acf !! "name" = None →
       SteamDiscovery.manifest_app w steamapps manifest = Ok (Some app) →
       SteamDiscovery.name app = "App " +:+ PyStr.str_of_int appid).
Proof.
  intros H.
  specialize (H Examples.world_nameless Examples.steamapps_dir
                (Fs.div Examples.steamapps_dir "appmanifest_220.acf")
                220
                (ManifestSpec.parse Examples.nameless_manifest)
                (SteamDiscovery.mkSteamApp 220 "Steam App 220"
                   (Fs.below Examples.steamapps_dir ["common"; "hl2"]))).
  assert (E : "Steam App 220" = "App 220"); [|discriminate E].
  apply H; by vm_compute.
Qed.

(** A manifest whose [name] value is empty gives an app without a name. *)
Lemma blank_manifest_name_gives_empty_name :
  ¬ (∀ w apps a,
       SteamDiscovery.find_installed_steam_apps w = Ok apps →
       In a (SteamDiscovery.steam_apps_to_discovered w apps) →
       DiscoveryModel.name a ≠ EmptyString).
Proof.
  intros H.
  apply (H Examples.world_blank_name
           [SteamDiscovery.mkSteamApp 220 EmptyString Examples.steamapps_dir]
           (DiscoveryModel.mkDiscoveredApp EmptyString
              (false, ["steam:"; "run"; "220"]) DiscoveryModel.steam 60)).
  - by vm_compute.
  - left. by vm_compute.
  - done.
Qed.

(** With [recursive = false] the walk still returns [R/x/m.exe]. *)
Lemma non_recursive_walk_enters_subdirectories :
  ¬ (∀ w excluded r a,
       Hi.rs_recursive r = Some false →
       In a (Hi.walk_root w excluded r) →
       ∃ fn, Types.path a = Fs.div (Hi.root_path w r) fn).
Proof.
  intros H.
  destruct (H Examples.world_windows ∅ (Examples.root_spec false 2)
              (Types.mkDiscoveredApp "m" (true, ["R"; "x"; "m.exe"])))
    as [fn Hfn].
  - done.
  - vm_compute. right. by left.
  - vm_compute in Hfn. discriminate Hfn.
Qed.

(** With an empty exclusion set the walk returns [R/.git/h.py], although
    [.git] is in the built-in list. *)
Lemma walk_enters_builtin_junk_directories :
  ¬ (∀ w excluded r a rel fn,
       In a (Hi.walk_root w excluded r) →
       Types.path a = Fs.below (Hi.root_path w r) (rel ++ [fn]) →
       Forall (fun nm =>
                 (PyStr.lower nm ∉ excluded)
                 ∧ ¬ In (PyStr.lower nm) Hi.DEFAULT_EXCLUDED_DIR_NAMES)
              rel).
Proof.
  intros H.
  specialize (H Examples.world_windows ∅ (Examples.root_spec true 2)
                (Types.mkDiscoveredApp "h" (true, ["R"; ".git"; "h.py"]))
                [".git"] "h.py").
  assert (Hall : Forall (fun nm =>
                   (PyStr.lower nm ∉ (∅ : gset string))
                   ∧ ¬ In (PyStr.lower nm) Hi.DEFAULT_EXCLUDED_DIR_NAMES)
                 [".git"]).
  { apply H; [|done]. vm_compute. do 3 right. by left. }
  apply Forall_cons in Hall as [[_ Hnot] _].
  apply Hnot. vm_compute. tauto.
Qed.

(** C1. On a system that is neither Windows nor Linux the roots of
    [applist_manager.py] cannot be computed: [platform_env_var] was never
    assigned, so [filesystem_search_roots], [discover_filesystem_apps] and
    [discover_apps] raise instead of returning a list. *)
Theorem discovery_raises_on_unknown_system :
  ApplistManager.filesystem_search_roots Examples.world_darwin
  = Raise UnboundLocalError
  ∧ ApplistManager.discover_filesystem_apps Examples.world_darwin 3
    = Raise UnboundLocalError
  ∧ ApplistManager.discover_apps Examples.world_darwin
    = Raise UnboundLocalError.
Proof. by vm_compute. Qed.

(** C2. When the allow-list file cannot be read, [filter_steam_apps]
    raises the error of the read instead of returning an empty list,
    whatever the apps and whatever [json.loads] would do. *)
Theorem filter_steam_apps_raises_without_allowlist :
  ∀ json_loads apps,
    ApplistManager.filter_steam_apps json_loads Examples.world_nameless apps
    = Raise OSError.
Proof. intros json_loads apps. by vm_compute. Qed.

(** ** Entry points that always return *)

Lemma find_installed_steam_apps_total w :
  ∃ apps, SteamDiscovery.find_installed_steam_apps w = Ok apps.
Proof.
  destruct (find_installed_steam_apps_eq w) as (libs & _ & ->). eauto.
Qed.

Lemma discovery_discover_apps_total STEAMAPPS w incl authoritative :
  ∃ apps,
    Discovery.discover_apps STEAMAPPS w incl authoritative = Ok apps.
Proof.
  unfold Discovery.discover_apps, Discovery.discover_steam_apps.
  destruct (find_installed_steam_apps_total w) as [steam ->].
  cbn [mbind result_bind Py.bind]. destruct authoritative; simpl; eauto.
Qed.

Lemma applist_discover_apps_unknown w :
  OsUtil.get_os w = OsUtil.UNKNOWN →
  ApplistManager.discover_apps w = Raise UnboundLocalError.
Proof.
  intros Hos.
  unfold ApplistManager.discover_apps, ApplistManager.discover_steam_apps,
    ApplistManager.discover_filesystem_apps,
    ApplistManager.filesystem_search_roots.
  destruct (find_installed_steam_apps_total w) as [steam ->].
  rewrite Hos. done.
Qed.

Lemma applist_discover_apps_known w :
  OsUtil.get_os w ≠ OsUtil.UNKNOWN →
  ∃ apps, ApplistManager.discover_apps w = Ok apps.
Proof.
  intros Hos.
  unfold ApplistManager.discover_apps, ApplistManager.discover_steam_apps,
    ApplistManager.discover_filesystem_apps,
    ApplistManager.filesystem_search_roots.
  destruct (find_installed_steam_apps_total w) as [steam ->].
  destruct (OsUtil.get_os w); cbn [mbind result_bind Py.bind]; by eauto.
Qed.

(** ** The allow-list filters *)

Lemma filter_related_apps_empty w apps :
  Discovery.filter_related_apps ∅ w apps = [].
Proof.
  unfold Discovery.filter_related_apps.
  induction apps as [|app apps IH]; simpl; [done|].
  assert (Hno : Discovery.is_related ∅ w app = false).
  { unfold Discovery.is_related.
    destruct (DiscoveryModel.source app); [|done..].
    destruct (negb _); [done|].
    destruct (PyStr.int_of_str _); [|done].
    by apply bool_decide_eq_false. }
  by rewrite Hno.
Qed.

(** With an empty allow-list the authoritative platform result is empty,
    however many manifests are installed. *)
Lemma discover_steam_apps_fail_closed w :
  Discovery.discover_steam_apps ∅ w true = Ok [].
Proof.
  unfold Discovery.discover_steam_apps.
  destruct (find_installed_steam_apps_total w) as [steam ->].
  cbn [mbind result_bind Py.bind]. by rewrite filter_related_apps_empty.
Qed.

Lemma filter_steam_apps_unreadable json_loads w apps :
  open_read w (ApplistManager.app_list_config_path w) = Raise OSError →
  ApplistManager.filter_steam_apps json_loads w apps = Raise OSError.
Proof.
  intros Hread.
  unfold ApplistManager.filter_steam_apps, ApplistManager.read_file_as_text.
  by rewrite Hread.
Qed.

Lemma keep_app_unlisted w related app :
  ApplistManager.keep_app w (Json.JObj []) related app = Ok related.
Proof.
  unfold ApplistManager.keep_app.
  destruct (negb _); [done|].
  destruct (PyStr.int_of_str _) as [appid|e] eqn:E; [done|].
  by rewrite (int_of_str_raises _ _ E).
Qed.

(** A readable allow-list document without entries keeps no app. *)
Lemma filter_steam_apps_empty_allowlist json_loads w apps text fields :
  open_read w (ApplistManager.app_list_config_path w) = Ok text →
  json_loads text = Ok (Json.JObj fields) →
  default (Json.JObj []) (Json.assoc "steam_apps" fields) = Json.JObj [] →
  ApplistManager.filter_steam_apps json_loads w apps = Ok [].
Proof.
  intros Hread Hloads Hempty.
  unfold ApplistManager.filter_steam_apps, ApplistManager.read_file_as_text,
    ApplistManager.json_to_dict.
  rewrite Hread. cbn [mbind result_bind Py.bind]. rewrite Hloads.
  cbn [mbind result_bind Py.bind Json.get_or_empty]. rewrite Hempty.
  rewrite (for_each_pure _ (fun related _ => related))
    by apply keep_app_unlisted.
  f_equal. by induction apps.
Qed.

(** ** Worked scenarios *)

(** The depth scenario of the specification: with [max_depth = 2],
    [a.exe] (depth 0) and [b.exe] (depth 2) are returned and [c.exe]
    (depth 3) is not. *)
Example depth_scenario :
  Hi.discover_filesystem_apps_optin Examples.world_windows
    [Examples.root_spec true 2] {[".git"]}
  = [Types.mkDiscoveredApp "a" (true, ["R"; "a.exe"]);
     Types.mkDiscoveredApp "m" (true, ["R"; "x"; "m.exe"]);
     Types.mkDiscoveredApp "b" (true, ["R"; "x"; "y"; "b.exe"])].
Proof. by vm_compute. Qed.

(** The walk of [app/discovery.py] counts the file name in the depth,
    so with [max_depth = 2] it stops one level earlier; and it returns
    the file below [.git], since the result of [should_skip_dir] is not
    used. *)
Example legacy_walk_scenario :
  DiscoveryModel.path <$>
    Discovery.discover_filesystem_apps
      (mkWorld "Windows" ∅ (true, ["R"]) ["nowhere"] Examples.scan_tree
               (fun p => p))
      false 2
  = [(true, ["R"; "a.exe"]); (true, ["R"; "x"; "m.exe"]);
     (true, ["R"; ".git"; "h.py"])].
Proof. by vm_compute. Qed.

(** ** Instances of the theorems above *)


Lemma resolve_link_idempotent p :
  Examples.resolve_link (Examples.resolve_link p) = Examples.resolve_link p.
Proof.
  destruct p as [[] [|a [|b [|c rest]]]]; simpl; try done.
  destruct (String.eqb c "link") eqn:E; simpl; [done|]. by rewrite E.
Qed.

Lemma find_steam_libraries_no_duplicates_witness :
  ∃ libraries,
    SteamDiscovery.find_steam_libraries Examples.world_linked = Ok libraries
    ∧ NoDup (resolve Examples.world_linked <$> libraries).
Proof.
  apply (find_steam_libraries_no_duplicates Examples.world_linked).
  exact resolve_link_idempotent.
Defined.

Lemma nameless_manifest_gets_placeholder_witness :
  ∃ app,
    SteamDiscovery.manifest_app Examples.world_nameless Examples.steamapps_dir
      (Fs.div Examples.steamapps_dir "appmanifest_220.acf") = Ok (Some app)
    ∧ SteamDiscovery.appid app = 220
    ∧ SteamDiscovery.name app = "Steam App 220".
Proof.
  apply (nameless_manifest_gets_placeholder Examples.world_nameless
           Examples.steamapps_dir
           (Fs.div Examples.steamapps_dir "appmanifest_220.acf") 220
           (ManifestSpec.parse Examples.nameless_manifest)).
  - reflexivity.
  - vm_compute. reflexivity.
  - vm_compute. reflexivity.
Defined.


Lemma non_recursive_walk_depth_witness :
  ∃ rel fn,
    (true, ["R"; "x"; "m.exe"]) = Fs.below Examples.scan_root (rel ++ [fn])
    ∧ (length rel ≤ 1)%nat.
Proof.
  apply (non_recursive_walk_depth Examples.world_windows ∅
           (Examples.root_spec false 2)
           (Types.mkDiscoveredApp "m" (true, ["R"; "x"; "m.exe"]))).
  - reflexivity.
  - vm_compute. tauto.
Defined.

Lemma walk_skips_excluded_witness :
  ∃ rel fn,
    (true, ["R"; "x"; "y"; "b.exe"])
    = Fs.below Examples.scan_root (rel ++ [fn])
    ∧ Forall (fun nm => PyStr.lower nm ∉ ({[".git"]} : gset string)) rel.
Proof.
  apply (walk_skips_excluded Examples.world_windows {[".git"]}
           (Examples.root_spec true 2)
           (Types.mkDiscoveredApp "b" (true, ["R"; "x"; "y"; "b.exe"]))).
  vm_compute. tauto.
Defined.

Lemma discovered_apps_named_witness :
  (Types.name (Types.mkDiscoveredApp "b" (true, ["R"; "x"; "y"; "b.exe"]))
   ≠ EmptyString
   ∧ Fs.parts (true, ["R"; "x"; "y"; "b.exe"]) ≠ [])
  ∧ Fs.parts (false, ["steam:"; "run"; "220"]) ≠ [].
Proof.
  destruct discovered_apps_named as (Hpath & _ & Hwalk & _ & _).
  split.
  - apply (Hwalk Examples.world_windows [Examples.root_spec true 2] ∅
             (Types.mkDiscoveredApp "b" (true, ["R"; "x"; "y"; "b.exe"]))).
    + reflexivity.
    + vm_compute. tauto.
  - apply (Hpath Examples.world_nameless
             [SteamDiscovery.mkSteamApp 220 "Steam App 220"
                Examples.steamapps_dir]
             (DiscoveryModel.mkDiscoveredApp "Steam App 220"
                (false, ["steam:"; "run"; "220"]) DiscoveryModel.steam 60)).
    vm_compute. tauto.
Defined.

(** ** A consequence of how paths are parsed *)

Lemma steam_uri_path win s :
  Fs.Path_of win ("steam://run/" +:+ s)
  = (false,
     "steam:" :: "run"
     :: List.filter Fs.keep_part (PyStr.split_by (Fs.is_sep win) s)).
Proof. destruct win; reflexivity. Qed.

(** [Path] collapses the doubled slash of [steam://run/<appid>], so the
    text of a converted path never starts with [steam://run/] again. *)
Lemma converted_path_is_not_a_uri w s :
  PyStr.startswith "steam://run/"
    (path_str w (mkpath w ("steam://run/" +:+ s))) = false.
Proof.
  unfold path_str, mkpath. rewrite steam_uri_path.
  destruct (OsUtil.is_windows w);
    destruct (List.filter Fs.keep_part _); reflexivity.
Qed.

(** Hence the authoritative filter of [app/discovery.py] keeps none of
    the apps [steam_apps_to_discovered] made, whatever the allow-list
    holds. *)
Lemma filter_related_apps_drops_converted STEAMAPPS w apps :
  Discovery.filter_related_apps STEAMAPPS w
    (SteamDiscovery.steam_apps_to_discovered w apps) = [].
Proof.
  unfold Discovery.filter_related_apps,
    SteamDiscovery.steam_apps_to_discovered.
  induction apps as [|app apps IH]; [done|].
  cbn [fmap list_fmap List.filter]. fold (@fmap list _).
  assert (Hno : Discovery.is_related STEAMAPPS w
                  (DiscoveryModel.mkDiscoveredApp
                     (SteamDiscovery.name app)
                     (mkpath w ("steam://run/"
                                +:+ PyStr.str_of_int (SteamDiscovery.appid app)))
                     DiscoveryModel.steam 60) = false).
  { unfold Discovery.is_related. cbn [DiscoveryModel.source DiscoveryModel.path].
    by rewrite converted_path_is_not_a_uri. }
  rewrite Hno. exact IH.
Qed.

(** * Further properties of the code *)

(** ** The sensor and the state machine *)

Lemma run_snoc readings x :
  State.run (readings ++ [x]) = State.update (State.run readings) x.
Proof. unfold State.run. by rewrite foldl_app. Qed.

Lemma last_In {A} (l : list A) (x : A) : last l = Some x → In x l.
Proof.
  destruct l as [|y l] using rev_ind; [done|].
  rewrite last_snoc. intros [= ->]. apply in_or_app. right. by left.
Qed.

Lemma run_invariant readings :
  State._last_sensor_state (State.run readings) = last readings
  ∧ (State.vr_state (State.run readings) = State.INSIDE_VR
     ↔ last readings = Some Sensor.BLOCKED ∧ In Sensor.CLEAR readings)
  ∧ (State.vr_state (State.run readings) = State.INSIDE_VR
     ∨ State.vr_state (State.run readings) = State.OUTSIDE_VR).
Proof.
  induction readings as [|x l (Hlast & Hin & Hvr)] using rev_ind.
  - simpl. split; [done|]. split; [|by right]. split; [done|]. by intros [? _].
  - rewrite run_snoc, last_snoc. unfold State.update. rewrite Hlast.
    destruct (last l) as [prev|] eqn:Hl.
    + assert (Hprev : In prev l) by by apply last_In.
      destruct x, prev; simpl.
      * (* CLEAR after CLEAR *)
        split; [done|]. split; [|done].
        rewrite Hin. split; [by intros [? _]|by intros [? _]].
      * (* CLEAR after BLOCKED *)
        split; [done|]. split; [|by right]. split; [done|by intros [? _]].
      * (* BLOCKED after CLEAR *)
        split; [done|]. split; [|by left].
        split; [|done]. intros _. split; [done|].
        apply in_or_app. by left.
      * (* BLOCKED after BLOCKED *)
        split; [done|]. split; [|done].
        rewrite Hin. split.
        -- intros [_ Hc]. split; [done|]. apply in_or_app. by left.
        -- intros [_ Hc]. split; [done|].
           apply in_app_or in Hc as [Hc|[Hc|[]]]; [done|discriminate Hc].
    + destruct l as [|y l] using rev_ind; [|by rewrite last_snoc in Hl].
      simpl. split; [done|]. split; [|by right].
      split; [done|]. intros [[= ->] [Hc|[]]]. discriminate Hc.
Qed.

(** X1. After any sequence of sensor readings the machine remembers the
    latest reading, and it is in [INSIDE_VR] exactly when the latest
    reading is [BLOCKED] and some reading was [CLEAR]; otherwise it is
    in [OUTSIDE_VR].  The two other states are never entered. *)
Theorem state_machine_tracks_readings readings :
  State._last_sensor_state (State.run readings) = last readings
  ∧ (State.vr_state (State.run readings) = State.INSIDE_VR
     ↔ last readings = Some Sensor.BLOCKED ∧ In Sensor.CLEAR readings)
  ∧ (State.vr_state (State.run readings) = State.OUTSIDE_VR
     ↔ ¬ (last readings = Some Sensor.BLOCKED ∧ In Sensor.CLEAR readings)).
Proof.
  destruct (run_invariant readings) as (Hlast & Hin & Hvr).
  split; [done|]. split; [done|]. rewrite <- Hin. split.
  - intros Hout Hins. rewrite Hins in Hout. discriminate Hout.
  - intros Hnot. by destruct Hvr.
Qed.

Lemma presses_add n m s :
  State.presses (n + m) s = State.presses m (State.presses n s).
Proof. revert s. induction n as [|n IH]; intros s; simpl; [done|apply IH]. Qed.

(** X2. In the interactive sensor test the first press blocks the
    sensor but leaves the machine in [OUTSIDE_VR]; afterwards every
    even press clears the sensor and gives [OUTSIDE_VR], and every odd
    press blocks it and gives [INSIDE_VR]. *)
Theorem sensor_test_alternates k :
  State.presses 1 (Sensor.new, State.new)
  = (Sensor.BLOCKED, State.mkStateMachine State.OUTSIDE_VR (Some Sensor.BLOCKED))
  ∧ State.presses (2 * k + 2) (Sensor.new, State.new)
    = (Sensor.CLEAR, State.mkStateMachine State.OUTSIDE_VR (Some Sensor.CLEAR))
  ∧ State.presses (2 * k + 3) (Sensor.new, State.new)
    = (Sensor.BLOCKED, State.mkStateMachine State.INSIDE_VR (Some Sensor.BLOCKED)).
Proof.
  split; [done|].
  assert (Heven : State.presses (2 * k + 2) (Sensor.new, State.new)
                  = (Sensor.CLEAR,
                     State.mkStateMachine State.OUTSIDE_VR (Some Sensor.CLEAR))).
  { induction k as [|k IH]; [done|].
    replace (2 * S k + 2)%nat with ((2 * k + 2) + 2)%nat by lia.
    by rewrite presses_add, IH. }
  split; [done|].
  replace (2 * k + 3)%nat with ((2 * k + 2) + 1)%nat by lia.
  by rewrite presses_add, Heven.
Qed.

(** ** More on strings *)

Lemma append_cons a (s1 s2 : string) :
  String a s1 +:+ s2 = String a (s1 +:+ s2).
Proof. reflexivity. Qed.

Lemma append_nil_l (s : string) : EmptyString +:+ s = s.
Proof. reflexivity. Qed.

Ltac string_ind s IH :=
  induction s as [|? s IH]; rewrite ?append_cons, ?append_nil_l; simpl.

Lemma append_assoc (s1 s2 s3 : string) :
  (s1 +:+ s2) +:+ s3 = s1 +:+ (s2 +:+ s3).
Proof. string_ind s1 IH; [done|by rewrite IH]. Qed.

Lemma append_nil_r (s : string) : s +:+ EmptyString = s.
Proof. string_ind s IH; [done|by rewrite IH]. Qed.

Lemma length_append (s1 s2 : string) :
  String.length (s1 +:+ s2) = (String.length s1 + String.length s2)%nat.
Proof. string_ind s1 IH; [done|by rewrite IH]. Qed.

Lemma count_by_app p s1 s2 :
  PyStr.count_by p (s1 +:+ s2)
  = (PyStr.count_by p s1 + PyStr.count_by p s2)%nat.
Proof. string_ind s1 IH; [done|rewrite IH; lia]. Qed.

Lemma split_by_none p s :
  PyStr.count_by p s = 0%nat → PyStr.split_by p s = [s].
Proof.
  induction s as [|a s IH]; simpl; [done|].
  destruct (p a); [done|]. intros Hs. by rewrite IH.
Qed.

(** Splitting at a separator that follows a part without separators. *)
Lemma split_by_cut p s1 c s2 :
  PyStr.count_by p s1 = 0%nat → p c = true →
  PyStr.split_by p (s1 +:+ String c s2) = s1 :: PyStr.split_by p s2.
Proof.
  intros Hs1 Hc. string_ind s1 IH.
  - by rewrite Hc.
  - simpl in Hs1. destruct (p a); [done|]. by rewrite IH.
Qed.



Lemma rstrip_no_space s :
  PyStr.count_by PyStr.is_space s = 0%nat → PyStr.rstrip s = s.
Proof.
  induction s as [|a s IH]; simpl; [done|].
  destruct (PyStr.is_space a); [done|]. intros Hs. by rewrite IH.
Qed.

Lemma strip_no_space s :
  PyStr.count_by PyStr.is_space s = 0%nat → PyStr.strip s = s.
Proof.
  intros Hs. unfold PyStr.strip.
  assert (Hl : PyStr.lstrip s = s).
  { destruct s as [|a s]; [done|]. simpl in *.
    by destruct (PyStr.is_space a). }
  rewrite Hl. by apply rstrip_no_space.
Qed.

Lemma take_app s1 s2 : PyStr.take (String.length s1) (s1 +:+ s2) = s1.
Proof. string_ind s1 IH; [by destruct s2|by rewrite IH]. Qed.

Lemma rfind_app c s1 s2 i :
  PyStr.rfind c s2 = Some i →
  PyStr.rfind c (s1 +:+ s2) = Some (String.length s1 + i)%nat.
Proof. intros Hi. string_ind s1 IH; [done|by rewrite IH]. Qed.

(** ** Decimal numerals *)

Lemma digit_of_pretty_N_char m :
  (m < 10)%N → PyStr.digit_of (pretty_N_char m) = Some (Z.of_N m).
Proof.
  intros Hm.
  assert (m = 0 ∨ m = 1 ∨ m = 2 ∨ m = 3 ∨ m = 4 ∨ m = 5 ∨ m = 6 ∨ m = 7
          ∨ m = 8 ∨ m = 9)%N as Hcases by lia.
  repeat (destruct Hcases as [->|Hcases]; [reflexivity|]). by subst.
Qed.

Lemma digits_go_pretty_N_go x :
  ∃ k, 0 ≤ k ∧ ∀ s acc,
    PyStr.digits_go acc (pretty_N_go x s)
    = PyStr.digits_go (acc * 10 ^ k + Z.of_N x) s.
Proof.
  induction (N.lt_wf_0 x) as [x _ IH].
  assert (x = 0 ∨ 0 < x)%N as [->|Hx] by lia.
  - exists 0. split; [done|]. intros s acc. rewrite pretty_N_go_0.
    f_equal. lia.
  - destruct (IH (x `div` 10)%N) as (k & Hk & Hgo); [by apply N.div_lt|].
    exists (k + 1). split; [lia|]. intros s acc.
    rewrite pretty_N_go_step by done. rewrite Hgo. simpl.
    rewrite digit_of_pretty_N_char by (apply N.mod_lt; lia).
    f_equal. rewrite Z.pow_add_r by lia.
    rewrite (N.div_mod x 10) at 3 by lia.
    rewrite N2Z.inj_add, N2Z.inj_mul. simpl Z.of_N. lia.
Qed.

Lemma count_by_pretty_N_go p :
  (∀ m, p (pretty_N_char m) = false) →
  ∀ x s, PyStr.count_by p (pretty_N_go x s) = PyStr.count_by p s.
Proof.
  intros Hp x. induction (N.lt_wf_0 x) as [x _ IH]. intros s.
  assert (x = 0 ∨ 0 < x)%N as [->|Hx] by lia.
  - by rewrite pretty_N_go_0.
  - rewrite pretty_N_go_step by done.
    rewrite IH by (by apply N.div_lt). simpl. by rewrite Hp.
Qed.

Lemma pretty_N_go_nonempty x s :
  s ≠ EmptyString → pretty_N_go x s ≠ EmptyString.
Proof.
  revert s. induction (N.lt_wf_0 x) as [x _ IH]. intros s Hs.
  assert (x = 0 ∨ 0 < x)%N as [->|Hx] by lia.
  - by rewrite pretty_N_go_0.
  - rewrite pretty_N_go_step by done. apply IH; [by apply N.div_lt|done].
Qed.


Lemma pretty_N_go_digits_value x :
  PyStr.digits_go 0 (pretty_N_go x EmptyString) = Some (Z.of_N x).
Proof.
  destruct (digits_go_pretty_N_go x) as (k & _ & Hgo).
  rewrite Hgo. simpl. f_equal; lia.
Qed.

Lemma pretty_positive_nonempty x s : pretty_N_go (N.pos x) s ≠ EmptyString.
Proof.
  rewrite pretty_N_go_step by lia. by apply pretty_N_go_nonempty.
Qed.

Lemma pretty_positive_eq (x : positive) :
  pretty x = pretty_N_go (N.pos x) EmptyString.
Proof. reflexivity. Qed.

Lemma count_by_pretty_positive p (x : positive) :
  (∀ m, p (pretty_N_char m) = false) → PyStr.count_by p (pretty x) = 0%nat.
Proof.
  intros Hp. rewrite pretty_positive_eq.
  by rewrite count_by_pretty_N_go.
Qed.

Lemma count_by_pretty_Z p (z : Z) :
  (∀ m, p (pretty_N_char m) = false) → p "-"%char = false →
  PyStr.count_by p (pretty z) = 0%nat.
Proof.
  intros Hp Hdash. destruct z as [|x|x]; cbn [pretty pretty_Z].
  - pose proof (Hp 0%N) as H0. simpl in *. by rewrite H0.
  - by apply count_by_pretty_positive.
  - rewrite append_cons, append_nil_l. simpl. rewrite Hdash.
    by rewrite count_by_pretty_positive.
Qed.

Ltac by_digit_cases :=
  intros m; unfold pretty_N_char; by repeat case_match.

Lemma pretty_Z_no_space (z : Z) :
  PyStr.count_by PyStr.is_space (pretty z) = 0%nat.
Proof. apply count_by_pretty_Z; [by_digit_cases|done]. Qed.

Lemma int_of_str_unsigned c rest :
  PyStr.strip (String c rest) = String c rest →
  Ascii.eqb c "-" = false → Ascii.eqb c "+" = false →
  PyStr.int_of_str (String c rest)
  = match PyStr.digits (String c rest) with
    | Some z => Ok z
    | None => Raise ValueError
    end.
Proof.
  intros Hstrip Hminus Hplus. unfold PyStr.int_of_str. rewrite Hstrip.
  destruct c as [[] [] [] [] [] [] [] []]; try done.
Qed.

(** [int(str(z))] is [z]. *)
Lemma int_of_str_of_int (z : Z) : PyStr.int_of_str (PyStr.str_of_int z) = Ok z.
Proof.
  unfold PyStr.str_of_int.
  pose proof (strip_no_space _ (pretty_Z_no_space z)) as Hstrip.
  destruct z as [|x|x]; [done|..].
  - change (pretty (Z.pos x)) with (pretty_N_go (N.pos x) EmptyString) in *.
    pose proof (pretty_positive_nonempty x EmptyString) as Hne.
    pose proof (count_by_pretty_N_go
                  (fun c => Ascii.eqb c "-" || Ascii.eqb c "+")
                  ltac:(by_digit_cases) (N.pos x) EmptyString) as Hsign.
    pose proof (pretty_N_go_digits_value (N.pos x)) as Hval.
    destruct (pretty_N_go (N.pos x) EmptyString) as [|c rest]; [done|].
    simpl in Hsign. apply Nat.eq_add_0 in Hsign as [Hsign _].
    destruct (Ascii.eqb c "-") eqn:Hm, (Ascii.eqb c "+") eqn:Hp; try done.
    rewrite int_of_str_unsigned by done.
    unfold PyStr.digits. simpl PyStr.is_empty. cbv iota. by rewrite Hval.
  - change (pretty (Z.neg x))
      with (String "-" (pretty_N_go (N.pos x) EmptyString)) in *.
    unfold PyStr.int_of_str. rewrite Hstrip.
    pose proof (pretty_positive_nonempty x EmptyString) as Hne.
    pose proof (pretty_N_go_digits_value (N.pos x)) as Hval.
    unfold PyStr.digits.
    destruct (pretty_N_go (N.pos x) EmptyString) as [|c rest]; [done|].
    simpl PyStr.is_empty. cbv iota. by rewrite Hval.
Qed.

(** ** Manifest file names and launch paths *)

Lemma pretty_Z_nonempty (z : Z) : pretty z ≠ EmptyString.
Proof.
  destruct z as [|x|x]; [done| |done].
  change (pretty (Z.pos x)) with (pretty_N_go (N.pos x) EmptyString).
  apply pretty_positive_nonempty.
Qed.

Lemma name_div p nm : Fs.name (Fs.div p nm) = nm.
Proof. unfold Fs.name, Fs.div. simpl. apply List.last_last. Qed.

Lemma stem_of_acf d :
  d ≠ EmptyString →
  Fs.stem_of (d +:+ ".acf") = d.
Proof.
  intros Hd. unfold Fs.stem_of.
  rewrite (rfind_app _ d ".acf" 0) by reflexivity.
  rewrite Nat.add_0_r, length_append. simpl String.length.
  assert (0 < String.length d)%nat by (destruct d; [done|simpl; lia]).
  replace (0 <? String.length d)%nat with true
    by (symmetry; by apply Nat.ltb_lt).
  replace (String.length d <? String.length d + 4 - 1)%nat with true
    by (symmetry; apply Nat.ltb_lt; lia).
  simpl andb. cbv iota. apply take_app.
Qed.

(** A file named [appmanifest_<z>.acf] yields the id [z]. *)
Lemma manifest_appid_of_name dir (z : Z) :
  SteamDiscovery.manifest_appid
    (Fs.div dir ("appmanifest_" +:+ PyStr.str_of_int z +:+ ".acf"))
  = Ok z.
Proof.
  unfold SteamDiscovery.manifest_appid, Fs.stem. rewrite name_div.
  rewrite <- append_assoc. rewrite stem_of_acf by done.
  change ("appmanifest_" +:+ PyStr.str_of_int z)
    with ("appmanifest" +:+ String "_" (PyStr.str_of_int z)).
  unfold PyStr.split. rewrite split_by_cut by reflexivity.
  rewrite split_by_none
    by (apply count_by_pretty_Z; [by_digit_cases|done]).
  cbn [getitem nth_error mbind result_bind Py.bind].
  apply int_of_str_of_int.
Qed.

Lemma lower_no_upper s :
  PyStr.count_by
    (fun c => (65 <=? nat_of_ascii c)%nat && (nat_of_ascii c <=? 90)%nat) s
  = 0%nat →
  PyStr.lower s = s.
Proof.
  induction s as [|a s IH]; [done|].
  cbn [PyStr.count_by PyStr.lower]. unfold PyStr.lower_char.
  destruct ((65 <=? nat_of_ascii a)%nat && (nat_of_ascii a <=? 90)%nat).
  - intros Hs. lia.
  - intros Hs. by rewrite IH.
Qed.

Lemma startswith_app p s : PyStr.startswith p (p +:+ s) = true.
Proof.
  induction p as [|a p IH]; rewrite ?append_cons, ?append_nil_l; simpl;
    [done|].
  by rewrite Ascii.eqb_refl.
Qed.

Lemma rev_app_append s1 s2 acc :
  String.rev_app (s1 +:+ s2) acc = String.rev_app s2 (String.rev_app s1 acc).
Proof.
  revert acc. induction s1 as [|a s1 IH]; intros acc;
    rewrite ?append_cons, ?append_nil_l; simpl; [done|apply IH].
Qed.

Lemma endswith_acf s : PyStr.endswith ".acf" (s +:+ ".acf") = true.
Proof.
  unfold PyStr.endswith, String.rev. by rewrite rev_app_append.
Qed.

Lemma matches_manifest_name w (z : Z) :
  matches_manifest w ("appmanifest_" +:+ PyStr.str_of_int z +:+ ".acf") = true.
Proof.
  unfold matches_manifest.
  set (nm := "appmanifest_" +:+ PyStr.str_of_int z +:+ ".acf").
  assert (Hlower : PyStr.lower nm = nm).
  { apply lower_no_upper. unfold nm. rewrite !count_by_app.
    rewrite count_by_pretty_Z; [reflexivity|by_digit_cases|reflexivity]. }
  assert (Hnm : (if OsUtil.is_windows w then PyStr.lower nm else nm) = nm)
    by (by destruct (OsUtil.is_windows w)).
  rewrite Hnm. unfold nm at 1. rewrite startswith_app.
  unfold nm at 1. rewrite <- append_assoc, endswith_acf.
  unfold nm. rewrite !length_append. simpl String.length.
  pose proof (pretty_Z_nonempty z) as Hne. unfold PyStr.str_of_int.
  cbn [andb]. apply Nat.leb_le.
  destruct (pretty z); [done|]. simpl. lia.
Qed.

(** X3. Every entry of a library directory that is named
    [appmanifest_<z>.acf] for an integer [z] is picked up by the
    scanner and yields an app whose id is [z]. *)
Theorem named_manifest_is_scanned w steamapps dn cs (z : Z) :
  stat w steamapps = Some (Fs.Dir dn cs) →
  In ("appmanifest_" +:+ PyStr.str_of_int z +:+ ".acf") (Fs.node_name <$> cs) →
  ∃ apps app,
    SteamDiscovery.library_apps w [] steamapps = Ok apps
    ∧ In app apps
    ∧ SteamDiscovery.appid app = z.
Proof.
  intros Hstat Hin.
  set (nm := "appmanifest_" +:+ PyStr.str_of_int z +:+ ".acf") in *.
  rewrite library_apps_eq. simpl app.
  assert (Hscan : ∃ app,
             ScanSpec.scan_manifest w steamapps (Fs.div steamapps nm) = Some app
             ∧ SteamDiscovery.appid app = z).
  { unfold ScanSpec.scan_manifest, SteamDiscovery.manifest_app.
    unfold nm. rewrite manifest_appid_of_name. rewrite parse_acf_eq.
    cbn [mbind result_bind Py.bind]. eauto. }
  destruct Hscan as (app & Hscan & Hid).
  eexists _, app. split; [done|]. split; [|done].
  unfold ScanSpec.manifest_apps, glob_manifests. rewrite Hstat.
  apply in_flat_map. exists (Fs.div steamapps nm). split.
  - apply list_elem_of_In, list_elem_of_fmap. exists nm. split; [done|].
    apply list_elem_of_In, List.filter_In. split; [done|].
    apply matches_manifest_name.
  - rewrite Hscan. by left.
Qed.

Lemma named_manifest_is_scanned_witness :
  ∃ apps app,
    SteamDiscovery.library_apps Examples.world_nameless []
      Examples.steamapps_dir = Ok apps
    ∧ In app apps
    ∧ SteamDiscovery.appid app = 220.
Proof.
  apply (named_manifest_is_scanned Examples.world_nameless
           Examples.steamapps_dir "steamapps"
           [Examples.file "appmanifest_220.acf" Examples.nameless_manifest]
           220).
  - reflexivity.
  - simpl. left. reflexivity.
Defined.

Lemma pretty_Z_not_dot (z : Z) : pretty z ≠ ".".
Proof.
  intros Hdot.
  assert (Hc : PyStr.count_by (fun c => Ascii.eqb c ".") (pretty z) = 0%nat)
    by (apply count_by_pretty_Z; [by_digit_cases|reflexivity]).
  rewrite Hdot in Hc. discriminate Hc.
Qed.

Lemma keep_part_plain s :
  s ≠ EmptyString → s ≠ "." → Fs.keep_part s = true.
Proof.
  intros Hne Hdot. unfold Fs.keep_part.
  apply andb_true_iff. split; apply negb_true_iff.
  - by apply is_empty_false.
  - by apply String.eqb_neq.
Qed.

Lemma mkpath_steam_uri w (z : Z) :
  mkpath w ("steam://run/" +:+ PyStr.str_of_int z)
  = (false, ["steam:"; "run"; PyStr.str_of_int z]).
Proof.
  unfold mkpath. rewrite steam_uri_path. do 3 f_equal.
  unfold PyStr.str_of_int.
  rewrite split_by_none.
  - simpl. by rewrite keep_part_plain
      by (apply pretty_Z_nonempty || apply pretty_Z_not_dot).
  - apply count_by_pretty_Z.
    + destruct (OsUtil.is_windows w); by_digit_cases.
    + by destruct (OsUtil.is_windows w).
Qed.

Lemma steam_paths w apps :
  DiscoveryModel.path <$> SteamDiscovery.steam_apps_to_discovered w apps
  = (fun z => (false, ["steam:"; "run"; PyStr.str_of_int z]))
      <$> (SteamDiscovery.appid <$> apps).
Proof.
  unfold SteamDiscovery.steam_apps_to_discovered.
  rewrite <- !list_fmap_compose. apply list_fmap_ext.
  intros i app _. simpl. apply mkpath_steam_uri.
Qed.

(** X4. The launch path of a converted app has the three components
    [steam:], [run] and the decimal app id, and apps with different ids
    get different launch paths. *)
Theorem steam_paths_identify_apps w apps :
  NoDup (SteamDiscovery.appid <$> apps) →
  DiscoveryModel.path <$> SteamDiscovery.steam_apps_to_discovered w apps
  = (fun app =>
       (false, ["steam:"; "run"; PyStr.str_of_int (SteamDiscovery.appid app)]))
      <$> apps
  ∧ NoDup (DiscoveryModel.path
             <$> SteamDiscovery.steam_apps_to_discovered w apps).
Proof.
  intros Hids. rewrite steam_paths. split.
  - by rewrite <- list_fmap_compose.
  - apply NoDup_fmap_2; [|done].
    intros z1 z2 Heq. inversion Heq as [Hstr].
    by apply (inj pretty) in Hstr.
Qed.

Lemma steam_paths_identify_apps_witness :
  NoDup (DiscoveryModel.path
           <$> SteamDiscovery.steam_apps_to_discovered Examples.world_nameless
                 [SteamDiscovery.mkSteamApp 220 "Half-Life 2"
                    Examples.steamapps_dir;
                  SteamDiscovery.mkSteamApp 400 "Portal"
                    Examples.steamapps_dir]).
Proof.
  apply (steam_paths_identify_apps Examples.world_nameless
           [SteamDiscovery.mkSteamApp 220 "Half-Life 2" Examples.steamapps_dir;
            SteamDiscovery.mkSteamApp 400 "Portal" Examples.steamapps_dir]).
  simpl. apply NoDup_cons. split.
  - intros Hin. apply list_elem_of_singleton in Hin. discriminate Hin.
  - apply NoDup_singleton.
Defined.

(** X5. A manifest is listed whatever a read of it delivers: when its
    file name yields an id, the loop body builds an app with that id
    from the lines delivered before the read ended or failed, with the
    placeholder name when no [name] line was among them and the library
    directory itself when no [installdir] line was; a manifest that
    cannot even be opened yields the placeholder app. *)
Theorem unreadable_manifest_still_listed w steamapps manifest appid :
  SteamDiscovery.manifest_appid manifest = Ok appid →
  ∃ app,
    SteamDiscovery.manifest_app w steamapps manifest = Ok (Some app)
    ∧ SteamDiscovery.appid app = appid
    ∧ SteamDiscovery.name app
      = default ("Steam App " +:+ PyStr.str_of_int appid)
                (ManifestSpec.of_lines (delivered w manifest) !! "name")
    ∧ (ManifestSpec.of_lines (delivered w manifest) !! "installdir" = None →
       SteamDiscovery.install_dir app = steamapps)
    ∧ (delivered w manifest = [] →
       app = SteamDiscovery.mkSteamApp appid
               ("Steam App " +:+ PyStr.str_of_int appid) steamapps).
Proof.
  intros Hid. unfold SteamDiscovery.manifest_app.
  rewrite Hid, parse_acf_eq. cbn [mbind result_bind Py.bind].
  eexists. split; [done|]. cbn [SteamDiscovery.appid SteamDiscovery.name
                                 SteamDiscovery.install_dir].
  split; [done|]. split; [done|]. split.
  - by intros ->.
  - by intros ->.
Qed.

Lemma unreadable_manifest_still_listed_witness :
  read_fails Examples.world_interrupted
    (Fs.div Examples.steamapps_dir "appmanifest_7.acf") = true
  ∧ SteamDiscovery.manifest_app Examples.world_interrupted
      Examples.steamapps_dir
      (Fs.div Examples.steamapps_dir "appmanifest_7.acf")
    = Ok (Some (SteamDiscovery.mkSteamApp 7 "Half-Life 2"
                  Examples.steamapps_dir)).
Proof.
  split; [reflexivity|].
  destruct (unreadable_manifest_still_listed Examples.world_interrupted
              Examples.steamapps_dir
              (Fs.div Examples.steamapps_dir "appmanifest_7.acf") 7)
    as (app & Happ & Hid & Hname & Hdir & _).
  - reflexivity.
  - rewrite Happ. destruct app as [i n d].
    cbn [SteamDiscovery.appid SteamDiscovery.name SteamDiscovery.install_dir]
      in Hid, Hname, Hdir.
    rewrite Hid, Hname, Hdir by (vm_compute; reflexivity).
    vm_compute. reflexivity.
Defined.

(** ** Install directories and libraries *)

Lemma is_drive_no_backslash s :
  PyStr.count_by (Fs.is_sep true) s = 0%nat → Fs.is_drive s = false.
Proof.
  induction s as [|c s IH]; [done|].
  cbn [PyStr.count_by]. unfold Fs.is_sep at 1. cbn [andb].
  destruct (Ascii.eqb c PyStr.slash); [cbn [orb]; lia|].
  destruct (Ascii.eqb c PyStr.backslash) eqn:Hc; [cbn [orb]; lia|].
  cbn [orb plus]. intros Hs. cbn [Fs.is_drive].
  destruct s; [exact Hc|by apply IH].
Qed.

(** A text without separator that is neither empty nor a dot, and on
    Windows holds no colon, is read as one relative component. *)
Lemma Path_of_plain win s :
  PyStr.count_by (Fs.is_sep win) s = 0%nat →
  s ≠ EmptyString → s ≠ "." →
  (win = true → PyStr.count ":" s = 0%nat) →
  Fs.Path_of win s = (false, [s]).
Proof.
  intros Hsep Hne Hdot Hcolon. unfold Fs.Path_of.
  rewrite split_by_none by done.
  apply is_empty_false in Hne as Hemp.
  destruct win.
  - unfold Fs.splitroot_win, Fs.split_extended, Fs.unc, Fs.after_two_seps.
    rewrite Hemp.
    assert (Hdrive : Fs.drive_letter_split [s] = None).
    { specialize (Hcolon eq_refl). unfold Fs.drive_letter_split.
      destruct s as [|c [|k s]]; [done|done|].
      unfold PyStr.count in Hcolon. cbn [PyStr.count_by] in Hcolon.
      destruct (Ascii.eqb k ":"); [lia|]. by rewrite andb_false_r. }
    rewrite Hdrive, ?Hemp. cbn [Fs.starts_sep PyStr.is_empty List.filter].
    by rewrite keep_part_plain.
  - cbn [Fs.starts_sep List.filter]. by rewrite keep_part_plain.
Qed.

Lemma joinpath_plain win p s :
  PyStr.count_by (Fs.is_sep win) s = 0%nat →
  s ≠ EmptyString → s ≠ "." →
  (win = true → PyStr.count ":" s = 0%nat) →
  Fs.joinpath win p s = Fs.div p s.
Proof.
  intros Hsep Hne Hdot Hcolon. unfold Fs.joinpath.
  rewrite Path_of_plain by done.
  unfold Fs.drive_of. cbn [Fs.parts Fs.anchored fst snd].
  destruct win; [rewrite is_drive_no_backslash by done|]; reflexivity.
Qed.

(** X6. The install directory of a scanned app: the library directory
    itself when the manifest has no [installdir] or an empty one, and
    [<library>/common/<installdir>] when [installdir] is a plain
    directory name: not empty, not a dot, without a path separator
    and, on Windows, without a colon (a drive). *)
Theorem install_dir_of_manifest w steamapps manifest appid acf :
  SteamDiscovery.manifest_appid manifest = Ok appid →
  SteamDiscovery.parse_acf w manifest = Ok acf →
  ∃ app,
    SteamDiscovery.manifest_app w steamapps manifest = Ok (Some app)
    ∧ (acf !! "installdir" = None ∨ acf !! "installdir" = Some EmptyString →
       SteamDiscovery.install_dir app = steamapps)
    ∧ (∀ d, acf !! "installdir" = Some d →
            PyStr.count_by (Fs.is_sep (OsUtil.is_windows w)) d = 0%nat →
            d ≠ EmptyString → d ≠ "." →
            (OsUtil.is_windows w = true → PyStr.count ":" d = 0%nat) →
            SteamDiscovery.install_dir app
            = Fs.div (Fs.div steamapps "common") d).
Proof.
  intros Hid Hacf. unfold SteamDiscovery.manifest_app. rewrite Hid, Hacf.
  cbn [mbind result_bind Py.bind]. eexists. split; [done|].
  cbn [SteamDiscovery.install_dir]. split.
  - by intros [-> | ->].
  - intros d -> Hsep Hne Hdot Hcolon.
    apply is_empty_false in Hne as Hemp. rewrite Hemp.
    by apply joinpath_plain.
Qed.

Lemma install_dir_of_manifest_witness :
  (∃ app,
     SteamDiscovery.manifest_app Examples.world_nameless
       Examples.steamapps_dir
       (Fs.div Examples.steamapps_dir "appmanifest_220.acf") = Ok (Some app)
     ∧ SteamDiscovery.install_dir app
       = Fs.div (Fs.div Examples.steamapps_dir "common") "hl2")
  ∧ (∃ app,
       SteamDiscovery.find_steam_libraries Scenarios.world_windows_steam
       = Ok [Scenarios.windows_steamapps]
       ∧ SteamDiscovery.manifest_app Scenarios.world_windows_steam
           Scenarios.windows_steamapps
           (Fs.div Scenarios.windows_steamapps "appmanifest_220.acf")
         = Ok (Some app)
       ∧ SteamDiscovery.install_dir app
         = Fs.div (Fs.div Scenarios.windows_steamapps "common") "hl2").
Proof.
  split.
  - destruct (install_dir_of_manifest Examples.world_nameless
                Examples.steamapps_dir
                (Fs.div Examples.steamapps_dir "appmanifest_220.acf") 220
                (ManifestSpec.parse Examples.nameless_manifest))
      as (app & Happ & _ & Hplain).
    + reflexivity.
    + vm_compute. reflexivity.
    + exists app. split; [exact Happ|].
      apply Hplain.
      * vm_compute. reflexivity.
      * reflexivity.
      * discriminate.
      * discriminate.
      * reflexivity.
  - destruct (install_dir_of_manifest Scenarios.world_windows_steam
                Scenarios.windows_steamapps
                (Fs.div Scenarios.windows_steamapps "appmanifest_220.acf") 220
                (ManifestSpec.parse Examples.nameless_manifest))
      as (app & Happ & _ & Hplain).
    + reflexivity.
    + vm_compute. reflexivity.
    + exists app. split; [vm_compute; reflexivity|]. split; [exact Happ|].
      apply Hplain.
      * vm_compute. reflexivity.
      * reflexivity.
      * discriminate.
      * discriminate.
      * reflexivity.
Defined.

Lemma for_each_invariant {A S} (P : S → Prop) (body : S → A → result S) :
  (∀ s x s', P s → body s x = Ok s' → P s') →
  ∀ xs s s', P s → for_each body xs s = Ok s' → P s'.
Proof.
  intros Hbody xs. induction xs as [|x xs IH]; intros s s' Hs; simpl.
  - intros [= <-]. done.
  - destruct (body s x) as [s1|] eqn:Hx; simpl; [|done].
    apply IH. by eapply Hbody.
Qed.

Lemma vdf_line_exist w libraries line libraries' :
  Forall (fun p => path_exists w p = true ∧ Fs.name p = "steamapps")
         libraries →
  SteamDiscovery.vdf_line w libraries line = Ok libraries' →
  Forall (fun p => path_exists w p = true ∧ Fs.name p = "steamapps")
         libraries'.
Proof.
  intros Hlibs. unfold SteamDiscovery.vdf_line.
  destruct (4 <=? _)%nat; [|by intros [= <-]].
  destruct (getitem _ 3) as [value|]; cbn [mbind result_bind Py.bind];
    [|done].
  destruct (path_exists w _) eqn:Hex; intros [= <-]; [|done].
  apply Forall_app. split; [done|]. constructor; [|constructor].
  split; [done|]. apply name_div.
Qed.

Lemma parse_libraryfolders_vdf_exist w vdf libraries :
  SteamDiscovery.parse_libraryfolders_vdf w vdf = Ok libraries →
  Forall (fun p => path_exists w p = true ∧ Fs.name p = "steamapps")
         libraries.
Proof.
  unfold SteamDiscovery.parse_libraryfolders_vdf. intros Hloop.
  eapply (for_each_invariant _ _ (vdf_line_exist w)); [|exact Hloop].
  constructor.
Qed.

(** X7. Every library [find_steam_libraries] returns is the resolved
    form of a directory named [steamapps] that exists. *)
Theorem steam_libraries_exist w libraries lib :
  SteamDiscovery.find_steam_libraries w = Ok libraries →
  In lib libraries →
  ∃ p, lib = resolve w p
       ∧ path_exists w p = true
       ∧ Fs.name p = "steamapps".
Proof.
  unfold SteamDiscovery.find_steam_libraries.
  destruct (SteamDiscovery.find_steam_root w) as [steam_root|];
    [|by intros [= <-] []].
  set (default := Fs.div steam_root "steamapps").
  assert (Hdefault :
            Forall (fun p => path_exists w p = true ∧ Fs.name p = "steamapps")
                   (if path_exists w default then [default] else [])).
  { destruct (path_exists w default) eqn:Hex; constructor; [|constructor].
    split; [done|]. apply name_div. }
  intros Hlibs Hin.
  assert (Hall : ∃ found,
             Forall (fun p => path_exists w p = true
                              ∧ Fs.name p = "steamapps") found
             ∧ libraries
               = elements (list_to_set (resolve w <$> found) : gset Fs.Path)).
  { destruct (path_exists w (Fs.div default "libraryfolders.vdf")).
    - destruct (SteamDiscovery.parse_libraryfolders_vdf w _) as [extra|]
        eqn:Hvdf; cbn [mbind result_bind Py.bind] in Hlibs; [|done].
      inversion Hlibs. eexists. split; [|done].
      apply Forall_app. split; [done|].
      by eapply parse_libraryfolders_vdf_exist.
    - cbn [mbind result_bind Py.bind] in Hlibs. inversion Hlibs. eauto. }
  destruct Hall as (found & Hfound & ->).
  apply list_elem_of_In, elem_of_elements, elem_of_list_to_set,
    list_elem_of_fmap in Hin as (p & -> & Hp).
  rewrite List.Forall_forall in Hfound.
  apply list_elem_of_In, Hfound in Hp as [Hex Hname]. eauto.
Qed.

Lemma steam_libraries_exist_witness :
  ∃ p, (true, ["home"; "u"; ".steam"; "steam"; "steamapps"])
       = resolve Examples.world_linked p
       ∧ path_exists Examples.world_linked p = true
       ∧ Fs.name p = "steamapps".
Proof.
  apply (steam_libraries_exist Examples.world_linked
           [(true, ["home"; "u"; ".steam"; "steam"; "steamapps"])]).
  - vm_compute. reflexivity.
  - left. reflexivity.
Defined.

(** ** Writing a manifest line and reading it back *)









(** ** The walk and the aggregator of [app/discovery.py] *)

Lemma discovery_fs_candidate_incl top d entry :
  Discovery.fs_candidate top true d entry
  = Discovery.fs_candidate top false d entry.
Proof.
  destruct entry as [p c]. unfold Discovery.fs_candidate.
  destruct (Walk.relative_to p top); [|done].
  destruct (d <? _); [done|].
  destruct (Fs.is_dir c); [|done].
  by destruct (Discovery.should_skip_dir p true),
              (Discovery.should_skip_dir p false).
Qed.

Lemma flat_map_ext_all {A B} (f g : A → list B) l :
  (∀ x, f x = g x) → flat_map f l = flat_map g l.
Proof. intros Hfg. induction l as [|x l IH]; simpl; [done|]. by rewrite Hfg, IH. Qed.

Lemma omap_ext_all {A B} (f g : A → option B) (l : list A) :
  (∀ x, f x = g x) → omap f l = omap g l.
Proof.
  intros Hfg. induction l as [|x l IH]; [done|].
  change (omap f (x :: l))
    with (match f x with Some y => y :: omap f l | None => omap f l end).
  change (omap g (x :: l))
    with (match g x with Some y => y :: omap g l | None => omap g l end).
  by rewrite Hfg, IH.
Qed.

(** X9. The [include_documents] flag has no effect: the walk and the
    aggregator return the same list whether it is set or not. *)
Theorem include_documents_has_no_effect STEAMAPPS w d authoritative :
  Discovery.discover_filesystem_apps w true d
  = Discovery.discover_filesystem_apps w false d
  ∧ Discovery.discover_apps STEAMAPPS w true authoritative
    = Discovery.discover_apps STEAMAPPS w false authoritative.
Proof.
  assert (Hwalk : ∀ d, Discovery.discover_filesystem_apps w true d
                       = Discovery.discover_filesystem_apps w false d).
  { intros d'. unfold Discovery.discover_filesystem_apps.
    apply flat_map_ext_all. intros top. apply omap_ext_all.
    apply discovery_fs_candidate_incl. }
  split; [apply Hwalk|].
  unfold Discovery.discover_apps. by rewrite Hwalk.
Qed.

(** X10. With [authoritative_steam] set the aggregator returns no
    platform app at all, whatever the allow-list holds and whatever is
    installed: the launch paths were made by [Path], whose text no
    longer starts with [steam://run/].  The result is the file-system
    walk alone. *)
Theorem authoritative_discovery_drops_steam STEAMAPPS w incl :
  Discovery.discover_steam_apps STEAMAPPS w true = Ok []
  ∧ Discovery.discover_apps STEAMAPPS w incl true
    = Ok (Discovery.discover_filesystem_apps w incl 6).
Proof.
  assert (Hsteam : Discovery.discover_steam_apps STEAMAPPS w true = Ok []).
  { unfold Discovery.discover_steam_apps.
    destruct (find_installed_steam_apps_total w) as [steam ->].
    cbn [mbind result_bind Py.bind].
    by rewrite filter_related_apps_drops_converted. }
  split; [done|].
  unfold Discovery.discover_apps. by rewrite Hsteam.
Qed.

Lemma rglob_below top n :
  ∀ pre p c,
    In (p, c) (Walk.rglob (Fs.below top pre) n) →
    ∃ rel, p = Fs.below top (pre ++ rel ++ [Fs.node_name c]).
Proof.
  induction n as [nm ct x|nm cs IH] using Fs.node_ind; intros pre p c Hin.
  - destruct Hin.
  - cbn [Walk.rglob] in Hin. apply in_flat_map in Hin as (c' & Hc' & Hin).
    rewrite div_below in Hin. destruct Hin as [Heq|Hin].
    + inversion Heq; subst. by exists [].
    + rewrite List.Forall_forall in IH.
      destruct (IH c' Hc' _ _ _ Hin) as [rel ->].
      exists (Fs.node_name c' :: rel). by rewrite <- app_assoc.
Qed.

Lemma rglob_at_below w top p c :
  In (p, c) (rglob_at w top) →
  ∃ rel, p = Fs.below top (rel ++ [Fs.node_name c]).
Proof.
  unfold rglob_at. destruct (stat w top) as [n|]; [|done].
  rewrite <- (below_nil top) at 1. intros Hin.
  by apply rglob_below in Hin.
Qed.

(** X11. The walk of [app/discovery.py] counts the file name in the
    depth: every app it returns lies below one of the search roots, by
    at least one and at most [max_depth] components, the file name
    included.  With [max_depth <= 0] it returns nothing. *)
Theorem legacy_walk_depth w incl d a :
  In a (Discovery.discover_filesystem_apps w incl d) →
  ∃ top rel,
    In top (Discovery.filesystem_search_roots w)
    ∧ DiscoveryModel.path a = Fs.below top rel
    ∧ 1 ≤ Z.of_nat (length rel) ≤ d.
Proof.
  unfold Discovery.discover_filesystem_apps. intros Ha.
  apply in_flat_map in Ha as (top & Htop & Ha).
  apply list_elem_of_In, list_elem_of_omap in Ha as ([p c] & Hin & Hc).
  apply list_elem_of_In, rglob_at_below in Hin as [rel ->].
  exists top, (rel ++ [Fs.node_name c])%list. split; [done|].
  unfold Discovery.fs_candidate in Hc. rewrite relative_to_below in Hc.
  destruct (d <? _) eqn:Hd; [done|]. apply Z.ltb_ge in Hd.
  destruct (Fs.is_dir c); [by destruct (Discovery.should_skip_dir _ _)|].
  destruct (negb _); [done|]. inversion Hc; subst. simpl.
  split; [done|]. rewrite length_app in *. simpl in *. lia.
Qed.

Lemma legacy_walk_depth_witness :
  ∃ top rel,
    In top (Discovery.filesystem_search_roots
              (mkWorld "Windows" ∅ (true, ["R"]) ["nowhere"]
                       Examples.scan_tree (fun p => p)))
    ∧ (true, ["R"; "x"; "m.exe"]) = Fs.below top rel
    ∧ 1 ≤ Z.of_nat (length rel) ≤ 2.
Proof.
  apply (legacy_walk_depth
           (mkWorld "Windows" ∅ (true, ["R"]) ["nowhere"]
                    Examples.scan_tree (fun p => p))
           false 2
           (DiscoveryModel.mkDiscoveredApp "m" (true, ["R"; "x"; "m.exe"])
              DiscoveryModel.filesystem 40)).
  vm_compute. tauto.
Defined.

Lemma rglob_complete excluded top n rel n' :
  WalkSpec.reach excluded n rel n' →
  ∀ pre nm cs c,
    n' = Fs.Dir nm cs →
    In c cs →
    In (Fs.below top (pre ++ rel ++ [Fs.node_name c]), c)
       (Walk.rglob (Fs.below top pre) n).
Proof.
  induction 1 as [n|nm0 cs0 c0 rel n' Hc0 Hdir Hnot Hreach IH];
    intros pre nm cs c -> Hc.
  - cbn [Walk.rglob]. apply in_flat_map. exists c. split; [done|].
    left. by rewrite div_below.
  - cbn [Walk.rglob]. apply in_flat_map. exists c0.
    split; [by apply list_elem_of_In|]. right.
    rewrite div_below.
    specialize (IH (pre ++ [Fs.node_name c0])%list nm cs c eq_refl Hc).
    by rewrite <- app_assoc in IH.
Qed.

Lemma suffix_stem_below top rel fn :
  Fs.suffix (Fs.below top (rel ++ [fn])) = Fs.suffix_of fn
  ∧ Fs.stem (Fs.below top (rel ++ [fn])) = Fs.stem_of fn.
Proof. unfold Fs.suffix, Fs.stem. by rewrite name_below. Qed.

(** X12. The walk of [app/discovery.py] prunes nothing: a file with a
    launchable suffix (compared in lower case) that lies within the
    depth bound below a search root is returned through whatever
    directories lead to it, [.git] and [node_modules] included. *)
Theorem legacy_walk_prunes_nothing w incl d top n rel nm cs fn content xbit :
  In top (Discovery.filesystem_search_roots w) →
  stat w top = Some n →
  WalkSpec.reach ∅ n rel (Fs.Dir nm cs) →
  In (Fs.File fn content xbit) cs →
  Z.of_nat (length rel) + 1 ≤ d →
  Walk.mem (PyStr.lower (Fs.suffix_of fn)) Discovery.LAUNCHABLE_EXTENSIONS
  = true →
  In (DiscoveryModel.mkDiscoveredApp (Fs.stem_of fn)
        (Fs.below top (rel ++ [fn])) DiscoveryModel.filesystem 40)
     (Discovery.discover_filesystem_apps w incl d).
Proof.
  intros Htop Hstat Hreach Hfile Hd Hext.
  unfold Discovery.discover_filesystem_apps.
  apply in_flat_map. exists top. split; [done|].
  apply list_elem_of_In, list_elem_of_omap.
  exists (Fs.below top (rel ++ [fn]), Fs.File fn content xbit). split.
  - apply list_elem_of_In. unfold rglob_at. rewrite Hstat.
    rewrite <- (below_nil top) at 2.
    apply (rglob_complete ∅ top n rel _ Hreach [] nm cs
             (Fs.File fn content xbit) eq_refl Hfile).
  - unfold Discovery.fs_candidate. rewrite relative_to_below.
    destruct (suffix_stem_below top rel fn) as [-> ->].
    replace (d <? Z.of_nat (length (rel ++ [fn]))) with false.
    + cbn [Fs.is_dir]. by rewrite Hext.
    + symmetry. apply Z.ltb_ge. rewrite length_app. simpl. lia.
Qed.

Lemma legacy_walk_prunes_nothing_witness :
  In (DiscoveryModel.mkDiscoveredApp "h" (true, ["R"; ".git"; "h.py"])
        DiscoveryModel.filesystem 40)
     (Discovery.discover_filesystem_apps
        (mkWorld "Windows" ∅ (true, ["R"]) ["nowhere"] Examples.scan_tree
                 (fun p => p))
        false 2).
Proof.
  apply (legacy_walk_prunes_nothing
           (mkWorld "Windows" ∅ (true, ["R"]) ["nowhere"] Examples.scan_tree
                    (fun p => p))
           false 2 (true, ["R"]) Examples.scan_R [".git"] ".git"
           [Examples.empty_file "h.py"] "h.py" (Fs.Text EmptyString) false).
  - vm_compute. tauto.
  - reflexivity.
  - apply (WalkSpec.reach_down ∅ "R" _
             (Fs.Dir ".git" [Examples.empty_file "h.py"]));
      [apply list_elem_of_In; simpl; tauto|reflexivity
      |apply not_elem_of_empty|apply WalkSpec.reach_here].
  - left. reflexivity.
  - vm_compute. discriminate.
  - reflexivity.
Defined.

Lemma mkpath_empty w : mkpath w EmptyString = (false, []).
Proof. unfold mkpath. by destruct (OsUtil.is_windows w). Qed.

(** X13. When one of the four environment variables that
    [filesystem_search_roots] reads is not set, the current working
    directory (the path of the empty string) becomes a search root, as
    long as it exists. *)
Theorem unset_variable_adds_cwd w var :
  In var ["ProgramFiles"; "ProgramFiles(x86)"; "LOCALAPPDATA"; "PROGRAMDATA"] →
  environ w !! var = None →
  path_exists w (false, []) = true →
  In (false, []) (Discovery.filesystem_search_roots w).
Proof.
  intros Hvar Hunset Hcwd. unfold Discovery.filesystem_search_roots.
  apply List.filter_In. split; [|done].
  assert (Hpath : mkpath w (default EmptyString (environ_get w var))
                  = (false, [])).
  { unfold environ_get. rewrite Hunset. apply mkpath_empty. }
  simpl in Hvar.
  destruct Hvar as [<-|[<-|[<-|[<-|[]]]]]; rewrite <- Hpath; simpl; tauto.
Qed.

Lemma unset_variable_adds_cwd_witness :
  In (false, []) (Discovery.filesystem_search_roots Examples.world_windows).
Proof.
  apply (unset_variable_adds_cwd Examples.world_windows "ProgramFiles").
  - left. reflexivity.
  - reflexivity.
  - reflexivity.
Defined.

(** ** The filter and the roots of [applist_manager.py] *)

Lemma startswith_count (c : ascii) pre s :
  PyStr.startswith pre s = true →
  (PyStr.count c pre <= PyStr.count c s)%nat.
Proof.
  revert s. induction pre as [|a pre IH]; intros s;
    [unfold PyStr.count; simpl; lia|].
  destruct s as [|b s]; [done|]. cbn [PyStr.startswith].
  intros Hs. apply andb_true_iff in Hs as [Hab Hs].
  apply Ascii.eqb_eq in Hab as <-. specialize (IH _ Hs).
  unfold PyStr.count in *. cbn [PyStr.count_by]. lia.
Qed.

Lemma count_slash_cons a s :
  PyStr.count PyStr.slash (String a s) = 0%nat →
  Ascii.eqb a PyStr.slash = false ∧ PyStr.count PyStr.slash s = 0%nat.
Proof.
  unfold PyStr.count. cbn [PyStr.count_by].
  destruct (Ascii.eqb a PyStr.slash); [lia|]. by intros.
Qed.

(** A slash-free text followed by one slash and a character that is no
    slash does not start with a text holding a doubled slash after a
    slash-free beginning. *)
Lemma no_doubled_slash pre1 pre2 : ∀ p1 c y,
  PyStr.count PyStr.slash pre1 = 0%nat →
  PyStr.count PyStr.slash p1 = 0%nat →
  Ascii.eqb c PyStr.slash = false →
  PyStr.startswith (pre1 +:+ String PyStr.slash (String PyStr.slash pre2))
                   (p1 +:+ String PyStr.slash (String c y)) = false.
Proof.
  induction pre1 as [|b pre1 IH]; intros p1 c y Hpre Hp1 Hc.
  - rewrite append_nil_l. destruct p1 as [|a p1].
    + rewrite append_nil_l. cbn [PyStr.startswith].
      rewrite Ascii.eqb_refl, (Ascii.eqb_sym PyStr.slash c), Hc. done.
    + rewrite append_cons. cbn [PyStr.startswith].
      apply count_slash_cons in Hp1 as [Ha _].
      by rewrite (Ascii.eqb_sym PyStr.slash a), Ha.
  - rewrite append_cons. apply count_slash_cons in Hpre as [Hb Hpre].
    destruct p1 as [|a p1].
    + rewrite append_nil_l. cbn [PyStr.startswith]. by rewrite Hb.
    + rewrite append_cons. cbn [PyStr.startswith].
      apply count_slash_cons in Hp1 as [_ Hp1].
      rewrite IH by done. apply andb_false_r.
Qed.

Lemma join_head sep p ps :
  p ≠ EmptyString →
  ∃ c y, PyStr.join sep (p :: ps) = String c y
         ∧ ∃ p', p = String c p'.
Proof.
  intros Hp. destruct p as [|c p]; [done|].
  destruct ps as [|q ps]; cbn [PyStr.join].
  - eauto.
  - rewrite append_cons. eauto.
Qed.

Lemma count_app (c : ascii) s1 s2 :
  PyStr.count c (s1 +:+ s2) = (PyStr.count c s1 + PyStr.count c s2)%nat.
Proof. apply count_by_app. Qed.

Lemma count_join (c : ascii) sep ps :
  PyStr.count c sep = 0%nat →
  Forall (fun p => PyStr.count c p = 0%nat) ps →
  PyStr.count c (PyStr.join sep ps) = 0%nat.
Proof.
  intros Hsep. induction 1 as [|p ps Hp Hps IH]; [done|].
  destruct ps as [|q ps]; cbn [PyStr.join]; [done|].
  rewrite !count_app, Hp, Hsep. exact IH.
Qed.

Lemma count_drive_text (c : ascii) d :
  PyStr.count c d = 0%nat → PyStr.count c (Fs.drive_text d) = 0%nat.
Proof.
  unfold PyStr.count. induction d as [|a d IH]; [done|].
  cbn [PyStr.count_by Fs.drive_text]. destruct d as [|b d]; [done|].
  cbn [PyStr.count_by] in *. destruct (Ascii.eqb a c); [lia|].
  intros Hd. cbn [plus]. apply IH. exact Hd.
Qed.

(** The text of a path whose components are not empty and hold no
    slash, as those of every [pathlib] path are, does not start with
    [steam://run/]. *)
Lemma path_text_is_not_a_uri win p :
  Forall (fun c => c ≠ EmptyString ∧ PyStr.count PyStr.slash c = 0%nat)
         (Fs.parts p) →
  PyStr.startswith "steam://run/" (Fs.str win p) = false.
Proof.
  intros Hwf. destruct p as [anch ps]. cbn [Fs.parts snd] in Hwf.
  assert (Hfree : Forall (fun c => PyStr.count PyStr.slash c = 0%nat) ps)
    by (eapply List.Forall_impl; [|exact Hwf]; by intros c [_ Hc]).
  destruct win.
  - (* the Windows flavour writes no slash at all *)
    destruct (PyStr.startswith "steam://run/" (Fs.str true (anch, ps)))
      eqn:Hs; [|done].
    apply (startswith_count PyStr.slash) in Hs.
    assert (Hzero : PyStr.count PyStr.slash (Fs.str true (anch, ps)) = 0%nat).
    { unfold Fs.str, Fs.drive_of. cbn [Fs.parts Fs.anchored fst snd andb].
      destruct ps as [|d ps]; [by destruct anch|].
      apply List.Forall_cons_iff in Hfree as [Hd Hps].
      destruct (Fs.is_drive d).
      - rewrite !count_app, count_drive_text by done.
        cbn [tl]. rewrite count_join by done. by destruct anch.
      - rewrite count_app, count_join by (done || by constructor).
        by destruct anch. }
    rewrite Hzero in Hs. vm_compute in Hs. lia.
  - unfold Fs.str, Fs.drive_of. cbn [Fs.parts Fs.anchored fst snd andb].
    destruct ps as [|p1 ps]; [by destruct anch|].
    replace (match p1 :: ps with
             | d :: _ => if false then Some d else None
             | [] => None
             end) with (@None string) by done.
    cbv iota. destruct anch; [by rewrite append_cons|].
    rewrite append_nil_l.
    apply List.Forall_cons_iff in Hwf as [[Hne1 Hfree1] Hwf].
    destruct ps as [|p2 ps].
    + cbn [PyStr.join].
      destruct (PyStr.startswith "steam://run/" p1) eqn:Hs; [|done].
      apply (startswith_count PyStr.slash) in Hs. rewrite Hfree1 in Hs.
      vm_compute in Hs. lia.
    + apply List.Forall_cons_iff in Hwf as [[Hne2 Hfree2] _].
      change (PyStr.join (String PyStr.slash EmptyString) (p1 :: p2 :: ps))
        with (p1 +:+ String PyStr.slash EmptyString
              +:+ PyStr.join (String PyStr.slash EmptyString) (p2 :: ps)).
      destruct (join_head (String PyStr.slash EmptyString) p2 ps Hne2)
        as (c & y & -> & p2' & ->).
      rewrite append_cons, append_nil_l.
      apply count_slash_cons in Hfree2 as [Hc _].
      apply (no_doubled_slash "steam:" "run/"); [reflexivity|done|done].
Qed.

Lemma keep_no_path w steam_apps apps :
  (∀ a, In a apps →
        Forall (fun c => c ≠ EmptyString ∧ PyStr.count "/" c = 0%nat)
               (Fs.parts (Types.path a))) →
  ∀ related,
    for_each (ApplistManager.keep_app w steam_apps) apps related = Ok related.
Proof.
  induction apps as [|app apps IH]; intros Hwf related; [done|].
  cbn [for_each]. unfold ApplistManager.keep_app at 1. unfold path_str.
  rewrite path_text_is_not_a_uri by (apply Hwf; by left).
  cbn [negb Py.bind]. apply IH. intros a Ha. apply Hwf. by right.
Qed.

(** X14. [filter_steam_apps] keeps no app at all whose path is a
    [pathlib] path, that is, whose components are not empty and hold no
    slash: the text of such a path never starts with [steam://run/],
    whatever the allow-list document lists.  Whenever the filter
    returns, it returns the empty list. *)
Theorem filter_steam_apps_keeps_no_path json_loads w apps kept :
  (∀ a, In a apps →
        Forall (fun c => c ≠ EmptyString ∧ PyStr.count "/" c = 0%nat)
               (Fs.parts (Types.path a))) →
  ApplistManager.filter_steam_apps json_loads w apps = Ok kept →
  kept = [].
Proof.
  intros Hwf. unfold ApplistManager.filter_steam_apps.
  destruct (ApplistManager.read_file_as_text w _) as [text|];
    cbn [mbind result_bind Py.bind]; [|done].
  destruct (ApplistManager.json_to_dict json_loads text) as [data|];
    cbn [mbind result_bind Py.bind]; [|done].
  destruct (Json.get_or_empty data "steam_apps") as [steam_apps|];
    cbn [mbind result_bind Py.bind]; [|done].
  rewrite keep_no_path by done. by intros [= <-].
Qed.

Lemma filter_steam_apps_keeps_no_path_witness :
  ApplistManager.filter_steam_apps Scenarios.loads_220
    Scenarios.world_allowlisted
    [Types.mkDiscoveredApp "Half-Life 2" (false, ["steam:"; "run"; "220"]);
     Types.mkDiscoveredApp "run" (true, ["home"; "u"; "apps"; "run.sh"])]
  = Ok [].
Proof.
  destruct (ApplistManager.filter_steam_apps Scenarios.loads_220
              Scenarios.world_allowlisted
              [Types.mkDiscoveredApp "Half-Life 2"
                 (false, ["steam:"; "run"; "220"]);
               Types.mkDiscoveredApp "run"
                 (true, ["home"; "u"; "apps"; "run.sh"])])
    as [kept|e] eqn:Hkept.
  - f_equal.
    apply (filter_steam_apps_keeps_no_path Scenarios.loads_220
             Scenarios.world_allowlisted
             [Types.mkDiscoveredApp "Half-Life 2"
                (false, ["steam:"; "run"; "220"]);
              Types.mkDiscoveredApp "run"
                (true, ["home"; "u"; "apps"; "run.sh"])]
             kept); [|exact Hkept].
    intros a [<-|[<-|[]]]; cbn [Types.path Fs.parts snd];
      repeat (apply List.Forall_cons || apply List.Forall_nil);
      (split; [discriminate|reflexivity]).
  - vm_compute in Hkept. discriminate Hkept.
Defined.

Lemma keep_converted_apps w steam_apps (apps : list SteamDiscovery.SteamApp) :
  ∀ related,
    for_each (ApplistManager.keep_app w steam_apps)
      ((fun a => Types.mkDiscoveredApp (DiscoveryModel.name a)
                                       (DiscoveryModel.path a))
         <$> SteamDiscovery.steam_apps_to_discovered w apps)
      related
    = Ok related.
Proof.
  unfold SteamDiscovery.steam_apps_to_discovered.
  induction apps as [|app apps IH]; intros related; [done|].
  cbn [fmap list_fmap for_each].
  unfold ApplistManager.keep_app at 1.
  cbn [Types.path DiscoveryModel.path].
  rewrite converted_path_is_not_a_uri. simpl. apply IH.
Qed.

(** X15. [filter_steam_apps] keeps none of the apps that
    [discover_steam_apps] returns, whatever the allow-list document
    holds: their launch paths were made by [Path], whose text no longer
    starts with [steam://run/]. *)
Theorem filter_steam_apps_keeps_no_discovered_app json_loads w apps kept :
  ApplistManager.discover_steam_apps w = Ok apps →
  ApplistManager.filter_steam_apps json_loads w apps = Ok kept →
  kept = [].
Proof.
  unfold ApplistManager.discover_steam_apps.
  destruct (SteamDiscovery.find_installed_steam_apps w) as [steam|];
    cbn [mbind result_bind Py.bind]; [|done].
  intros [= <-]. unfold ApplistManager.filter_steam_apps.
  destruct (ApplistManager.read_file_as_text w _) as [text|];
    cbn [mbind result_bind Py.bind]; [|done].
  destruct (ApplistManager.json_to_dict json_loads text) as [data|];
    cbn [mbind result_bind Py.bind]; [|done].
  destruct (Json.get_or_empty data "steam_apps") as [steam_apps|];
    cbn [mbind result_bind Py.bind]; [|done].
  rewrite keep_converted_apps. by intros [= <-].
Qed.

Lemma filter_steam_apps_keeps_no_discovered_app_witness :
  ApplistManager.discover_steam_apps Scenarios.world_allowlisted
  = Ok [Types.mkDiscoveredApp "Steam App 220" (false, ["steam:"; "run"; "220"])]
  ∧ ApplistManager.filter_steam_apps Scenarios.loads_220
      Scenarios.world_allowlisted
      [Types.mkDiscoveredApp "Steam App 220" (false, ["steam:"; "run"; "220"])]
    = Ok [].
Proof.
  assert (Hfound : ApplistManager.discover_steam_apps Scenarios.world_allowlisted
                   = Ok [Types.mkDiscoveredApp "Steam App 220"
                           (false, ["steam:"; "run"; "220"])])
    by (vm_compute; reflexivity).
  split; [exact Hfound|].
  destruct (ApplistManager.filter_steam_apps Scenarios.loads_220
              Scenarios.world_allowlisted
              [Types.mkDiscoveredApp "Steam App 220"
                 (false, ["steam:"; "run"; "220"])]) as [kept|e] eqn:Hkept.
  - f_equal.
    exact (filter_steam_apps_keeps_no_discovered_app Scenarios.loads_220
             Scenarios.world_allowlisted _ kept Hfound Hkept).
  - vm_compute in Hkept. discriminate Hkept.
Defined.

Lemma applist_roots_ignore w var value :
  ¬ In var ["HOME"; "UVRL_APPS"; "ProgramFiles"; "ProgamFiles(x86)";
            "LOCALAPPDATA"; "PROGAMDATA"] →
  ApplistManager.filesystem_search_roots (Scenarios.with_env w var value)
  = ApplistManager.filesystem_search_roots w.
Proof.
  intros Hvar. unfold ApplistManager.filesystem_search_roots.
  change (OsUtil.get_os (Scenarios.with_env w var value))
    with (OsUtil.get_os w).
  assert (Hget : ∀ k, In k ["HOME"; "UVRL_APPS"; "ProgramFiles";
                            "ProgamFiles(x86)"; "LOCALAPPDATA"; "PROGAMDATA"] →
                      OsUtil.get_env (Scenarios.with_env w var value) k
                      = OsUtil.get_env w k).
  { intros k Hk. unfold OsUtil.get_env, environ_get. simpl.
    apply lookup_insert_ne. intros ->. by apply Hvar. }
  destruct (OsUtil.get_os w); cbn [mbind result_bind Py.bind]; [| |done].
  - f_equal. cbn [omap list_omap].
    rewrite !Hget by (simpl; tauto). done.
  - f_equal. cbn [omap list_omap].
    rewrite !Hget by (simpl; tauto). done.
Qed.

(** X16. The roots of [applist_manager.py] do not depend on the
    environment variables [ProgramFiles(x86)] and [PROGRAMDATA]: the
    names the code reads are spelled [ProgamFiles(x86)] and
    [PROGAMDATA]. *)
Theorem applist_roots_ignore_program_files_x86 w value :
  ApplistManager.filesystem_search_roots
    (Scenarios.with_env w "ProgramFiles(x86)" value)
  = ApplistManager.filesystem_search_roots w
  ∧ ApplistManager.filesystem_search_roots
      (Scenarios.with_env w "PROGRAMDATA" value)
    = ApplistManager.filesystem_search_roots w.
Proof.
  split; apply applist_roots_ignore; simpl;
    intros H; repeat (destruct H as [H|H]; [discriminate H|]); done.
Qed.

(** X17. On Linux the file-system scan of [applist_manager.py] looks
    below the directory named by [UVRL_APPS] only: every app it returns
    lies below that directory by at least 1 and at most [max_depth]
    components, the file name included; without the variable it
    returns nothing. *)
Theorem applist_linux_scans_uvrl_apps w d apps a :
  OsUtil.get_os w = OsUtil.LINUX →
  ApplistManager.discover_filesystem_apps w d = Ok apps →
  In a apps →
  ∃ value rel,
    environ w !! "UVRL_APPS" = Some value
    ∧ Types.path a = Fs.below (mkpath w value) rel
    ∧ 1 ≤ Z.of_nat (length rel) ≤ d.
Proof.
  intros Hos. unfold ApplistManager.discover_filesystem_apps,
    ApplistManager.filesystem_search_roots. rewrite Hos.
  cbn [mbind result_bind Py.bind omap list_omap].
  unfold OsUtil.get_env, environ_get.
  destruct (environ w !! "UVRL_APPS") as [value|]; [|by intros [= <-] []].
  intros [= <-] Ha. exists value.
  apply in_flat_map in Ha as (top & Htop & Ha).
  destruct (path_exists w (mkpath w value)); [|done].
  destruct Htop as [<-|[]].
  apply list_elem_of_In, list_elem_of_omap in Ha as ([p c] & Hin & Hc).
  apply list_elem_of_In, rglob_at_below in Hin as [rel ->].
  exists (rel ++ [Fs.node_name c])%list. split; [done|].
  unfold ApplistManager.fs_candidate in Hc. rewrite relative_to_below in Hc.
  destruct (d <? _) eqn:Hd; [done|]. apply Z.ltb_ge in Hd.
  destruct (Fs.is_dir c); [done|].
  destruct (negb _); [done|]. inversion Hc; subst. simpl.
  split; [done|]. rewrite length_app in *. simpl in *. lia.
Qed.

Lemma applist_linux_scans_uvrl_apps_witness :
  ∃ value rel,
    environ Scenarios.world_allowlisted !! "UVRL_APPS" = Some value
    ∧ (true, ["home"; "u"; "apps"; "tools"; "t.py"])
      = Fs.below (mkpath Scenarios.world_allowlisted value) rel
    ∧ 1 ≤ Z.of_nat (length rel) ≤ 3.
Proof.
  apply (applist_linux_scans_uvrl_apps Scenarios.world_allowlisted 3
           [Types.mkDiscoveredApp "run" (true, ["home"; "u"; "apps"; "run.sh"]);
            Types.mkDiscoveredApp "t"
              (true, ["home"; "u"; "apps"; "tools"; "t.py"])]
           (Types.mkDiscoveredApp "t"
              (true, ["home"; "u"; "apps"; "tools"; "t.py"]))).
  - reflexivity.
  - vm_compute. reflexivity.
  - right. left. reflexivity.
Defined.

(** ** More on the walk of [hi.py] *)






Lemma os_walk_yield_root top d excluded n pre dp kept fns :
  In (dp, kept, fns)
     (Walk.os_walk (Hi.prune top d excluded) (Fs.below top pre) n) →
  ∃ rel nm cs,
    dp = Fs.below top (pre ++ rel)
    ∧ WalkSpec.reach excluded n rel (Fs.Dir nm cs)
    ∧ fns = Walk.filenames cs
    ∧ (rel = [] ∨ Z.of_nat (length (pre ++ rel)) ≤ d).
Proof.
  destruct n as [|nm cs]; [done|]. cbn [Walk.os_walk].
  intros [Heq|Hin].
  - inversion Heq; subst. exists [], nm, cs. rewrite app_nil_r.
    split; [done|]. split; [constructor|]. split; [done|by left].
  - apply in_flat_map in Hin as (c & Hc & Hin).
    destruct (Fs.is_dir c) eqn:Hdir; cbn [andb] in Hin; [|done].
    destruct (Walk.mem (Fs.node_name c) _) eqn:Hmem; [|done].
    rewrite div_below in Hin.
    apply os_walk_yield in Hin as (rel & nm' & cs' & -> & Hreach & -> & Hd).
    rewrite prune_below in Hmem.
    destruct (d <=? Z.of_nat (length pre)) eqn:Hprune; [done|].
    apply Z.leb_gt in Hprune.
    apply mem_In, List.filter_In in Hmem as [_ Hnot].
    apply negb_true_iff, bool_decide_eq_false in Hnot.
    exists (Fs.node_name c :: rel), nm', cs'.
    split; [by rewrite <- app_assoc|].
    split; [by constructor; [apply list_elem_of_In| | |]|].
    split; [done|]. right. rewrite <- app_assoc in Hd. apply Hd.
    rewrite length_app. simpl. lia.
Qed.

(** The apps of one root, exactly. *)
Lemma walk_root_iff w excluded r a :
  In a (Hi.walk_root w excluded r) ↔
  default false (Hi.rs_enabled r) = true
  ∧ ∃ n rel nm cs fn,
      stat w (Hi.root_path w r) = Some n
      ∧ WalkSpec.reach excluded n rel (Fs.Dir nm cs)
      ∧ (rel = [] ∨ Z.of_nat (length rel) ≤ Hi.effective_depth r)
      ∧ In fn (Walk.filenames cs)
      ∧ Hi.launchable w (Fs.below (Hi.root_path w r) (rel ++ [fn])) = true
      ∧ a = Types.mkDiscoveredApp
              (Fs.stem (Fs.below (Hi.root_path w r) (rel ++ [fn])))
              (Fs.below (Hi.root_path w r) (rel ++ [fn])).
Proof.
  split.
  - unfold Hi.walk_root, os_walk_at, path_exists.
    set (top := Hi.root_path w r). set (d := Hi.effective_depth r).
    destruct (default false (Hi.rs_enabled r)); cbn [negb]; [|done].
    destruct (stat w top) as [n|]; cbn [negb]; [|done].
    intros Hin. apply in_flat_map in Hin as ([[dp kept] fns] & Hy & Ha).
    pose proof (os_walk_yield_root top d excluded n [] dp kept fns) as Hyield.
    rewrite below_nil in Hyield.
    destruct (Hyield Hy) as (rel & nm & cs & Hdp & Hreach & Hfns & Hd).
    subst dp fns. cbn [app length] in *.
    apply (proj1 (visit_elem w top rel kept _ a)) in Ha
      as (fn & Hfn & Hl & ->).
    split; [done|]. exists n, rel, nm, cs, fn. done.
  - intros (Hen & n & rel & nm & cs & fn & Hstat & Hreach & Hd & Hfn & Hl & ->).
    destruct Hd as [-> | Hd]; [|by eapply walk_root_complete].
    inversion Hreach; subst.
    unfold Hi.walk_root, os_walk_at, path_exists. rewrite Hen, Hstat.
    cbn [negb Walk.os_walk]. apply in_flat_map. eexists. split; [by left|].
    match goal with |- In ?a (Hi.visit _ ?top (_, ?kept, ?fns)) =>
      pose proof (visit_elem w top [] kept fns a) as Hvisit end.
    rewrite below_nil in Hvisit. apply Hvisit. exists fn. done.
Qed.

(** X19. Raising the depth bound of a root never loses an app: whatever
    the walk returns for a root is also returned for a root with the
    same path and the same [enabled] flag and a bound at least as
    large. *)
Theorem walk_grows_with_depth w excluded r r' a :
  Hi.rs_path r = Hi.rs_path r' →
  Hi.rs_enabled r = Hi.rs_enabled r' →
  Hi.effective_depth r ≤ Hi.effective_depth r' →
  In a (Hi.walk_root w excluded r) →
  In a (Hi.walk_root w excluded r').
Proof.
  intros Hpath Hen Hd. rewrite !walk_root_iff.
  assert (Htop : Hi.root_path w r = Hi.root_path w r')
    by (unfold Hi.root_path; by rewrite Hpath).
  rewrite <- Htop, <- Hen.
  intros (He & n & rel & nm & cs & fn & Hstat & Hreach & Hrel & Hrest).
  split; [done|]. exists n, rel, nm, cs, fn.
  split; [done|]. split; [done|]. split; [|done].
  destruct Hrel as [->|Hrel]; [by left|right; lia].
Qed.

Lemma walk_grows_with_depth_witness :
  In (Types.mkDiscoveredApp "m" (true, ["R"; "x"; "m.exe"]))
     (Hi.walk_root Examples.world_windows ∅ (Examples.root_spec true 5)).
Proof.
  apply (walk_grows_with_depth Examples.world_windows ∅
           (Examples.root_spec true 1) (Examples.root_spec true 5)).
  - reflexivity.
  - reflexivity.
  - vm_compute. discriminate.
  - vm_compute. tauto.
Defined.

Lemma reach_mono excluded excluded' n rel n' :
  excluded ⊆ excluded' →
  WalkSpec.reach excluded' n rel n' → WalkSpec.reach excluded n rel n'.
Proof.
  intros Hsub. induction 1 as [|nm cs c rel n' Hc Hdir Hnot _ IH];
    [constructor|].
  constructor; [done|done| |done]. set_solver.
Qed.

(** X20. Excluding more directory names never adds an app: with a
    larger exclusion set the walk of a root returns only apps it also
    returns with the smaller one. *)
Theorem walk_shrinks_with_exclusions w excluded excluded' r a :
  excluded ⊆ excluded' →
  In a (Hi.walk_root w excluded' r) →
  In a (Hi.walk_root w excluded r).
Proof.
  intros Hsub. rewrite !walk_root_iff.
  intros (He & n & rel & nm & cs & fn & Hstat & Hreach & Hrest).
  split; [done|]. exists n, rel, nm, cs, fn.
  split; [done|]. split; [by eapply reach_mono|done].
Qed.

Lemma walk_shrinks_with_exclusions_witness :
  In (Types.mkDiscoveredApp "a" (true, ["R"; "a.exe"]))
     (Hi.walk_root Examples.world_windows ∅ (Examples.root_spec true 2)).
Proof.
  apply (walk_shrinks_with_exclusions Examples.world_windows ∅ {[".git"]}).
  - apply empty_subseteq.
  - vm_compute. tauto.
Defined.

Lemma lower_char_idempotent c :
  PyStr.lower_char (PyStr.lower_char c) = PyStr.lower_char c.
Proof. by destruct c as [[] [] [] [] [] [] [] []]. Qed.

Lemma lower_idempotent s : PyStr.lower (PyStr.lower s) = PyStr.lower s.
Proof.
  induction s as [|a s IH]; simpl; [done|].
  by rewrite lower_char_idempotent, IH.
Qed.

Lemma flat_map_ext_in {A B} (f g : A → list B) l :
  Forall (fun x => f x = g x) l → flat_map f l = flat_map g l.
Proof. induction 1 as [|x l Hx _ IH]; simpl; [done|]. by rewrite Hx, IH. Qed.

Lemma os_walk_ext upd1 upd2 n :
  (∀ dp names, upd1 dp names = upd2 dp names) →
  ∀ dp, Walk.os_walk upd1 dp n = Walk.os_walk upd2 dp n.
Proof.
  intros Hupd. induction n as [nm ct x|nm cs IH] using Fs.node_ind;
    intros dp; [done|].
  cbn [Walk.os_walk]. rewrite Hupd. f_equal.
  apply flat_map_ext_in. eapply List.Forall_impl; [|exact IH].
  intros c Hc. simpl. by rewrite Hc.
Qed.

(** X21. An exclusion name that is not in lower case excludes nothing:
    directory names are lower-cased before the lookup, so adding such a
    name to the exclusion set leaves the result of the walk
    unchanged. *)
Theorem mixed_case_exclusion_has_no_effect w excluded name roots :
  PyStr.lower name ≠ name →
  Hi.discover_filesystem_apps_optin w roots (excluded ∪ {[name]})
  = Hi.discover_filesystem_apps_optin w roots excluded.
Proof.
  intros Hname. unfold Hi.discover_filesystem_apps_optin.
  apply flat_map_ext_all. intros r. unfold Hi.walk_root, os_walk_at.
  destruct (negb _); [done|]. destruct (negb _); [done|].
  destruct (stat w (Hi.root_path w r)) as [n|]; [|done].
  f_equal. apply os_walk_ext. intros dp names. unfold Hi.prune.
  destruct (Walk.relative_to dp _); [|done].
  destruct (_ <=? _); [done|].
  apply List.filter_ext. intros d. f_equal. apply bool_decide_ext.
  rewrite elem_of_union, elem_of_singleton.
  split; [|by left]. intros [Hd|Hd]; [done|].
  exfalso. apply Hname. rewrite <- Hd. apply lower_idempotent.
Qed.

Lemma mixed_case_exclusion_has_no_effect_witness :
  Hi.discover_filesystem_apps_optin Examples.world_windows
    [Examples.root_spec true 2] (∅ ∪ {[".Git"]})
  = Hi.discover_filesystem_apps_optin Examples.world_windows
      [Examples.root_spec true 2] ∅.
Proof.
  apply (mixed_case_exclusion_has_no_effect Examples.world_windows ∅ ".Git").
  vm_compute. discriminate.
Defined.

(** ** The default roots and the commands of [hi.py] *)

Lemma env_root_In w var enabled max_depth label r :
  In r (HiCli.env_root w var enabled max_depth label) →
  ∃ v, r = HiCli.root_entry v enabled max_depth label.
Proof.
  unfold HiCli.env_root. destruct (HiCli.truthy _) as [v|]; [|done].
  intros [<-|[]]. eauto.
Qed.

Lemma default_roots_In w r :
  In r (HiCli.default_roots w) →
  path_exists w (mkpath w (Hi.rs_path r)) = true
  ∧ Hi.rs_recursive r = Some true
  ∧ (Hi.rs_enabled r = Some false
     ∨ OsUtil.get_os w = OsUtil.WINDOWS
       ∧ Hi.rs_enabled r = Some true
       ∧ (Hi.rs_label r = Some "Program Files"
          ∨ Hi.rs_label r = Some "Program Files (x86)")).
Proof.
  unfold HiCli.default_roots. intros Hin.
  apply List.filter_In in Hin as [Hin Hex]. split; [done|].
  destruct (OsUtil.get_os w).
  - repeat (apply in_app_or in Hin as [Hin|Hin];
            [apply env_root_In in Hin as [v ->]; simpl; tauto|]).
    simpl in Hin. destruct Hin as [<-|[<-|[<-|[]]]]; simpl; tauto.
  - simpl in Hin. destruct Hin as [<-|[<-|[<-|[]]]]; simpl; tauto.
  - simpl in Hin. destruct Hin as [<-|[<-|[<-|[]]]]; simpl; tauto.
Qed.

Lemma flat_map_nil_in {A B} (f : A → list B) l :
  Forall (fun x => f x = []) l → flat_map f l = [].
Proof. induction 1 as [|x l Hx _ IH]; simpl; [done|]. by rewrite Hx, IH. Qed.

(** X22. Every default root exists when the defaults are made and is
    recursive; only the two Program Files roots of Windows are enabled.
    Hence, away from Windows, walking the default roots finds
    nothing. *)
Theorem default_roots_are_opt_in w excluded :
  (∀ r, In r (HiCli.default_roots w) →
        path_exists w (mkpath w (Hi.rs_path r)) = true
        ∧ Hi.rs_recursive r = Some true
        ∧ (Hi.rs_enabled r = Some true →
           OsUtil.get_os w = OsUtil.WINDOWS
           ∧ (Hi.rs_label r = Some "Program Files"
              ∨ Hi.rs_label r = Some "Program Files (x86)")))
  ∧ (OsUtil.get_os w ≠ OsUtil.WINDOWS →
     Hi.discover_filesystem_apps_optin w (HiCli.default_roots w) excluded
     = []).
Proof.
  split.
  - intros r Hr. destruct (default_roots_In w r Hr) as (Hex & Hrec & Hen).
    split; [done|]. split; [done|]. intros Htrue.
    destruct Hen as [Hfalse|(Hos & _ & Hlabel)]; [congruence|done].
  - intros Hos. unfold Hi.discover_filesystem_apps_optin.
    apply flat_map_nil_in, List.Forall_forall. intros r Hr.
    destruct (default_roots_In w r Hr) as (_ & _ & [Hen|(Hwin & _)]);
      [|done].
    unfold Hi.walk_root. by rewrite Hen.
Qed.

Lemma default_roots_are_opt_in_witness :
  HiCli.default_roots Scenarios.world_games
  = [HiCli.root_entry "/home/u/Games" false 6 "Games";
     HiCli.root_entry "/home/u/Downloads" false 3 "Downloads"]
  ∧ Hi.discover_filesystem_apps_optin Scenarios.world_games
      (HiCli.default_roots Scenarios.world_games) ∅ = []
  ∧ Hi.discover_filesystem_apps_optin Scenarios.world_games
      ((fun r => HiCli.set_enabled r true)
         <$> HiCli.default_roots Scenarios.world_games) ∅
    = [Types.mkDiscoveredApp "doom" (true, ["home"; "u"; "Games"; "doom.sh"]);
       Types.mkDiscoveredApp "setup"
         (true, ["home"; "u"; "Downloads"; "setup.py"])].
Proof.
  split; [vm_compute; reflexivity|]. split.
  - apply (default_roots_are_opt_in Scenarios.world_games ∅).
    vm_compute. discriminate.
  - vm_compute. reflexivity.
Defined.

Lemma same_root_new w p enabled recursive max_depth label :
  HiCli._normalize_path w p = p →
  HiCli.same_root w p (Hi.mkRootSpec p enabled recursive max_depth label)
  = true.
Proof.
  intros Hp. unfold HiCli.same_root. simpl. rewrite Hp.
  apply String.eqb_refl.
Qed.

(** X23. Adding a root that is already configured changes nothing: once
    [roots add] has succeeded for a path, adding any path with the same
    normal form again returns 0 and leaves the stored document as it
    is (the normal form of a normalised path being itself). *)
Theorem roots_add_twice w st path label max_depth enable disable st1
    path2 label2 max_depth2 enable2 disable2 :
  HiCli._normalize_path w (HiCli._normalize_path w path)
  = HiCli._normalize_path w path →
  HiCli._normalize_path w path2 = HiCli._normalize_path w path →
  HiCli.cmd_roots_add w st path label max_depth enable disable
  = Ok (Some 0, st1) →
  HiCli.cmd_roots_add w st1 path2 label2 max_depth2 enable2 disable2
  = Ok (Some 0, st1).
Proof.
  intros Hidem Hsame. unfold HiCli.cmd_roots_add. rewrite Hsame.
  set (p := HiCli._normalize_path w path) in *.
  destruct (existsb (HiCli.same_root w p)
              (default [] (HiCli.cfg_roots (HiCli.load_config w st))))
    eqn:Hpresent.
  - intros [= <-]. by rewrite Hpresent.
  - unfold HiCli.save_config. destruct (HiCli.writable st); [|done].
    cbn [mbind result_bind Py.bind]. intros [= <-].
    cbn [HiCli.load_config HiCli.config_file HiCli.set_roots HiCli.cfg_roots
         default from_option]. unfold id.
    rewrite existsb_app. cbn [existsb].
    by rewrite same_root_new, orb_true_r.
Qed.

Lemma roots_add_twice_witness :
  HiCli.cmd_roots_add Examples.world_windows
    (Scenarios.store_of [Hi.mkRootSpec "\R" (Some true) (Some true) (Some 4)
                           (Some "Custom")])
    "/R/." "again" 9 false true
  = Ok (Some 0,
        Scenarios.store_of [Hi.mkRootSpec "\R" (Some true) (Some true) (Some 4)
                              (Some "Custom")]).
Proof.
  apply (roots_add_twice Examples.world_windows (Scenarios.store_of [])
           "/R" EmptyString 4 false false).
  - reflexivity.
  - reflexivity.
  - reflexivity.
Defined.

(** X24. [roots add] keeps the normal forms of the configured paths
    pairwise different: when they are so before the command, they are
    so in the document the command leaves. *)
Theorem roots_add_keeps_paths_distinct w st path label max_depth enable
    disable code st1 :
  HiCli._normalize_path w (HiCli._normalize_path w path)
  = HiCli._normalize_path w path →
  NoDup ((fun r => HiCli._normalize_path w (Hi.rs_path r))
           <$> default [] (HiCli.cfg_roots (HiCli.load_config w st))) →
  HiCli.cmd_roots_add w st path label max_depth enable disable
  = Ok (code, st1) →
  NoDup ((fun r => HiCli._normalize_path w (Hi.rs_path r))
           <$> default [] (HiCli.cfg_roots (HiCli.load_config w st1))).
Proof.
  intros Hidem Hnodup. unfold HiCli.cmd_roots_add.
  set (p := HiCli._normalize_path w path) in *.
  set (roots := default [] (HiCli.cfg_roots (HiCli.load_config w st))) in *.
  destruct (existsb (HiCli.same_root w p) roots) eqn:Hpresent.
  - intros [= <- <-]. done.
  - unfold HiCli.save_config. destruct (HiCli.writable st); [|done].
    cbn [mbind result_bind Py.bind]. intros [= <- <-].
    cbn [HiCli.load_config HiCli.config_file HiCli.set_roots HiCli.cfg_roots
         default from_option]. unfold id.
    rewrite fmap_app. apply NoDup_app. split; [done|]. split.
    + intros s Hs Hnew. cbn [fmap list_fmap Hi.rs_path] in Hnew.
      apply list_elem_of_singleton in Hnew. subst s.
      apply list_elem_of_fmap in Hs as (r & Hr & Hin).
      assert (Hex : existsb (HiCli.same_root w p) roots = true).
      { apply existsb_exists. exists r. split; [by apply list_elem_of_In|].
        unfold HiCli.same_root. rewrite <- Hr, Hidem. apply String.eqb_refl. }
      by rewrite Hex in Hpresent.
    + apply NoDup_singleton.
Qed.

Lemma roots_add_keeps_paths_distinct_witness :
  NoDup ((fun r => HiCli._normalize_path Examples.world_windows (Hi.rs_path r))
           <$> [Hi.mkRootSpec "/R" (Some true) (Some true) (Some 4) None;
                Hi.mkRootSpec "/R/x" (Some false) None None None;
                Hi.mkRootSpec "\R\x\y" (Some true) (Some true) (Some 4)
                  (Some "Custom")])
  ∧ HiCli.cmd_roots_add Examples.world_windows
      (Scenarios.store_of
         [Hi.mkRootSpec "/R" (Some true) (Some true) (Some 4) None;
          Hi.mkRootSpec "/R/x" (Some false) None None None])
      "/R/./x/" EmptyString 4 false false
    = Ok (Some 0,
          Scenarios.store_of
            [Hi.mkRootSpec "/R" (Some true) (Some true) (Some 4) None;
             Hi.mkRootSpec "/R/x" (Some false) None None None]).
Proof.
  assert (Hbefore :
            NoDup ((fun r => HiCli._normalize_path Examples.world_windows
                               (Hi.rs_path r))
                     <$> [Hi.mkRootSpec "/R" (Some true) (Some true) (Some 4)
                            None;
                          Hi.mkRootSpec "/R/x" (Some false) None None None])).
  { vm_compute. apply NoDup_cons. split.
    - intros Hin. apply list_elem_of_singleton in Hin. discriminate Hin.
    - apply NoDup_singleton. }
  split.
  - apply (roots_add_keeps_paths_distinct Examples.world_windows
             (Scenarios.store_of
                [Hi.mkRootSpec "/R" (Some true) (Some true) (Some 4) None;
                 Hi.mkRootSpec "/R/x" (Some false) None None None])
             "/R/x/y" EmptyString 4 false false (Some 0)
             (Scenarios.store_of
                [Hi.mkRootSpec "/R" (Some true) (Some true) (Some 4) None;
                 Hi.mkRootSpec "/R/x" (Some false) None None None;
                 Hi.mkRootSpec "\R\x\y" (Some true) (Some true) (Some 4)
                   (Some "Custom")])).
    + reflexivity.
    + exact Hbefore.
    + reflexivity.
  - reflexivity.
Defined.







Lemma walk_disabled w excluded r :
  Hi.walk_root w excluded (HiCli.set_enabled r false) = [].
Proof. reflexivity. Qed.

Lemma walk_after_disable w excluded target roots :
  Hi.discover_filesystem_apps_optin w
    ((fun r => if HiCli.same_root w target r
               then HiCli.set_enabled r false else r) <$> roots)
    excluded
  = Hi.discover_filesystem_apps_optin w
      (List.filter (fun r => negb (HiCli.same_root w target r)) roots)
      excluded.
Proof.
  unfold Hi.discover_filesystem_apps_optin.
  induction roots as [|r roots IH]; [done|].
  cbn [fmap list_fmap flat_map List.filter].
  destruct (HiCli.same_root w target r); cbn [negb flat_map].
  - rewrite walk_disabled. exact IH.
  - f_equal. exact IH.
Qed.

(** X26. After [roots disable] has succeeded for a path, walking the
    stored roots gives what walking the former roots gives once every
    root with the normal form of that path is left out; the other roots
    are walked as before. *)
Theorem roots_disable_stops_walk w st path st1 excluded :
  HiCli.cmd_roots_enable_disable w st path false = Ok (Some 0, st1) →
  Hi.discover_filesystem_apps_optin w
    (default [] (HiCli.cfg_roots (HiCli.load_config w st1))) excluded
  = Hi.discover_filesystem_apps_optin w
      (List.filter
         (fun r => negb (HiCli.same_root w (HiCli._normalize_path w path) r))
         (default [] (HiCli.cfg_roots (HiCli.load_config w st))))
      excluded.
Proof.
  unfold HiCli.cmd_roots_enable_disable.
  destruct (negb _); [done|].
  unfold HiCli.save_config. destruct (HiCli.writable st); [|done].
  cbn [mbind result_bind Py.bind]. intros [= <-].
  cbn [HiCli.load_config HiCli.config_file HiCli.set_roots HiCli.cfg_roots
       default from_option]. unfold id.
  apply walk_after_disable.
Qed.

Lemma roots_disable_stops_walk_witness :
  Hi.discover_filesystem_apps_optin Examples.world_windows
    (default []
       (HiCli.cfg_roots
          (HiCli.load_config Examples.world_windows
             (Scenarios.store_of
                [Hi.mkRootSpec "/R" (Some false) (Some true) (Some 1) None]))))
    ∅
  = Hi.discover_filesystem_apps_optin Examples.world_windows
      (List.filter
         (fun r => negb (HiCli.same_root Examples.world_windows
                           (HiCli._normalize_path Examples.world_windows "/R")
                           r))
         (default []
            (HiCli.cfg_roots
               (HiCli.load_config Examples.world_windows
                  (Scenarios.store_of [Examples.root_spec true 1])))))
      ∅.
Proof.
  apply (roots_disable_stops_walk Examples.world_windows
           (Scenarios.store_of [Examples.root_spec true 1]) "/R").
  reflexivity.
Defined.

(** X27. The [discover] command never gives an exit status:
    [cmd_discover] ends without [return], so whenever it returns, it
    returns [None] and leaves the store alone, and [main] then raises
    [TypeError] on [int(None)]; and when it raises, so does [main]. *)
Theorem discover_command_raises w st json steam no_steam no_filesystem :
  (∀ r, HiCli.cmd_discover w st steam no_steam no_filesystem = Ok r →
        r = (None, st)
        ∧ HiCli.main w st (HiCli.Discover json steam no_steam no_filesystem)
          = Raise TypeError)
  ∧ (∀ r, HiCli.main w st (HiCli.Discover json steam no_steam no_filesystem)
          ≠ Ok r).
Proof.
  unfold HiCli.main, HiCli.run_command, HiCli.cmd_discover.
  destruct (HiCli.cmd_discover_apps w st steam no_steam no_filesystem)
    as [apps|e]; cbn [mbind result_bind Py.bind fst snd]; split.
  - by intros r [= <-].
  - done.
  - done.
  - done.
Qed.

Lemma discover_command_raises_witness :
  HiCli.cmd_discover Scenarios.world_games
    (Scenarios.store_of
       [HiCli.root_entry "/home/u/Games" true 6 "Games"])
    false false false
  = Ok (None,
        Scenarios.store_of [HiCli.root_entry "/home/u/Games" true 6 "Games"])
  ∧ HiCli.main Scenarios.world_games
      (Scenarios.store_of [HiCli.root_entry "/home/u/Games" true 6 "Games"])
      (HiCli.Discover false false false false)
    = Raise TypeError.
Proof.
  assert (Hcmd : HiCli.cmd_discover Scenarios.world_games
                   (Scenarios.store_of
                      [HiCli.root_entry "/home/u/Games" true 6 "Games"])
                   false false false
                 = Ok (None,
                       Scenarios.store_of
                         [HiCli.root_entry "/home/u/Games" true 6 "Games"]))
    by (vm_compute; reflexivity).
  split; [exact Hcmd|].
  exact (proj2 (proj1 (discover_command_raises Scenarios.world_games
                         (Scenarios.store_of
                            [HiCli.root_entry "/home/u/Games" true 6 "Games"])
                         false false false false) _ Hcmd)).
Defined.
